(** * Veloce UI-definition synchronisation: a shallow embedding

    The development embeds the push and pull paths of the Veloce SFDX
    plugin (the library entry points [pushUI] and [pullUI] and the CLI
    command [Pull]) and proves the properties its design document states
    about them.

    Modelling conventions.
    - JavaScript strings are [string]; a text that holds JSON or base64
      is represented by the bytes of its UTF-8 form, one [ascii] per byte.
    - A [Buffer] is a list of bytes, [list ascii].
    - JavaScript values that come out of [JSON.parse] are [jsval];
      objects whose fields are copied, deleted and assigned are finite
      maps from field names to values.
    - Code that writes files, logs or calls the remote store is written
      in a state-and-exception monad over an explicit [World]. *)

From Stdlib Require Import ZArith NArith Ascii String DecimalString List Lia Bool.
From stdpp Require Import gmap strings list.
Import ListNotations.

Local Open Scope string_scope.
Local Open Scope list_scope.

(** ** Base64, as [Buffer.toString('base64')] and [Buffer.from(s, 'base64')] *)

Module Base64.

Local Open Scope N_scope.

(** The alphabet of RFC 4648, by index. *)
Definition alphabet : string :=
  "ABCDEFGHIJKLMNOPQRSTUVWXYZabcdefghijklmnopqrstuvwxyz0123456789+/".

Definition encodeChar (n : N) : ascii :=
  match String.get (N.to_nat n) alphabet with
  | Some c => c
  | None => "="%char
  end.

(** The value of a character of the alphabet; Node also accepts the
    URL-safe characters [-] and [_]. *)
Definition decodeChar (c : ascii) : option N :=
  let n := N_of_ascii c in
  if (65 <=? n) && (n <=? 90) then Some (n - 65)
  else if (97 <=? n) && (n <=? 122) then Some (n - 97 + 26)
  else if (48 <=? n) && (n <=? 57) then Some (n - 48 + 52)
  else if (n =? 43) || (n =? 45) then Some 62
  else if (n =? 47) || (n =? 95) then Some 63
  else None.

(** Three bytes make four sextets; one or two trailing bytes make two or
    three sextets. *)
Fixpoint sextets (b : list ascii) : list N :=
  match b with
  | [] => []
  | [x] =>
      let x := N_of_ascii x in
      [x / 4; (x mod 4) * 16]
  | [x; y] =>
      let x := N_of_ascii x in
      let y := N_of_ascii y in
      [x / 4; (x mod 4) * 16 + y / 16; (y mod 16) * 4]
  | x :: y :: z :: rest =>
      let x := N_of_ascii x in
      let y := N_of_ascii y in
      let z := N_of_ascii z in
      x / 4 :: (x mod 4) * 16 + y / 16 :: (y mod 16) * 4 + z / 64 :: z mod 64
        :: sextets rest
  end.

Definition padding (b : list ascii) : list ascii :=
  match (N.of_nat (length b) mod 3) with
  | 1 => ["="; "="]%char
  | 2 => ["="]%char
  | _ => []
  end.

(** [buf.toString('base64')] *)
Definition encode (b : list ascii) : string :=
  string_of_list_ascii (map encodeChar (sextets b) ++ padding b).

(** The sextets of a text: decoding stops at the first [=], characters
    outside the alphabet are skipped. *)
Fixpoint values (s : list ascii) : list N :=
  match s with
  | [] => []
  | c :: s' =>
      if Ascii.eqb c "="%char then []
      else match decodeChar c with
           | Some n => n :: values s'
           | None => values s'
           end
  end.

Fixpoint bytes (v : list N) : list ascii :=
  match v with
  | a :: b :: c :: d :: rest =>
      ascii_of_N (a * 4 + b / 16)
        :: ascii_of_N ((b mod 16) * 16 + c / 4)
        :: ascii_of_N ((c mod 4) * 64 + d)
        :: bytes rest
  | [a; b; c] =>
      [ascii_of_N (a * 4 + b / 16); ascii_of_N ((b mod 16) * 16 + c / 4)]
  | [a; b] => [ascii_of_N (a * 4 + b / 16)]
  | _ => []
  end.

(** [Buffer.from(s, 'base64')]: never throws. *)
Definition decode (s : string) : list ascii :=
  bytes (values (list_ascii_of_string s)).

End Base64.

(** ** JavaScript values *)

(** The values [JSON.parse] produces, and [undefined] for an absent
    field. Numbers are the integers (a JSON number with a fraction or an
    exponent is outside the model). *)
#[warnings="-register-all"]
Inductive jsval : Type :=
| JUndefined
| JNull
| JBool (b : bool)
| JNum (z : Z)
| JStr (s : string)
| JArr (items : list jsval)
| JObj (fields : list (string * jsval)).

(** An object whose fields are read, copied, deleted and assigned. *)
Abbreviation obj := (gmap string jsval).

(** [o.f]: the field's value, [undefined] when the field is absent. *)
Definition get (o : obj) (f : string) : jsval := default JUndefined (o !! f).

(** [a === b]. Two arrays or objects are never the same reference here:
    every object of a parsed document is a fresh one. *)
Definition strict_eq (a b : jsval) : bool :=
  match a, b with
  | JUndefined, JUndefined => true
  | JNull, JNull => true
  | JBool x, JBool y => Bool.eqb x y
  | JNum x, JNum y => Z.eqb x y
  | JStr x, JStr y => String.eqb x y
  | _, _ => false
  end.

(** The condition of [if (v)] and the operand of [!v]. *)
Definition truthy (v : jsval) : bool :=
  match v with
  | JUndefined | JNull => false
  | JBool b => b
  | JNum z => negb (Z.eqb z 0)
  | JStr s => negb (String.eqb s "")
  | JArr _ | JObj _ => true
  end.

Definition string_of_Z (z : Z) : string :=
  match z with
  | Z0 => "0"
  | Zpos p => NilEmpty.string_of_uint (Pos.to_uint p)
  | Zneg p => "-" +:+ NilEmpty.string_of_uint (Pos.to_uint p)
  end.

(** [`${v}`], the string conversion of a template literal. *)
Fixpoint to_string (v : jsval) : string :=
  match v with
  | JUndefined => "undefined"
  | JNull => "null"
  | JBool true => "true"
  | JBool false => "false"
  | JNum z => string_of_Z z
  | JStr s => s
  | JArr items =>
      String.concat ","
        (map (fun i => match i with
                       | JUndefined | JNull => ""
                       | _ => to_string i
                       end) items)
  | JObj _ => "[object Object]"
  end.

(** [s.split(c)] for a one-character separator: the pieces between the
    separators, never an empty array. *)
Fixpoint split (sep : ascii) (s : string) : list string :=
  match s with
  | EmptyString => [""]
  | String c rest =>
      if Ascii.eqb c sep then "" :: split sep rest
      else match split sep rest with
           | piece :: pieces => String c piece :: pieces
           | [] => [String c ""]
           end
  end.

(** [a[i]] of a string array: [undefined] out of range. *)
Definition at_index (a : list string) (i : nat) : jsval :=
  match nth_error a i with
  | Some s => JStr s
  | None => JUndefined
  end.

(** [a.join()] and [a.join(sep)] *)
Definition join (sep : string) (a : list string) : string := String.concat sep a.

(** [s.startsWith(p)] *)
Fixpoint startsWith (s p : string) {struct p} : bool :=
  match p with
  | EmptyString => true
  | String a p' =>
      match s with
      | EmptyString => false
      | String b s' => Ascii.eqb a b && startsWith s' p'
      end
  end.

(** ** Exceptions, the world and the monad *)

Inductive exn : Type :=
| SyntaxError (msg : string)
| TypeError (msg : string)
| RangeError (msg : string)
| Error (msg : string).

(** The local file system and the console. [dirs] lists the directories
    made, [files] the files written, newest first. *)
Record World : Type := mkWorld {
  dirs : list string;
  files : list (string * string);
  console : list string
}.

Definition emptyWorld : World := mkWorld [] [] [].

Inductive Res (S A : Type) : Type :=
| Ok (a : A) (s : S)
| Throw (e : exn) (s : S).
Arguments Ok {S A} a s.
Arguments Throw {S A} e s.

Definition M (S A : Type) : Type := S -> Res S A.

Definition ret {S A} (a : A) : M S A := fun s => Ok a s.

Definition bind {S A B} (m : M S A) (k : A -> M S B) : M S B :=
  fun s => match m s with
           | Ok a s' => k a s'
           | Throw e s' => Throw e s'
           end.

Definition throw {S A} (e : exn) : M S A := fun s => Throw e s.

(** A call that may throw without touching the state. *)
Definition lift {S A} (r : exn + A) : M S A :=
  match r with
  | inl e => throw e
  | inr a => ret a
  end.

Notation "x <- m ;; k" := (bind m (fun x => k))
  (at level 62, m at next level, right associativity).
Notation "m ;;; k" := (bind m (fun _ => k))
  (at level 62, right associativity).

(** [l.forEach(f)] *)
Fixpoint forEach {S A} (l : list A) (f : A -> M S unit) : M S unit :=
  match l with
  | [] => ret tt
  | x :: l' => f x ;;; forEach l' f
  end.

(** A loop whose body updates an object it was handed: the object is
    threaded through the iterations. *)
Fixpoint forEachAcc {S A B} (l : list A) (f : A -> B -> M S B) (acc : B) : M S B :=
  match l with
  | [] => ret acc
  | x :: l' => acc' <- f x acc ;; forEachAcc l' f acc'
  end.

(** The state in which a run ended, by return or by exception. *)
Definition final {S A} (r : Res S A) : S :=
  match r with
  | Ok _ s => s
  | Throw _ s => s
  end.

(** A promise whose rejection is kept as a value: the promises beside
    it go on. *)
Definition attempt {S A} (m : M S A) : M S (exn + A) :=
  fun s => match m s with
           | Ok a s' => Ok (inr a) s'
           | Throw e s' => Ok (inl e) s'
           end.

(** Asynchronous calls issued together: each is answered in its turn,
    in the order of the list, whatever the others answer. *)
Fixpoint allSettled {S A B} (l : list A) (f : A -> M S B) : M S (list (exn + B)) :=
  match l with
  | [] => ret []
  | x :: l' => r <- attempt (f x) ;; rs <- allSettled l' f ;; ret (r :: rs)
  end.

(** The first rejection among the answers. *)
Fixpoint firstRejection {B} (rs : list (exn + B)) : option exn :=
  match rs with
  | [] => None
  | inl e :: _ => Some e
  | inr _ :: rs' => firstRejection rs'
  end.

(** *** Node's [fs] and [console] *)

Definition existsSync (p : string) : M World bool :=
  fun w => Ok (bool_decide (p ∈ dirs w) || bool_decide (p ∈ map fst (files w))) w.

(** [mkdirSync(p, {recursive: true})] *)
Definition mkdirSync (p : string) : M World unit :=
  fun w => Ok tt (mkWorld (if bool_decide (p ∈ dirs w) then dirs w else p :: dirs w)
                          (files w) (console w)).

Definition writeFileSync (p content : string) : M World unit :=
  fun w => Ok tt (mkWorld (dirs w) ((p, content) :: files w) (console w)).

Definition console_log (msg : string) : M World unit :=
  fun w => Ok tt (mkWorld (dirs w) (files w) (console w ++ [msg])).

(** The world after one more line on the console. *)
Definition logged (msg : string) (w : World) : World :=
  mkWorld (dirs w) (files w) (console w ++ [msg]).

(** Modelled from the spec: [writeFileSafe] of [shared/utils/common.utils]
    is not among the sources; "writing a file must create its parent
    directory first", directory creation being create-if-absent. *)
Definition writeFileSafe (dir fileName content : string) : M World unit :=
  mkdirSync dir ;;; writeFileSync (dir +:+ "/" +:+ fileName) content.

(** The content of the file at [p], if one was written. *)
Definition readFile (w : World) (p : string) : option string :=
  snd <$> find (fun f => String.eqb (fst f) p) (files w).

(** ** The data model of [shared/types] *)

(** [UiElement]: [script], [styles] and [template] are optional base64
    texts, [children] the nested elements. *)
#[warnings="-register-all"]
Inductive UiElement : Type :=
| mkUiElement (script styles template : option string) (children : list UiElement).

Definition el_script (el : UiElement) : option string :=
  match el with mkUiElement s _ _ _ => s end.
Definition el_styles (el : UiElement) : option string :=
  match el with mkUiElement _ s _ _ => s end.
Definition el_template (el : UiElement) : option string :=
  match el with mkUiElement _ _ t _ => t end.
Definition el_children (el : UiElement) : list UiElement :=
  match el with mkUiElement _ _ _ c => c end.

(** An optional string as a value: [undefined] when absent. *)
Definition opt_val (o : option string) : jsval :=
  match o with
  | Some s => JStr s
  | None => JUndefined
  end.

(** One entry of a UI-definitions document. [ui_fields] holds [name] and
    the other plain attributes; the three collections are absent when
    the entry does not expose them. A [LegacySection] and a [Tab] are
    plain objects. *)
Record UiDef : Type := mkUiDef {
  ui_fields : obj;
  ui_tabs : option (list obj);
  ui_sections : option (list obj);
  ui_children : option (list UiElement)
}.

(** [{...ui, sections: v}] *)
Definition with_sections (ui : UiDef) (v : list obj) : UiDef :=
  mkUiDef (ui_fields ui) (ui_tabs ui) (Some v) (ui_children ui).

(** [UiMetadata]: the definition without [children], and the names. *)
Record UiMetadata : Type := mkUiMetadata {
  um_rest : UiDef;
  um_children : list jsval
}.

Record UiElementMetadata : Type := mkUiElementMetadata {
  md_name : jsval
}.

Record ProductModel : Type := mkProductModel {
  Id : string;
  Name : string;
  VELOCPQ__ContentId__c : string;
  VELOCPQ__UiDefinitionsId__c : string
}.

(** What [JSON.parse] makes of a document that is valid JSON. *)
Inductive parsed : Type :=
| ParsedNull
| ParsedArray (uiDefs : list UiDef)
| ParsedOther.

(** ** What the sources import and do not define *)

(** [shared/utils/ui.utils]. A helper either returns or throws. *)
Class UiUtils : Type := {
  fromBase64 : jsval -> exn + string;
  extractElementMetadata : string -> exn + UiElementMetadata;
  isLegacyDefinition : UiDef -> exn + bool
}.

(** [JSON.parse], and [JSON.stringify] at the types it is called on. *)
Class Json : Type := {
  JSON_parse : string -> exn + parsed;
  stringify_value : jsval -> string;
  stringify_metadata : UiMetadata -> string;
  stringify_uiDefs : list UiDef -> string
}.

(** [node:zlib] *)
Class Zlib : Type := {
  gzipSync : list ascii -> list ascii;
  gunzipSync : list ascii -> exn + list ascii
}.

Definition newline : string := String (ascii_of_nat 10) "".

(** A [Set<string>]: insertion order, no duplicates. *)
Definition set_add (x : string) (s : list string) : list string :=
  if bool_decide (x ∈ s) then s else s ++ [x].

(** ** The tree serializer (the library entry point and the CLI command
    carry the same text of these five functions) *)

Section Serializer.
Context `{UiUtils} `{Json}.

Definition saveLegacySectionFiles (section : obj) (dir : string) (metadata : UiDef)
  : M World UiDef :=
  let sectionMeta := section in
  sectionMeta <-
    (if truthy (get section "script") then
       let fileName := to_string (get section "label") +:+ ".js" in
       content <- lift (fromBase64 (get section "script")) ;;
       writeFileSafe dir fileName content ;;;
       ret (<["scriptUrl" := JStr (dir +:+ "/" +:+ fileName)]> (delete "script" sectionMeta))
     else ret sectionMeta) ;;
  sectionMeta <-
    (if truthy (get section "styles") then
       let fileName := to_string (get section "label") +:+ ".css" in
       content <- lift (fromBase64 (get section "styles")) ;;
       writeFileSafe dir fileName content ;;;
       ret (<["scriptUrl" := JStr (dir +:+ "/" +:+ fileName)]> (delete "styles" sectionMeta))
     else ret sectionMeta) ;;
  sectionMeta <-
    (if truthy (get section "template") then
       let fileName := to_string (get section "label") +:+ ".html" in
       content <- lift (fromBase64 (get section "template")) ;;
       writeFileSafe dir fileName content ;;;
       ret (<["templateUrl" := JStr (dir +:+ "/" +:+ fileName)]> (delete "template" sectionMeta))
     else ret sectionMeta) ;;
  sectionMeta <-
    (if truthy (get section "properties") then
       let fileName := to_string (get section "label") +:+ ".json" in
       writeFileSafe dir fileName (stringify_value (get section "properties")) ;;;
       ret (<["propertiesUrl" := JStr (dir +:+ "/" +:+ fileName)]> (delete "properties" sectionMeta))
     else ret sectionMeta) ;;
  match ui_sections metadata with
  | Some sections => ret (with_sections metadata (sections ++ [sectionMeta]))
  | None => throw (TypeError "Cannot read properties of undefined (reading 'push')")
  end.

(** One call of [saveLegacySectionFiles], by section and directory. *)
Definition visit (v : obj * string) (metadata : UiDef) : M World UiDef :=
  saveLegacySectionFiles (fst v) (snd v) metadata.

(** [fuel] is the depth of call stack left: the recursion on [parentId]
    is not structural, and JavaScript ends a recursion that does not
    stop with a [RangeError]. *)
Fixpoint saveLegacySections (fuel : nat) (sections : list obj) (path : string)
    (metadata : UiDef) (parentId : jsval) : M World UiDef :=
  match fuel with
  | O => throw (RangeError "Maximum call stack size exceeded")
  | S fuel' =>
      let firstChildren :=
        List.filter (fun s => strict_eq (get s "parentId") parentId) sections in
      forEachAcc firstChildren (fun c metadata =>
        let childPath := path +:+ "/" +:+ to_string (get c "label") in
        metadata <- saveLegacySectionFiles c childPath metadata ;;
        saveLegacySections fuel' sections childPath metadata (get c "id")) metadata
  end.

Definition saveLegacyUiDefinition (fuel : nat) (ui : UiDef) (path : string)
    (metadataArray : list UiDef) : M World (list UiDef) :=
  let legacyMetadata := with_sections ui [] in
  match ui_tabs ui with
  | None => throw (TypeError "Cannot read properties of undefined (reading 'forEach')")
  | Some tabs =>
      legacyMetadata <-
        forEachAcc tabs (fun tab legacyMetadata =>
          let tabPath := path +:+ "/" +:+ to_string (get tab "name") in
          match ui_sections ui with
          | None => throw (TypeError "Cannot read properties of undefined (reading 'filter')")
          | Some sections =>
              let tabSections :=
                List.filter (fun section => strict_eq (get section "page") (get tab "id"))
                            sections in
              saveLegacySections fuel tabSections tabPath legacyMetadata JUndefined
          end) legacyMetadata ;;
      ret (metadataArray ++ [legacyMetadata])
  end.

Fixpoint saveElement (el : UiElement) (path : string) : M World jsval :=
  let script :=
    if truthy (opt_val (el_script el)) then fromBase64 (opt_val (el_script el))
    else inr (default "" (el_script el)) in
  script <- lift script ;;
  if negb (truthy (JStr script)) then ret JUndefined
  else
    md <- lift (extractElementMetadata script) ;;
    let elName := md_name md in
    let elDir := path +:+ "/" +:+ to_string elName in
    present <- existsSync elDir ;;
    (if negb present then mkdirSync elDir else ret tt) ;;;
    writeFileSafe elDir "script.ts" script ;;;
    (if truthy (opt_val (el_styles el)) then
       content <- lift (fromBase64 (opt_val (el_styles el))) ;;
       writeFileSafe elDir "styles.css" content
     else ret tt) ;;;
    (if truthy (opt_val (el_template el)) then
       content <- lift (fromBase64 (opt_val (el_template el))) ;;
       writeFileSafe elDir "template.html" content
     else ret tt) ;;;
    (fix each (cs : list UiElement) : M World unit :=
       match cs with
       | [] => ret tt
       | c :: cs' => saveElement c elDir ;;; each cs'
       end) (el_children el) ;;;
    ret elName.

Definition saveUiDefinition (ui : UiDef) (path : string) : M World unit :=
  match ui_children ui with
  | None => throw (TypeError "Cannot read properties of undefined (reading 'reduce')")
  | Some children =>
      let rest := mkUiDef (ui_fields ui) (ui_tabs ui) (ui_sections ui) None in
      childrenNames <-
        forEachAcc children (fun child acc =>
          elName <- saveElement child path ;;
          ret (if truthy elName then acc ++ [elName] else acc)) [] ;;
      let metadata := mkUiMetadata rest childrenNames in
      writeFileSafe path "metadata.json" (stringify_metadata metadata +:+ newline)
  end.

End Serializer.

(** ** The content transport codec *)

Section Codec.
Context `{Zlib}.

(** [pushUI], the body of a document: gzip, then base64 twice. *)
Definition encodeBody (output : string) : string :=
  let gzipped := gzipSync (list_ascii_of_string output) in
  Base64.encode (list_ascii_of_string (Base64.encode gzipped)).

(** [Pull.getDocumentAttachmentContent], from the response on:
    [Buffer.from(res.toString(), 'base64')], then [gunzipSync]. *)
Definition decodeContent (res : string) : exn + string :=
  let gzipped := Base64.decode res in
  match gunzipSync gzipped with
  | inl e => inl e
  | inr plain => inr (string_of_list_ascii plain)
  end.

End Codec.

(** Modelled from the spec: the remote store is not among the sources;
    "the remote transport layer automatically reverses one layer of
    encoding on read". *)
Definition transportRead (body : string) : string :=
  string_of_list_ascii (Base64.decode body).

(** ** The pull orchestrators *)

(** The remote calls of [pullUI] ([productModel.utils], [document.utils]). *)
Class PullRemote : Type := {
  fetchProductModels : bool -> option (list string) -> exn + list ProductModel;
  fetchDocumentAttachment : string -> exn + string
}.

Record UiReturn : Type := mkUiReturn {
  uiRecords : list ProductModel;
  uiPmsToDump : list string
}.

(** [Promise.all(l.map(f))], the calls in the order of the list. *)
Fixpoint promiseAll {S A B} (l : list A) (f : A -> M S B) : M S (list B) :=
  match l with
  | [] => ret []
  | x :: l' => y <- f x ;; ys <- promiseAll l' f ;; ret (y :: ys)
  end.

(** *** An object literal read and written under a computed key *)

(** The members of [Object.prototype], which every object literal
    inherits. *)
Definition objectPrototypeKeys : list string :=
  ["constructor"; "hasOwnProperty"; "isPrototypeOf"; "propertyIsEnumerable";
   "toLocaleString"; "toString"; "valueOf"; "__proto__"; "__defineGetter__";
   "__defineSetter__"; "__lookupGetter__"; "__lookupSetter__"].

(** [o[k]] for a key [k] that is not a constant of the program: the own
    field when there is one, else the member of [Object.prototype] of
    that name, else [undefined]. A member of the prototype is a
    function, or the prototype itself for [__proto__]: written
    [JObj []], it is truthy and strictly equal to no other value. *)
Definition getProp (o : obj) (k : string) : jsval :=
  match o !! k with
  | Some v => v
  | None => if bool_decide (k ∈ objectPrototypeKeys) then JObj [] else JUndefined
  end.

(** [o[k] = v] for [v] a string or [undefined]: an own field is set,
    also over a member of the prototype, except under [__proto__], whose
    setter ignores a value that is neither an object nor [null]. *)
Definition assignProp (o : obj) (k : string) (v : jsval) : obj :=
  if String.eqb k "__proto__" then o else <[k := v]> o.

Section PullUI.
Context `{UiUtils} `{Json} `{PullRemote}.

(** [uiDefNamesMap]: the reduce over [Array.from(uisToDump)]. A piece
    [split] does not produce is [undefined]; the first always exists. *)
Definition uiDefNamesMap (uisToDump : list string) : obj :=
  fold_left (fun acc ui =>
               let parts := split ":" ui in
               let modelName := to_string (at_index parts 0) in
               let defName := at_index parts 1 in
               assignProp acc modelName defName)
            uisToDump ∅.

(** [includeUiName] of [pullUI] *)
Definition includeUiName_pullUI (dumpAll : bool) (uiDefNamesMap : obj)
    (Name : string) (ui : UiDef) : bool :=
  dumpAll || negb (truthy (getProp uiDefNamesMap Name))
  || strict_eq (getProp uiDefNamesMap Name) (get (ui_fields ui) "name").

(** The body of [uiDefs?.forEach], shared text of both pull paths from
    [uiDir] on. *)
Definition saveUi (fuel : nat) (path : string) (ui : UiDef)
    (legacyMetadataArray : list UiDef) : M World (list UiDef) :=
  let uiDir := path +:+ "/" +:+ to_string (get (ui_fields ui) "name") in
  legacy <- lift (isLegacyDefinition ui) ;;
  if legacy : bool then saveLegacyUiDefinition fuel ui uiDir legacyMetadataArray
  else saveUiDefinition ui uiDir ;;; ret legacyMetadataArray.

(** The body of [contents.forEach] in [pullUI]. *)
Definition pullRecord (fuel : nat) (sourcepath : string) (dumpAll : bool)
    (uiDefNamesMap : obj) (entry : ProductModel * string)
    (uiPmsToDump : list string) : M World (list string) :=
  let Name := Name (fst entry) in
  let content := snd entry in
  match JSON_parse content with
  | inl _ =>
      console_log ("Failed to parse document content: " +:+ Name) ;;;
      ret uiPmsToDump
  | inr uiDefs =>
      let path := sourcepath +:+ "/" +:+ Name in
      legacyMetadataArray <-
        match uiDefs with
        | ParsedNull => ret []
        | ParsedOther => throw (TypeError "uiDefs.forEach is not a function")
        | ParsedArray uiDefs =>
            forEachAcc uiDefs (fun ui legacyMetadataArray =>
              let includeUiName := includeUiName_pullUI dumpAll uiDefNamesMap Name ui in
              if negb includeUiName then ret legacyMetadataArray
              else saveUi fuel path ui legacyMetadataArray) []
        end ;;
      (if negb (Nat.eqb (length legacyMetadataArray) 0) then
         writeFileSafe path "metadata.json" (stringify_uiDefs legacyMetadataArray)
       else ret tt) ;;;
      ret (set_add Name uiPmsToDump)
  end.

Definition pullUI (fuel : nat) (sourcepath : string) (dumpAll : bool)
    (uisToDump : list string) : M World UiReturn :=
  let modelNames :=
    if dumpAll then None
    else Some (map (fun ui => to_string (at_index (split ":" ui) 0)) uisToDump) in
  uiDefProductModels <- lift (fetchProductModels dumpAll modelNames) ;;
  let uiDefNamesMap := uiDefNamesMap uisToDump in
  contents <-
    promiseAll uiDefProductModels (fun productModel =>
      content <- lift (fetchDocumentAttachment (VELOCPQ__UiDefinitionsId__c productModel)) ;;
      ret (productModel, content)) ;;
  uiPmsToDump <-
    forEachAcc contents (pullRecord fuel sourcepath dumpAll uiDefNamesMap) [] ;;
  ret (mkUiReturn uiDefProductModels uiPmsToDump).

End PullUI.

(** The remote calls of the CLI command: [conn.query] for the body URL
    of a document ([None]: no such record) and [conn.request]. *)
Class Connection : Type := {
  queryDocumentBody : string -> exn + option string;
  request : string -> exn + string
}.

Section PullCommand.
Context `{UiUtils} `{Json} `{Zlib} `{Connection}.

(** [flags_members] is [this.flags.members]; [Member_ui] is [Member.ui]
    of [shared/types/pull.types], which is not among the sources. *)
Variable flags_members : option string.
Variable Member_ui : string.

Definition getMembersByTypes (memberTypes : list string) : list (list string) :=
  let members := if truthy (opt_val flags_members) then default "" flags_members else "" in
  List.filter (fun member =>
                 existsb (fun t => strict_eq (JStr t) (at_index member 0)) memberTypes)
              (map (fun member => split ":" member) (split "," members)).

Definition getMembersModelNames (memberTypes : list string) : list jsval :=
  map (fun member => at_index member 1) (getMembersByTypes memberTypes).

Definition filterProductModelsByMember (memberType : string)
    (productModels : list ProductModel) : list ProductModel :=
  let modelNames := getMembersModelNames [memberType] in
  List.filter (fun pm => existsb (fun n => strict_eq n (JStr (Name pm))) modelNames)
              productModels.

Definition getDocumentAttachmentUrl (documentId : string) : M World string :=
  console_log ("Dumping Document with id: " +:+ documentId) ;;;
  record <- lift (queryDocumentBody documentId) ;;
  match record with
  | None => throw (Error ("Document not found: " +:+ documentId))
  | Some body => ret body
  end.

Definition getDocumentAttachmentContent (url : string) : M World string :=
  console_log ("Dumping Attachment with url: " +:+ url) ;;;
  res <- lift (request url) ;;
  lift (decodeContent res).

Definition getDocumentAttachment (documentId : string) : M World string :=
  url <- getDocumentAttachmentUrl documentId ;;
  if truthy (JStr url) then getDocumentAttachmentContent url
  else ret "".

(** [includeUiName] of [Pull.fetchUiDefinitions] *)
Definition includeUiName_Pull (uiDefMembers : list (list string))
    (Name : string) (ui : UiDef) : bool :=
  negb (truthy (opt_val flags_members))
  || existsb (fun member =>
                let uiDefName := at_index member 2 in
                negb (truthy uiDefName) || strict_eq uiDefName (get (ui_fields ui) "name"))
       (List.filter (fun member => strict_eq (at_index member 1) (JStr Name)) uiDefMembers).

(** The body of [contents.forEach] in [Pull.fetchUiDefinitions]. *)
Definition fetchRecord (fuel : nat) (sourcepath : string)
    (uiDefMembers : list (list string)) (entry : ProductModel * string) : M World unit :=
  let Name := Name (fst entry) in
  let content := snd entry in
  match JSON_parse content with
  | inl _ => console_log ("Failed to parse document content: " +:+ Name)
  | inr uiDefs =>
      let path := sourcepath +:+ "/" +:+ Name in
      legacyMetadataArray <-
        match uiDefs with
        | ParsedNull => ret []
        | ParsedOther => throw (TypeError "uiDefs.forEach is not a function")
        | ParsedArray uiDefs =>
            forEachAcc uiDefs (fun ui legacyMetadataArray =>
              let includeUiName := includeUiName_Pull uiDefMembers Name ui in
              if negb includeUiName then ret legacyMetadataArray
              else saveUi fuel path ui legacyMetadataArray) []
        end ;;
      if negb (Nat.eqb (length legacyMetadataArray) 0) then
        writeFileSafe path "metadata.json" (stringify_uiDefs legacyMetadataArray)
      else ret tt
  end.

Definition fetchUiDefinitions (fuel : nat) (sourcepath : string)
    (productModels : list ProductModel) : M World unit :=
  let uiDefMembers := getMembersByTypes [Member_ui] in
  let productModelsUiDef :=
    if truthy (opt_val flags_members)
    then filterProductModelsByMember Member_ui productModels
    else productModels in
  contents <-
    promiseAll productModelsUiDef (fun productModel =>
      content <- getDocumentAttachment (VELOCPQ__UiDefinitionsId__c productModel) ;;
      ret (productModel, content)) ;;
  forEach contents (fetchRecord fuel sourcepath uiDefMembers).

End PullCommand.

(** ** The push orchestrator *)

Record Folder : Type := mkFolder { Folder_Id : string }.
Record SaveResult : Type := mkSaveResult { id : string }.
Record Document : Type := mkDocument { Document_Id : string }.

Record DocumentBody : Type := mkDocumentBody {
  folderId : jsval;
  body : string;
  name : string
}.

(** The remote calls of [pushUI] ([productModel.utils], [folder.utils],
    [document.utils]) over the state [Store] of the remote store. *)
Class PushRemote (Store : Type) : Type := {
  fetchProductModelsByName : bool -> list string -> M Store (list ProductModel);
  fetchFolder : string -> M Store (option Folder);
  createFolder : string -> M Store (option SaveResult);
  fetchDocument : string -> M Store (option Document);
  updateDocument : string -> DocumentBody -> M Store unit;
  createDocument : DocumentBody -> M Store unit
}.

(** [new UiDefinitionsBuilder(sourcepath, Name).pack()] of [ui.utils]. *)
Class UiDefinitionsBuilder : Type := {
  pack : string -> string -> exn + list UiDef
}.

Record PushReturn : Type := mkPushReturn {
  push_uiRecords : list string;
  uiPmsToUpload : list string
}.

Definition FOLDER_NAME : string := "velo_product_models".

Section PushUI.
Context {Store : Type} `{PushRemote Store} `{UiDefinitionsBuilder} `{Json} `{Zlib}.

(** The callback of [productModels.map] up to [documentBody]: [pack]
    may throw, the rest returns. *)
Definition documentBodyOf (sourcepath : string) (folderId : jsval)
    (pm : ProductModel) : exn + (ProductModel * DocumentBody) :=
  match pack sourcepath (Name pm) with
  | inl e => inl e
  | inr uiDefinitions =>
      let output := stringify_uiDefs uiDefinitions in
      let b64Data := encodeBody output in
      inr (pm, mkDocumentBody folderId b64Data (Name pm))
  end.

(** [productModels.map(callback)]: the callback runs for one record
    after the other, each time up to its call of [fetchDocument]. A
    [pack] that throws ends the map there: the records before it have
    their lookup under way, those after it are not reached. *)
Fixpoint mapped (sourcepath : string) (folderId : jsval) (pms : list ProductModel)
  : list (ProductModel * DocumentBody) * option exn :=
  match pms with
  | [] => ([], None)
  | pm :: rest =>
      match documentBodyOf sourcepath folderId pm with
      | inl e => ([], Some e)
      | inr entry =>
          let '(entries, thrown) := mapped sourcepath folderId rest in
          (entry :: entries, thrown)
      end
  end.


(** [.then(document => document?.Id ? updateDocument(...) :
    createDocument(...))] for one record, by the answer to its lookup;
    after a rejected lookup the callback does not run. *)
Definition upsertDocument
    (entry : (ProductModel * DocumentBody) * (exn + option Document)) : M Store unit :=
  let documentBody := snd (fst entry) in
  match snd entry with
  | inl _ => ret tt
  | inr (Some d) =>
      if truthy (JStr (Document_Id d)) then updateDocument (Document_Id d) documentBody
      else createDocument documentBody
  | inr None => createDocument documentBody
  end.

(** [(await fetchFolder(...))?.Id], then [createFolder] when that is
    falsy. *)
Definition resolveFolder : M Store jsval :=
  folder <- fetchFolder FOLDER_NAME ;;
  let folderId := match folder with
                  | Some f => JStr (Folder_Id f)
                  | None => JUndefined
                  end in
  if negb (truthy folderId) then
    created <- createFolder FOLDER_NAME ;;
    ret (match created with
         | Some r => JStr (id r)
         | None => JUndefined
         end)
  else ret folderId.

(** The console output of [pushUI] is left out. The store answers the
    calls in the order in which they are issued: the map callback
    issues the lookup of every record before any answer arrives, so
    every lookup comes before every update and creation, and these
    follow in the order of the records. A rejected call does not stop
    the calls of the other records. The run ends with the exception of
    [pack] or else with the first rejection, and the state is that of
    the store once every call issued has been answered. *)
Definition pushUI (sourcepath : string) (pushAll : bool) (uisToUpload : list string)
  : M Store PushReturn :=
  let modelNames := uisToUpload in
  productModels <- fetchProductModelsByName pushAll modelNames ;;
  folderId <- resolveFolder ;;
  let '(entries, thrown) := mapped sourcepath folderId productModels in
  documents <-
    allSettled entries (fun entry =>
      fetchDocument (VELOCPQ__UiDefinitionsId__c (fst entry))) ;;
  outcomes <- allSettled (combine entries documents) upsertDocument ;;
  match thrown, firstRejection documents, firstRejection outcomes with
  | Some e, _, _ => throw e
  | None, Some e, _ => throw e
  | None, None, Some e => throw e
  | None, None, None => ret (mkPushReturn [] [])
  end.

End PushUI.

(** ** Instances to run the definitions on *)

(** A [zlib] that stores without compressing. *)
Definition storeZlib : Zlib :=
  {| gzipSync := fun b => b; gunzipSync := fun b => inr b |}.

(** ** The layout of the legacy sections *)

(** The calls [saveLegacySectionFiles(c, childPath, ...)] that
    [saveLegacySections] makes, in order; [None] when the call stack
    runs out. *)
Fixpoint legacyVisits (fuel : nat) (sections : list obj) (path : string)
    (parentId : jsval) : option (list (obj * string)) :=
  match fuel with
  | O => None
  | S fuel' =>
      let firstChildren :=
        List.filter (fun s => strict_eq (get s "parentId") parentId) sections in
      (fix each (cs : list obj) : option (list (obj * string)) :=
         match cs with
         | [] => Some []
         | c :: cs' =>
             let childPath := path +:+ "/" +:+ to_string (get c "label") in
             match legacyVisits fuel' sections childPath (get c "id"), each cs' with
             | Some below, Some others => Some ((c, childPath) :: below ++ others)
             | _, _ => None
             end
         end) firstChildren
  end.

(** [reach sections parentId path c p]: in the tree that hangs the
    sections whose [parentId] is [parentId] under [path], and under
    each section those whose [parentId] is its [id], section [c] sits
    at directory [p]. *)
Inductive reach (sections : list obj) : jsval -> string -> obj -> string -> Prop :=
| reach_child parentId path c :
    In c sections ->
    strict_eq (get c "parentId") parentId = true ->
    reach sections parentId path c (path +:+ "/" +:+ to_string (get c "label"))
| reach_below parentId path c d p :
    In c sections ->
    strict_eq (get c "parentId") parentId = true ->
    reach sections (get c "id") (path +:+ "/" +:+ to_string (get c "label")) d p ->
    reach sections parentId path d p.

(** The sections of the design document's example, first as written
    there, with [parentId: null] at the root, then with the root's
    [parentId] left out. *)
Definition sectionA_null : obj :=
  <["id" := JNum 1]> (<["parentId" := JNull]> (<["label" := JStr "A"]> ∅)).
Definition sectionA : obj :=
  <["id" := JNum 1]> (<["label" := JStr "A"]> ∅).
Definition sectionB : obj :=
  <["id" := JNum 2]> (<["parentId" := JNum 1]> (<["label" := JStr "B"]> ∅)).
Definition sectionC : obj :=
  <["id" := JNum 3]> (<["parentId" := JNum 2]> (<["label" := JStr "C"]> ∅)).

(** A rank that falls from parent to child in the example. *)
Definition exampleRank (c : obj) : nat :=
  match get c "id" with
  | JNum z => Z.to_nat (3 - z)
  | _ => 0
  end.

(** [ui.utils] for the examples: base64 is the identity on strings, the
    name of an element is the text of its script before the first [:],
    and the detector follows the design document: legacy when [tabs] and
    [sections] are exposed, modern when [children] is, an error
    otherwise. *)
Definition plainUtils : UiUtils :=
  {| fromBase64 := fun v =>
       match v with
       | JStr s => inr s
       | _ => inl (TypeError "The first argument must be of type string")
       end;
     extractElementMetadata := fun script =>
       inr (mkUiElementMetadata
              match split ":" script with
              | n :: _ :: _ => JStr n
              | _ => JUndefined
              end);
     isLegacyDefinition := fun ui =>
       match ui_tabs ui, ui_sections ui, ui_children ui with
       | Some _, Some _, _ => inr true
       | _, _, Some _ => inr false
       | _, _, _ => inl (Error "unrecognized definition shape")
       end |}.

(** Documents for the examples. *)
Definition buttonElement : UiElement :=
  mkUiElement (Some "Button:code") (Some "b{}") None [].
Definition unnamedElement : UiElement :=
  mkUiElement (Some "no name here") None None [buttonElement].
Definition inputElement : UiElement :=
  mkUiElement (Some "Input:code") None None [].
Definition scriptlessElement : UiElement :=
  mkUiElement None (Some "s{}") None [buttonElement].

Definition formDef : UiDef :=
  mkUiDef (<["name" := JStr "Form"]> ∅) None None
          (Some [buttonElement; unnamedElement; inputElement]).
Definition quietDef : UiDef :=
  mkUiDef (<["name" := JStr "Quiet"]> ∅) None None
          (Some [scriptlessElement; inputElement]).
Definition shapelessDef : UiDef :=
  mkUiDef (<["name" := JStr "Odd"]> ∅) None None None.

(** [JSON] for the examples: three documents parse, every other text
    is a syntax error. *)
Definition plainJson : Json :=
  {| JSON_parse := fun content =>
       if String.eqb content "[Form]" then inr (ParsedArray [formDef])
       else if String.eqb content "[Quiet]" then inr (ParsedArray [quietDef])
       else if String.eqb content "[Odd,Form]" then inr (ParsedArray [shapelessDef; formDef])
       else inl (SyntaxError "Unexpected token in JSON");
     stringify_value := to_string;
     stringify_metadata := fun m => join "," (map to_string (um_children m));
     stringify_uiDefs := fun l => "[]" |}.

(** ** The metadata of a legacy section *)

(** One of the four [if] blocks of [saveLegacySectionFiles], by the
    inline field it tests, the URL field it sets, the extension of the
    file and the content it writes. *)
Definition blobStep (field urlField ext : string) (contentOf : jsval -> exn + string)
    (section : obj) (dir : string) (sectionMeta : obj) : M World obj :=
  if truthy (get section field) then
    let fileName := to_string (get section "label") +:+ ext in
    content <- lift (contentOf (get section field)) ;;
    writeFileSafe dir fileName content ;;;
    ret (<[urlField := JStr (dir +:+ "/" +:+ fileName)]> (delete field sectionMeta))
  else ret sectionMeta.

(** What the block does to [sectionMeta]. *)
Definition metaStep (field urlField ext : string) (section : obj) (dir : string)
    (sectionMeta : obj) : obj :=
  if truthy (get section field) then
    <[urlField := JStr (dir +:+ "/" +:+ to_string (get section "label") +:+ ext)]>
      (delete field sectionMeta)
  else sectionMeta.

(** The [sectionMeta] that [saveLegacySectionFiles] pushes. *)
Definition legacySectionMeta (section : obj) (dir : string) : obj :=
  metaStep "properties" "propertiesUrl" ".json" section dir
    (metaStep "template" "templateUrl" ".html" section dir
       (metaStep "styles" "scriptUrl" ".css" section dir
          (metaStep "script" "scriptUrl" ".js" section dir section))).

(** The path of the file a block writes. *)
Definition blobPath (section : obj) (dir ext : string) : string :=
  dir +:+ "/" +:+ to_string (get section "label") +:+ ext.

Definition inlineFields : list string := ["script"; "styles"; "template"; "properties"].
Definition urlFields : list string := ["scriptUrl"; "templateUrl"; "propertiesUrl"].

(** The inline fields with the extension of the file of each, in the
    order of the four blocks. *)
Definition inlineFiles : list (string * string) :=
  [("script", ".js"); ("styles", ".css"); ("template", ".html"); ("properties", ".json")].

(** The paths of the files of the truthy inline fields of a section, in
    the order of the blocks. *)
Definition blobPaths (section : obj) (dir : string) : list string :=
  map (fun fe => blobPath section dir (snd fe))
      (List.filter (fun fe => truthy (get section (fst fe))) inlineFiles).

(** Sections for the examples. *)
Definition emptyScriptSection : obj :=
  <["label" := JStr "A"]> (<["script" := JStr ""]> ∅).
Definition styledSection : obj :=
  <["label" := JStr "A"]> (<["script" := JStr "js"]> (<["styles" := JStr "css"]> ∅)).

(** Four records and their documents: the second document is not JSON,
    the fourth holds an entry without [tabs], [sections] and
    [children] before a well-formed one. *)
Definition recordM1 : ProductModel := mkProductModel "a01" "M1" "c1" "doc1".
Definition recordM2 : ProductModel := mkProductModel "a02" "M2" "c2" "doc2".
Definition recordM3 : ProductModel := mkProductModel "a03" "M3" "c3" "doc3".
Definition recordM4 : ProductModel := mkProductModel "a04" "M4" "c4" "doc4".

Definition demoRemote : PullRemote :=
  {| fetchProductModels := fun dumpAll modelNames =>
       inr (List.filter
              (fun pm => match modelNames with
                         | Some names => existsb (String.eqb (Name pm)) names
                         | None => true
                         end)
              [recordM1; recordM2; recordM3; recordM4]);
     fetchDocumentAttachment := fun documentId =>
       if String.eqb documentId "doc1" then inr "[Form]"
       else if String.eqb documentId "doc2" then inr "<html>"
       else if String.eqb documentId "doc3" then inr "[Quiet]"
       else if String.eqb documentId "doc4" then inr "[Odd,Form]"
       else inl (Error "Document not found") |}.

(** ** Runs that differ in the console only *)

Definition sameFs (w1 w2 : World) : Prop :=
  dirs w1 = dirs w2 /\ files w1 = files w2.

(** Two runs end alike: the same value or the same exception, and the
    same directories and files. *)
Definition sameRun {A} (r1 r2 : Res World A) : Prop :=
  match r1, r2 with
  | Ok a s, Ok b t => a = b /\ sameFs s t
  | Throw e s, Throw e' t => e = e' /\ sameFs s t
  | _, _ => False
  end.


(** ** The outcome of a pull *)

(** The names [pullUI] collects over [contents]: those of the records
    whose content [JSON.parse] accepts. *)
Definition parsedNames `{Json} (contents : list (ProductModel * string))
    (acc : list string) : list string :=
  fold_left (fun acc entry =>
               match JSON_parse (snd entry) with
               | inl _ => acc
               | inr _ => set_add (Name (fst entry)) acc
               end)
            contents acc.

(** ** A remote store to run [pushUI] on *)

Record DemoStore : Type := mkDemoStore {
  models : list ProductModel;
  folders : list (string * string);
  documents : list (string * DocumentBody)
}.

Definition demoPushRemote : PushRemote DemoStore :=
  {| fetchProductModelsByName := fun pushAll modelNames s =>
       Ok (List.filter (fun pm => pushAll || existsb (String.eqb (Name pm)) modelNames)
                       (models s)) s;
     fetchFolder := fun folderName s =>
       Ok (option_map (fun f => mkFolder (snd f))
             (find (fun f => String.eqb (fst f) folderName) (folders s))) s;
     createFolder := fun folderName s =>
       Ok (Some (mkSaveResult ("f-" +:+ folderName)))
          (mkDemoStore (models s) (folders s ++ [(folderName, "f-" +:+ folderName)])
                       (documents s));
     fetchDocument := fun documentId s =>
       Ok (option_map (fun d => mkDocument (fst d))
             (find (fun d => String.eqb (fst d) documentId) (documents s))) s;
     updateDocument := fun documentId documentBody s =>
       Ok tt (mkDemoStore (models s) (folders s)
                (map (fun d => if String.eqb (fst d) documentId
                               then (documentId, documentBody) else d)
                     (documents s)));
     createDocument := fun documentBody s =>
       Ok tt (mkDemoStore (models s) (folders s)
                (documents s ++ [("d-" +:+ name documentBody, documentBody)])) |}.

Definition demoBuilder : UiDefinitionsBuilder :=
  {| pack := fun sourcepath modelName => inr [formDef] |}.

(** [M1]'s document exists, [M3]'s does not; the folder is not there
    yet. *)
Definition demoStore : DemoStore :=
  mkDemoStore [recordM1; recordM3] []
              [("doc1", mkDocumentBody (JStr "f0") "old" "M1")].

Definition demoStoreWithFolder : DemoStore :=
  mkDemoStore [recordM1; recordM3] [("velo_product_models", "f-velo_product_models")]
              [("doc1", mkDocumentBody (JStr "f0") "old" "M1")].

(** ** The names of the elements *)

Section ElementNames.
Context `{UiUtils}.

(** [el.script && fromBase64(el.script)] *)
Definition decodedScript (el : UiElement) : exn + string :=
  if truthy (opt_val (el_script el)) then fromBase64 (opt_val (el_script el))
  else inr (default "" (el_script el)).

(** What [saveElement] returns for [el] when it returns. *)
Definition elementName (el : UiElement) : exn + jsval :=
  match decodedScript el with
  | inl e => inl e
  | inr script =>
      if negb (truthy (JStr script)) then inr JUndefined
      else match extractElementMetadata script with
           | inl e => inl e
           | inr md => inr (md_name md)
           end
  end.

(** The names [saveUiDefinition] collects: the truthy names of the
    immediate children, in order. *)
Definition childrenNames (children : list UiElement) : list jsval :=
  flat_map (fun child =>
              match elementName child with
              | inr elName => if truthy elName then [elName] else []
              | inl _ => []
              end) children.



End ElementNames.

(** ** What a legacy definition records *)

(** The metadata objects of a list of visits, in order. *)
Definition visitMetas (l : list (obj * string)) : list obj :=
  map (fun v => legacySectionMeta (fst v) (snd v)) l.

(** The sections of a tab and the directory of the tab, as
    [saveLegacyUiDefinition] computes them. *)
Definition tabSections (all : list obj) (tab : obj) : list obj :=
  List.filter (fun section => strict_eq (get section "page") (get tab "id")) all.

Definition tabPath (path : string) (tab : obj) : string :=
  path +:+ "/" +:+ to_string (get tab "name").

(** [fromBase64] returns on the truthy inline blobs of a section. *)
Definition blobsDecode `{UiUtils} (section : obj) : Prop :=
  forall f, In f ["script"; "styles"; "template"] ->
            truthy (get section f) = true ->
            exists s, fromBase64 (get section f) = inr s.

(** A root section without an [id]. *)
Definition idlessSection : obj := <["label" := JStr "A"]> ∅.

(** A definition with one tab and three sections, the third on a page
    that is no tab. *)
Definition pageTab : obj := <["id" := JNum 1]> (<["name" := JStr "Main"]> ∅).
Definition onPage (page : Z) (section : obj) : obj := <["page" := JNum page]> section.

(** ** More of the strings *)

(** [s] without its first [n] characters. *)
Fixpoint skip (n : nat) (s : string) : string :=
  match n, s with
  | O, _ => s
  | S n', String _ s' => skip n' s'
  | S _, EmptyString => EmptyString
  end.

(** [s.replace(pat, rep)] for a string pattern: the first occurrence
    only; [rep] holds no [$]. *)
Fixpoint replace (pat rep s : string) {struct s} : string :=
  if startsWith s pat then rep +:+ skip (String.length pat) s
  else match s with
       | EmptyString => EmptyString
       | String c s' => String c (replace pat rep s')
       end.

(** [s.includes(pat)] *)
Fixpoint includes (s pat : string) {struct s} : bool :=
  startsWith s pat
  || match s with
     | EmptyString => false
     | String _ s' => includes s' pat
     end.

(** No character of [s] is [sep]. *)
Fixpoint free_of (sep : ascii) (s : string) : bool :=
  match s with
  | EmptyString => true
  | String c s' => negb (Ascii.eqb c sep) && free_of sep s'
  end.

(** A name that is one segment of a path and names what it says: not
    empty, not [.] or [..], and without a slash. Paths that differ in
    such a segment lead to different places of the file system (taken
    to tell names apart by every character, and to have no links). *)
Definition plainSegment (n : string) : bool :=
  negb (String.eqb n "") && negb (String.eqb n ".") && negb (String.eqb n "..")
  && free_of "/" n.

(** [s.replace(/\/$/, '')]: one slash at the end of [s] is dropped. *)
Fixpoint trimLastSlash (s : string) : string :=
  match s with
  | EmptyString => EmptyString
  | String c EmptyString => if Ascii.eqb c "/" then EmptyString else s
  | String c s' => String c (trimLastSlash s')
  end.

(** [a.join(sep)] of an array that may hold [undefined]. *)
Definition joinValues (sep : string) (a : list jsval) : string :=
  String.concat sep
    (map (fun v => match v with
                   | JUndefined | JNull => ""
                   | _ => to_string v
                   end) a).

(** ** The rule transformation visitor
    ([grammar/src/visitor/ruleTransformation.visitor.ts]) *)

Module RuleTransformationVisitor.

Definition LEFT_BRACES : string := "{{".
Definition RIGHT_BRACES : string := "}}".

(** [RuleTransformation]: each field is [undefined] until it is set. *)
Record RuleTransformation : Type := mkRuleTransformation {
  resultPath : option string;
  expression : option string;
  javaScript : option string
}.

(** What [visit] reads of a [ParserRuleContext]: [children] holds the
    texts of the children and is absent for a node without any. *)
Record ParserRuleContext : Type := mkParserRuleContext {
  ruleIndex : nat;
  children : option (list string);
  text : string
}.

(** [ctx.children?.[i]?.text] *)
Definition childText (ctx : ParserRuleContext) (i : nat) : option string :=
  match children ctx with
  | Some cs => nth_error cs i
  | None => None
  end.

Section Visitor.
(** The rule indices of [RulesParser] and [ParseTreeVisitor.visit],
    which are not among the sources. *)
Variable RULE_transformationDeclaration RULE_script : nat.
Variable superVisit : ParserRuleContext -> RuleTransformation -> RuleTransformation.

Definition visit (ctx : ParserRuleContext) (transformation : RuleTransformation)
  : RuleTransformation :=
  if Nat.eqb (ruleIndex ctx) RULE_transformationDeclaration then
    let transformation :=
      mkRuleTransformation (childText ctx 0) (expression transformation)
                           (javaScript transformation) in
    let statement := childText ctx 2 in
    let transformation :=
      if negb (match statement with
               | Some s => startsWith s LEFT_BRACES
               | None => false
               end)
      then mkRuleTransformation (resultPath transformation) statement
                                (javaScript transformation)
      else transformation in
    superVisit ctx transformation
  else if Nat.eqb (ruleIndex ctx) RULE_script then
    let transformation :=
      mkRuleTransformation (resultPath transformation) (expression transformation)
        (Some (replace RIGHT_BRACES "" (replace LEFT_BRACES "" (text ctx)))) in
    superVisit ctx transformation
  else superVisit ctx transformation.

End Visitor.

End RuleTransformationVisitor.

(** ** The rest of the CLI command *)

(** The answer of [conn.query<ProductModel>]. *)
Record QueryResult : Type := mkQueryResult {
  totalSize : jsval;
  records : option (list ProductModel)
}.

Section PullCommandRun.
Context `{UiUtils} `{Json} `{Zlib} `{Connection}.

(** The flags, the members of [Member], the query of the product
    models and [JSON.stringify] of the five fields [fetchPml] writes. *)
Variable flags_members flags_sourcepath : option string.
Variable Member_pml Member_ui : string.
Variable queryProductModels : string -> exn + option QueryResult.
Variable stringify_pml : ProductModel -> string.

(** [this.sourcepath] as [run] sets it. *)
Definition sourcepathOf : string :=
  trimLastSlash (if truthy (opt_val flags_sourcepath) then default "" flags_sourcepath
                 else "source").

Definition productModelsQuery : string :=
  let modelNames := getMembersModelNames flags_members [Member_pml; Member_ui] in
  let query :=
    "Select Id,Name,VELOCPQ__ContentId__c,VELOCPQ__Version__c,VELOCPQ__ReferenceId__c,VELOCPQ__UiDefinitionsId__c from VELOCPQ__ProductModel__c" in
  if negb (Nat.eqb (length modelNames) 0)
  then query +:+ " WHERE Name IN ('" +:+ joinValues "','" modelNames +:+ "')"
  else query.

(** [Pull.fetchProductModels], with the connection the command
    requires. *)
Definition fetchProductModelsCli : M World (list ProductModel) :=
  let modelNames := getMembersModelNames flags_members [Member_pml; Member_ui] in
  console_log ("Dumping models with names: "
               +:+ (if negb (Nat.eqb (length modelNames) 0)
                    then joinValues "," modelNames else "All")) ;;;
  result <- lift (queryProductModels productModelsQuery) ;;
  console_log ("Product models result count: "
               +:+ to_string (match result with
                              | Some r => totalSize r
                              | None => JUndefined
                              end)) ;;;
  ret (match result with
       | Some r => default [] (records r)
       | None => []
       end).

(** The path of a file [fetchPml] writes for a record:
    [`${dir}/${Name}${ext}`] under [writeFileSafe]. *)
Definition pmlPath (sourcepath : string) (entry : ProductModel * string) (ext : string)
  : string :=
  (sourcepath +:+ "/" +:+ Name (fst entry)) +:+ "/" +:+ Name (fst entry) +:+ ext.

(** The body of [contents.forEach] in [fetchPml]. *)
Definition savePml (sourcepath : string) (entry : ProductModel * string) : M World unit :=
  let pmlJson := stringify_pml (fst entry) in
  let dir := sourcepath +:+ "/" +:+ Name (fst entry) in
  writeFileSafe dir (Name (fst entry) +:+ ".pml.json") pmlJson ;;;
  writeFileSafe dir (Name (fst entry) +:+ ".pml") (snd entry).

Definition fetchPml (sourcepath : string) (productModels : list ProductModel)
  : M World unit :=
  let productModelsPml :=
    if truthy (opt_val flags_members)
    then filterProductModelsByMember flags_members Member_pml productModels
    else productModels in
  contents <-
    promiseAll productModelsPml (fun productModel =>
      pml <- getDocumentAttachment (VELOCPQ__ContentId__c productModel) ;;
      ret (productModel, pml)) ;;
  forEach contents (savePml sourcepath).

Definition run (fuel : nat) : M World unit :=
  let sourcepath := sourcepathOf in
  productModels <- fetchProductModelsCli ;;
  if Nat.eqb (length productModels) 0 then ret tt
  else
    fetchPml sourcepath productModels ;;;
    fetchUiDefinitions flags_members Member_ui fuel sourcepath productModels ;;;
    console_log "Done." ;;;
    ret tt.

End PullCommandRun.

(** A connection for the examples: document [doc1] has a body, whose
    response is what the store hands back of the pushed text [[]]. *)
Definition demoConnection : Connection :=
  {| queryDocumentBody := fun documentId =>
       if String.eqb documentId "doc1" then inr (Some "/body/doc1") else inr None;
     request := fun url => inr (transportRead (@encodeBody storeZlib "[]")) |}.

(** A [JSON] for which every text is valid and not an array. *)
Definition scalarJson : Json :=
  {| JSON_parse := fun _ => inr ParsedOther;
     stringify_value := to_string;
     stringify_metadata := fun _ => "";
     stringify_uiDefs := fun _ => "" |}.

(** A store whose second record has a document that cannot be
    fetched. *)
Definition recordM5 : ProductModel := mkProductModel "a05" "M5" "c5" "doc5".

Definition brokenRemote : PullRemote :=
  {| fetchProductModels := fun _ _ => inr [recordM1; recordM5];
     fetchDocumentAttachment := fun documentId =>
       if String.eqb documentId "doc1" then inr "[Form]"
       else inl (Error "Document not found") |}.

(** ** What a run adds *)

(** A run keeps the directories there are and adds only files whose
    path satisfies [P]. *)
Definition grows {A} (P : string -> Prop) (m : M World A) : Prop :=
  forall w,
    incl (dirs w) (dirs (final (m w)))
    /\ exists added,
         files (final (m w)) = added ++ files w
         /\ Forall (fun f => P (fst f)) added.


(** ** The layout a pull is to leave (design document, §4.4 and §6) *)




Section Layout.
Context `{UiUtils} `{Json}.














End Layout.

(** A batch of three documents: a modern and a legacy definition, a
    text that is not JSON, and a definition whose first element has no
    script. *)
Definition panelElement : UiElement :=
  mkUiElement (Some "Panel:code") (Some "p{}") None [buttonElement].
Definition tidyDef : UiDef :=
  mkUiDef (<["name" := JStr "Tidy"]> ∅) None None (Some [panelElement; inputElement]).
Definition mainSection : obj :=
  <["id" := JNum 1]> (<["page" := JNum 1]> styledSection).
Definition subSection : obj :=
  <["id" := JNum 2]>
    (<["parentId" := JNum 1]>
       (<["page" := JNum 1]> (<["label" := JStr "B"]> (<["template" := JStr "<b>"]> ∅)))).
Definition oldDef : UiDef :=
  mkUiDef (<["name" := JStr "Old"]> ∅) (Some [pageTab]) (Some [subSection; mainSection])
          None.

Definition batchJson : Json :=
  {| JSON_parse := fun content =>
       if String.eqb content "[Tidy,Old]" then inr (ParsedArray [tidyDef; oldDef])
       else if String.eqb content "[Quiet]" then inr (ParsedArray [quietDef])
       else inl (SyntaxError "Unexpected token in JSON");
     stringify_value := to_string;
     stringify_metadata := fun m => join "," (map to_string (um_children m));
     stringify_uiDefs := fun l =>
       join "," (map (fun ui => to_string (get (ui_fields ui) "name")) l) |}.


(** ** Files below a directory *)

(** [p] is the path of a file below [dir], reached through plain
    segments. *)
Definition below (dir p : string) : Prop :=
  exists segs,
    segs <> []
    /\ Forall (fun seg => plainSegment seg = true) segs
    /\ p = dir +:+ "/" +:+ join "/" segs.


Section PlainNames.
Context `{UiUtils} `{Json}.

(** The names the extractor finds for the scripts of an element and of
    the elements below it are plain segments ([undefined], printed as
    such, is one). *)
#[warnings="-register-all"]
Inductive plainTree : UiElement -> Prop :=
| plainTree_node el :
    (forall script md,
        decodedScript el = inr script ->
        extractElementMetadata script = inr md ->
        plainSegment (to_string (md_name md)) = true) ->
    Forall plainTree (el_children el) ->
    plainTree el.

(** The names a definition brings into paths are plain segments: its
    own, those of its tabs, the labels of its sections and the names of
    its elements. *)
Definition plainDef (ui : UiDef) : Prop :=
  plainSegment (to_string (get (ui_fields ui) "name")) = true
  /\ Forall (fun tab => plainSegment (to_string (get tab "name")) = true)
            (default [] (ui_tabs ui))
  /\ Forall (fun section => plainSegment (to_string (get section "label")) = true)
            (default [] (ui_sections ui))
  /\ Forall plainTree (default [] (ui_children ui)).

(** The same of every definition of a record's document. *)
Definition plainNames (entry : ProductModel * string) : Prop :=
  match JSON_parse (snd entry) with
  | inr (ParsedArray uiDefs) => Forall plainDef uiDefs
  | _ => True
  end.

End PlainNames.

(** * Theorems *)

(** ** Base64 round trip *)

Module Base64Facts.
Import Base64.
Local Open Scope N_scope.

Lemma by_threes (P : list ascii -> Prop) :
  P [] ->
  (forall x, P [x]) ->
  (forall x y, P [x; y]) ->
  (forall x y z rest, P rest -> P (x :: y :: z :: rest)) ->
  forall b, P b.
Proof.
  intros H0 H1 H2 H3.
  assert (Hall : forall b, P b /\ (forall x, P (x :: b)) /\ (forall x y, P (x :: y :: b))).
  { induction b as [|c b (IH0 & IH1 & IH2)].
    - repeat split; auto.
    - repeat split; auto. }
  intros b. apply Hall.
Qed.

Definition sextet_ok (n : N) : bool :=
  match decodeChar (encodeChar n) with
  | Some m => N.eqb m n && negb (Ascii.eqb (encodeChar n) "="%char)
  | None => false
  end.

Lemma sextet_table :
  forallb sextet_ok (map N.of_nat (seq 0 64)) = true.
Proof. vm_compute. reflexivity. Qed.

Lemma sextet_ok_lt n : n < 64 -> sextet_ok n = true.
Proof.
  intros Hn.
  pose proof sextet_table as Ht.
  rewrite forallb_forall in Ht. apply Ht.
  rewrite <- (N2Nat.id n). apply in_map. apply in_seq. lia.
Qed.

Lemma decodeChar_encodeChar n : n < 64 -> decodeChar (encodeChar n) = Some n.
Proof.
  intros Hn. apply sextet_ok_lt in Hn. unfold sextet_ok in Hn.
  destruct (decodeChar (encodeChar n)) as [m|]; [|discriminate].
  apply andb_prop in Hn as [Hm _]. apply N.eqb_eq in Hm. congruence.
Qed.

Lemma encodeChar_not_pad n : n < 64 -> Ascii.eqb (encodeChar n) "="%char = false.
Proof.
  intros Hn. apply sextet_ok_lt in Hn. unfold sextet_ok in Hn.
  destruct (decodeChar (encodeChar n)); [|discriminate].
  apply andb_prop in Hn as [_ Hp].
  destruct (Ascii.eqb (encodeChar n) "="); [discriminate | reflexivity].
Qed.

Lemma byte_lt (x : ascii) : N_of_ascii x < 256.
Proof. apply N_ascii_bounded. Qed.

Lemma sextets_lt b : Forall (fun n => n < 64) (sextets b).
Proof.
  induction b as [| x | x y | x y z rest IH] using by_threes; simpl.
  - constructor.
  - pose proof (byte_lt x). repeat constructor.
    + apply N.Div0.div_lt_upper_bound; lia.
    + pose proof (N.mod_upper_bound (N_of_ascii x) 4). lia.
  - pose proof (byte_lt x). pose proof (byte_lt y). repeat constructor.
    + apply N.Div0.div_lt_upper_bound; lia.
    + pose proof (N.mod_upper_bound (N_of_ascii x) 4).
      assert (N_of_ascii y / 16 < 16) by (apply N.Div0.div_lt_upper_bound; lia). lia.
    + pose proof (N.mod_upper_bound (N_of_ascii y) 16). lia.
  - pose proof (byte_lt x). pose proof (byte_lt y). pose proof (byte_lt z).
    repeat constructor; try assumption.
    + apply N.Div0.div_lt_upper_bound; lia.
    + pose proof (N.mod_upper_bound (N_of_ascii x) 4).
      assert (N_of_ascii y / 16 < 16) by (apply N.Div0.div_lt_upper_bound; lia). lia.
    + pose proof (N.mod_upper_bound (N_of_ascii y) 16).
      assert (N_of_ascii z / 64 < 4) by (apply N.Div0.div_lt_upper_bound; lia). lia.
    + apply N.mod_upper_bound. lia.
Qed.

Lemma values_encoded s pad :
  Forall (fun n => n < 64) s ->
  pad = [] \/ (exists pad', pad = "="%char :: pad') ->
  values (map encodeChar s ++ pad) = s.
Proof.
  intros Hs Hpad. induction Hs as [| n s Hn _ IH]; simpl.
  - destruct Hpad as [-> | [pad' ->]]; reflexivity.
  - rewrite encodeChar_not_pad, decodeChar_encodeChar by assumption.
    now rewrite IH.
Qed.

Lemma padding_shape b :
  padding b = [] \/ exists pad', padding b = "="%char :: pad'.
Proof.
  unfold padding. destruct (N.of_nat (length b) mod 3) as [|[p|p|]]; eauto.
  destruct p; eauto.
Qed.

Lemma join_byte (x : ascii) q r :
  q = N_of_ascii x -> r = q -> ascii_of_N r = x.
Proof. intros -> ->. apply ascii_N_embedding. Qed.

Lemma bytes_sextets b : bytes (sextets b) = b.
Proof.
  induction b as [| x | x y | x y z rest IH] using by_threes; simpl.
  - reflexivity.
  - f_equal. apply (join_byte x _ _ eq_refl).
    pose proof (byte_lt x).
    rewrite N.div_mul by lia.
    pose proof (N.div_mod (N_of_ascii x) 4). lia.
  - pose proof (byte_lt x). pose proof (byte_lt y).
    f_equal; [| f_equal].
    + apply (join_byte x _ _ eq_refl).
      assert (E : ((N_of_ascii x mod 4) * 16 + N_of_ascii y / 16) / 16 = N_of_ascii x mod 4).
      { rewrite N.div_add_l by lia. rewrite (N.div_small (N_of_ascii y / 16)); [lia|].
        apply N.Div0.div_lt_upper_bound; lia. }
      rewrite E. pose proof (N.div_mod (N_of_ascii x) 4). lia.
    + apply (join_byte y _ _ eq_refl).
      assert (E1 : ((N_of_ascii x mod 4) * 16 + N_of_ascii y / 16) mod 16 = N_of_ascii y / 16).
      { rewrite N.add_comm, N.Div0.mod_add. apply N.mod_small.
        apply N.Div0.div_lt_upper_bound; lia. }
      rewrite E1, N.div_mul by lia.
      pose proof (N.div_mod (N_of_ascii y) 16). lia.
  - pose proof (byte_lt x). pose proof (byte_lt y). pose proof (byte_lt z).
    rewrite IH. f_equal; [| f_equal; [| f_equal]].
    + apply (join_byte x _ _ eq_refl).
      assert (E : ((N_of_ascii x mod 4) * 16 + N_of_ascii y / 16) / 16 = N_of_ascii x mod 4).
      { rewrite N.div_add_l by lia. rewrite (N.div_small (N_of_ascii y / 16)); [lia|].
        apply N.Div0.div_lt_upper_bound; lia. }
      rewrite E. pose proof (N.div_mod (N_of_ascii x) 4). lia.
    + apply (join_byte y _ _ eq_refl).
      assert (E1 : ((N_of_ascii x mod 4) * 16 + N_of_ascii y / 16) mod 16 = N_of_ascii y / 16).
      { rewrite N.add_comm, N.Div0.mod_add. apply N.mod_small.
        apply N.Div0.div_lt_upper_bound; lia. }
      assert (E2 : ((N_of_ascii y mod 16) * 4 + N_of_ascii z / 64) / 4 = N_of_ascii y mod 16).
      { rewrite N.div_add_l by lia. rewrite (N.div_small (N_of_ascii z / 64)); [lia|].
        apply N.Div0.div_lt_upper_bound; lia. }
      rewrite E1, E2. pose proof (N.div_mod (N_of_ascii y) 16). lia.
    + apply (join_byte z _ _ eq_refl).
      assert (E3 : ((N_of_ascii y mod 16) * 4 + N_of_ascii z / 64) mod 4 = N_of_ascii z / 64).
      { rewrite N.add_comm, N.Div0.mod_add. apply N.mod_small.
        apply N.Div0.div_lt_upper_bound; lia. }
      rewrite E3. pose proof (N.div_mod (N_of_ascii z) 64). lia.
Qed.

(** Decoding the base64 text of a buffer gives the buffer back. *)
Lemma decode_encode b : decode (encode b) = b.
Proof.
  unfold decode, encode.
  rewrite list_ascii_of_string_of_list_ascii.
  rewrite values_encoded.
  - apply bytes_sextets.
  - apply sextets_lt.
  - apply padding_shape.
Qed.

End Base64Facts.

(** ** The codec *)

Example encode_Man : Base64.encode (list_ascii_of_string "Man") = "TWFu".
Proof. reflexivity. Qed.

Example encode_Ma : Base64.encode (list_ascii_of_string "Ma") = "TWE=".
Proof. reflexivity. Qed.

Example decode_TQ : Base64.decode "TQ==" = list_ascii_of_string "M".
Proof. reflexivity. Qed.

Section CodecFacts.
Context `{Zlib}.

(** One read of the transport leaves the single base64 layer over the
    compressed bytes. *)
Lemma transportRead_encodeBody x :
  transportRead (encodeBody x) = Base64.encode (gzipSync (list_ascii_of_string x)).
Proof.
  unfold transportRead, encodeBody.
  rewrite Base64Facts.decode_encode.
  apply string_of_list_ascii_of_string.
Qed.

(** C2: the push encoder compresses and applies base64 twice, the pull
    decoder strips one base64 layer and decompresses; when [gunzipSync]
    inverts [gzipSync], decoding what the transport hands back after
    stripping one layer yields the JSON text again. *)
Theorem codec_round_trip (x : string) :
  (forall b, gunzipSync (gzipSync b) = inr b) ->
  encodeBody x
    = Base64.encode (list_ascii_of_string
                       (Base64.encode (gzipSync (list_ascii_of_string x))))
  /\ (forall res, decodeContent res
        = match gunzipSync (Base64.decode res) with
          | inl e => inl e
          | inr plain => inr (string_of_list_ascii plain)
          end)
  /\ decodeContent (transportRead (encodeBody x)) = inr x.
Proof.
  intros Hzip. split; [reflexivity | split; [reflexivity |]].
  rewrite transportRead_encodeBody.
  unfold decodeContent.
  rewrite Base64Facts.decode_encode, Hzip.
  f_equal. apply string_of_list_ascii_of_string.
Qed.

End CodecFacts.

Lemma codec_round_trip_witness :
  (forall b, @gunzipSync storeZlib (@gzipSync storeZlib b) = inr b)
  /\ @decodeContent storeZlib (transportRead (@encodeBody storeZlib "[]")) = inr "[]".
Proof.
  split; [reflexivity |].
  apply (@codec_round_trip storeZlib "[]"). reflexivity.
Defined.

(** ** Loops *)

Lemma forEachAcc_app {S A B} (l1 l2 : list A) (f : A -> B -> M S B) acc s :
  forEachAcc (l1 ++ l2) f acc s
  = (acc' <- forEachAcc l1 f acc ;; forEachAcc l2 f acc') s.
Proof.
  revert acc s. induction l1 as [| x l1 IH]; intros acc s; simpl.
  - reflexivity.
  - unfold bind. destruct (f x acc s) as [acc' s' | e s']; [| reflexivity].
    rewrite IH. reflexivity.
Qed.


(** ** The legacy section tree *)

Section LegacyLayout.
Context `{UiUtils} `{Json}.

(** [saveLegacySections] is the sequence of its visits. *)
Lemma saveLegacySections_visits fuel sections :
  forall path parentId l metadata w,
    legacyVisits fuel sections path parentId = Some l ->
    saveLegacySections fuel sections path metadata parentId w
    = forEachAcc l visit metadata w.
Proof.
  induction fuel as [| fuel IH]; intros path parentId l metadata w Hl.
  - discriminate.
  - simpl in Hl |- *.
    revert l metadata w Hl.
    generalize (List.filter (fun s => strict_eq (get s "parentId") parentId) sections).
    intros cs. induction cs as [| c cs IHcs]; intros l metadata w Hl.
    + injection Hl as <-. reflexivity.
    + destruct (legacyVisits fuel sections _ (get c "id")) as [below |] eqn:Hbelow;
        [| discriminate].
      match type of Hl with
      | match ?e with _ => _ end = _ => destruct e as [others |] eqn:Hothers
      end; [| discriminate].
      injection Hl as <-.
      cbn [forEachAcc]. unfold bind. unfold visit at 1. cbn [fst snd].
      destruct (saveLegacySectionFiles c (path +:+ "/" +:+ to_string (get c "label"))
                  metadata w) as [metadata1 w1 | e w1]; [| reflexivity].
      rewrite forEachAcc_app. unfold bind.
      rewrite (IH _ _ below metadata1 w1 Hbelow).
      destruct (forEachAcc below visit metadata1 w1) as [metadata2 w2 | e w2];
        [| reflexivity].
      now apply IHcs.
Qed.

End LegacyLayout.

(** What is visited is what hangs in the tree. *)
Lemma legacyVisits_sound fuel sections :
  forall path parentId l c p,
    legacyVisits fuel sections path parentId = Some l ->
    In (c, p) l -> reach sections parentId path c p.
Proof.
  induction fuel as [| fuel IH]; intros path parentId l c p Hl Hin.
  - discriminate.
  - simpl in Hl.
    assert (Hsub : forall x,
               In x (List.filter (fun s => strict_eq (get s "parentId") parentId) sections) ->
               In x sections /\ strict_eq (get x "parentId") parentId = true).
    { intros x Hx. apply filter_In in Hx. exact Hx. }
    revert l Hl Hin Hsub.
    generalize (List.filter (fun s => strict_eq (get s "parentId") parentId) sections).
    intros cs. induction cs as [| c0 cs IHcs]; intros l Hl Hin Hsub.
    + injection Hl as <-. destruct Hin.
    + destruct (legacyVisits fuel sections _ (get c0 "id")) as [below |] eqn:Hbelow;
        [| discriminate].
      match type of Hl with
      | match ?e with _ => _ end = _ => destruct e as [others |] eqn:Hothers
      end; [| discriminate].
      injection Hl as <-.
      destruct (Hsub c0 (or_introl eq_refl)) as [Hc0 Hp0].
      destruct Hin as [Heq | Hin].
      * injection Heq as <- <-. now apply reach_child.
      * apply in_app_or in Hin as [Hin | Hin].
        -- eapply reach_below; eauto.
        -- eapply IHcs; eauto. intros x Hx. apply Hsub. now right.
Qed.

(** A completed run visits the whole subtree of every section it
    visits at the first level. *)
Lemma legacyVisits_first fuel sections path parentId l c :
  legacyVisits (S fuel) sections path parentId = Some l ->
  In c sections ->
  strict_eq (get c "parentId") parentId = true ->
  In (c, path +:+ "/" +:+ to_string (get c "label")) l
  /\ exists below,
       legacyVisits fuel sections (path +:+ "/" +:+ to_string (get c "label")) (get c "id")
       = Some below
       /\ incl below l.
Proof.
  intros Hl Hc Hp. simpl in Hl.
  assert (Hin : In c (List.filter (fun s => strict_eq (get s "parentId") parentId) sections)).
  { apply filter_In. now split. }
  revert l Hl Hin.
  generalize (List.filter (fun s => strict_eq (get s "parentId") parentId) sections).
  intros cs. induction cs as [| c0 cs IHcs]; intros l Hl Hin.
  - destruct Hin.
  - destruct (legacyVisits fuel sections _ (get c0 "id")) as [below |] eqn:Hbelow;
      [| discriminate].
    match type of Hl with
    | match ?e with _ => _ end = _ => destruct e as [others |] eqn:Hothers
    end; [| discriminate].
    injection Hl as <-.
    destruct Hin as [-> | Hin].
    + split; [now left |].
      exists below. split; [exact Hbelow |].
      intros x Hx. right. apply in_or_app. now left.
    + destruct (IHcs others eq_refl Hin) as [Hhere (below' & Hb' & Hincl)].
      split.
      * right. apply in_or_app. now right.
      * exists below'. split; [exact Hb' |].
        intros x Hx. right. apply in_or_app. right. now apply Hincl.
Qed.

Lemma legacyVisits_complete sections parentId path c p :
  reach sections parentId path c p ->
  forall fuel l,
    legacyVisits fuel sections path parentId = Some l -> In (c, p) l.
Proof.
  induction 1 as [parentId path c Hc Hp | parentId path c d p Hc Hp _ IH];
    intros fuel l Hl.
  - destruct fuel as [| fuel]; [discriminate |].
    now apply (legacyVisits_first fuel sections path parentId l c).
  - destruct fuel as [| fuel]; [discriminate |].
    destruct (legacyVisits_first fuel sections path parentId l c Hl Hc Hp)
      as [_ (below & Hbelow & Hincl)].
    apply Hincl. eapply IH. exact Hbelow.
Qed.

(** The recursion returns when a rank falls from every section to its
    children. *)
Lemma legacyVisits_total sections (rank : obj -> nat) :
  (forall c d, In c sections -> In d sections ->
               strict_eq (get d "parentId") (get c "id") = true -> rank d < rank c) ->
  forall n path parentId,
    (forall c, In c sections -> strict_eq (get c "parentId") parentId = true -> rank c < n) ->
    exists l, legacyVisits (S n) sections path parentId = Some l.
Proof.
  intros Hrank. induction n as [| n IH]; intros path parentId Hn.
  - simpl. 
    assert (E : List.filter (fun s => strict_eq (get s "parentId") parentId) sections = []).
    { destruct (List.filter _ sections) as [| c cs] eqn:E; [reflexivity |].
      assert (Hc : In c (c :: cs)) by now left.
      rewrite <- E in Hc. apply filter_In in Hc as [Hc Hp].
      specialize (Hn c Hc Hp). lia. }
    rewrite E. eauto.
  - change (legacyVisits (S (S n)) sections path parentId)
      with ((fix each (cs : list obj) : option (list (obj * string)) :=
               match cs with
               | [] => Some []
               | c :: cs' =>
                   let childPath := path +:+ "/" +:+ to_string (get c "label") in
                   match legacyVisits (S n) sections childPath (get c "id"), each cs' with
                   | Some below, Some others => Some ((c, childPath) :: below ++ others)
                   | _, _ => None
                   end
               end) (List.filter (fun s => strict_eq (get s "parentId") parentId) sections)).
    assert (Hsub : forall x,
               In x (List.filter (fun s => strict_eq (get s "parentId") parentId) sections) ->
               In x sections /\ strict_eq (get x "parentId") parentId = true).
    { intros x Hx. apply filter_In in Hx. exact Hx. }
    revert Hsub.
    generalize (List.filter (fun s => strict_eq (get s "parentId") parentId) sections).
    intros cs. induction cs as [| c cs IHcs]; intros Hsub.
    + eauto.
    + destruct (Hsub c (or_introl eq_refl)) as [Hc Hp].
      destruct (IH (path +:+ "/" +:+ to_string (get c "label")) (get c "id")) as [below Hb].
      { intros d Hd Hpd. specialize (Hrank c d Hc Hd Hpd). specialize (Hn c Hc Hp). lia. }
      destruct IHcs as [others Ho].
      { intros x Hx. apply Hsub. now right. }
      cbv zeta in Ho |- *. cbn -[legacyVisits]. cbn -[legacyVisits] in Ho.
      rewrite Hb, Ho. eauto.
Qed.

Section LegacyTree.
Context `{UiUtils} `{Json}.

(** C1 (amended): within a tab, the sections are laid out as the tree
    rooted at the sections whose [parentId] is absent, the children of a
    section being the sections of the same list whose [parentId] is its
    [id]; the run returns whenever that relation has no cycle; and the
    list of the design document, with the root's [parentId] left out,
    nests as A/B/C under the tab directory. *)
Theorem legacy_sections_layout (sections : list obj) (path : string)
    (rank : obj -> nat) (n : nat) :
  (forall c, In c sections -> rank c < n) ->
  (forall c d, In c sections -> In d sections ->
               strict_eq (get d "parentId") (get c "id") = true -> rank d < rank c) ->
  (exists l,
      legacyVisits (S n) sections path JUndefined = Some l
      /\ (forall metadata w,
             saveLegacySections (S n) sections path metadata JUndefined w
             = forEachAcc l visit metadata w)
      /\ (forall c p, In (c, p) l <-> reach sections JUndefined path c p))
  /\ (forall fuel ui tabs all dir metadataArray w,
         ui_tabs ui = Some tabs -> ui_sections ui = Some all ->
         saveLegacyUiDefinition fuel ui dir metadataArray w
         = (legacyMetadata <-
              forEachAcc tabs (fun tab legacyMetadata =>
                saveLegacySections fuel
                  (List.filter (fun s => strict_eq (get s "page") (get tab "id")) all)
                  (dir +:+ "/" +:+ to_string (get tab "name")) legacyMetadata JUndefined)
                (with_sections ui []) ;;
            ret (metadataArray ++ [legacyMetadata])) w)
  /\ legacyVisits 4 [sectionA; sectionB; sectionC] "tab" JUndefined
     = Some [(sectionA, "tab/A"); (sectionB, "tab/A/B"); (sectionC, "tab/A/B/C")].
Proof.
  intros Hn Hrank. split; [| split].
  - destruct (legacyVisits_total sections rank Hrank n path JUndefined) as [l Hl].
    { intros c Hc _. now apply Hn. }
    exists l. split; [exact Hl | split].
    + intros metadata w. now apply saveLegacySections_visits.
    + intros c p. split.
      * now apply legacyVisits_sound with (fuel := S n) (l := l).
      * intros Hr. now apply (legacyVisits_complete _ _ _ _ _ Hr (S n) l).
  - intros fuel ui tabs all dir metadataArray w Htabs Hall.
    unfold saveLegacyUiDefinition. rewrite Htabs, Hall. reflexivity.
  - vm_compute. reflexivity.
Qed.

End LegacyTree.

Lemma legacy_sections_layout_witness :
  (forall c, In c [sectionA; sectionB; sectionC] -> exampleRank c < 3)
  /\ (forall c d, In c [sectionA; sectionB; sectionC] ->
                  In d [sectionA; sectionB; sectionC] ->
                  strict_eq (get d "parentId") (get c "id") = true ->
                  exampleRank d < exampleRank c)
  /\ exists l,
       legacyVisits 4 [sectionA; sectionB; sectionC] "tab" JUndefined = Some l
       /\ (forall c p, In (c, p) l
                       <-> reach [sectionA; sectionB; sectionC] JUndefined "tab" c p).
Proof.
  assert (H1 : forall c, In c [sectionA; sectionB; sectionC] -> exampleRank c < 3).
  { intros c [<- | [<- | [<- | []]]]; vm_compute; lia. }
  assert (H2 : forall c d, In c [sectionA; sectionB; sectionC] ->
                           In d [sectionA; sectionB; sectionC] ->
                           strict_eq (get d "parentId") (get c "id") = true ->
                           exampleRank d < exampleRank c).
  { intros c d [<- | [<- | [<- | []]]] [<- | [<- | [<- | []]]] Hs;
      vm_compute in Hs; try discriminate; vm_compute; lia. }
  split; [exact H1 | split; [exact H2 |]].
  destruct (@legacy_sections_layout plainUtils plainJson
              [sectionA; sectionB; sectionC] "tab" exampleRank 3 H1 H2)
    as [(l & Hl & _ & Hreach) _].
  exists l. split; [exact Hl | exact Hreach].
Defined.

(** The list as the design document writes it, [parentId: null] at the
    root: no section is visited, nothing is written and no metadata is
    recorded, so no path A/B/C is emitted. *)
Lemma legacy_null_parent_not_laid_out :
  legacyVisits 4 [sectionA_null; sectionB; sectionC] "tab" JUndefined = Some []
  /\ @saveLegacySections plainUtils plainJson 4 [sectionA_null; sectionB; sectionC] "tab"
       (with_sections shapelessDef []) JUndefined emptyWorld
     = Ok (with_sections shapelessDef []) emptyWorld.
Proof. split; vm_compute; reflexivity. Qed.

(** ** The metadata and the files of one legacy section *)

Lemma append_cancel_l (a x y : string) : a +:+ x = a +:+ y -> x = y.
Proof.
  induction a as [| c a IH]; simpl; intros E; [exact E |].
  injection E as E. now apply IH.
Qed.

Lemma blobPath_neq section dir e1 e2 :
  e1 <> e2 -> blobPath section dir e1 <> blobPath section dir e2.
Proof.
  intros Hne E. unfold blobPath in E.
  do 3 apply append_cancel_l in E. contradiction.
Qed.

Lemma blobPath_eqb section dir e1 e2 :
  e1 <> e2 -> String.eqb (blobPath section dir e1) (blobPath section dir e2) = false.
Proof. intros Hne. apply String.eqb_neq. now apply blobPath_neq. Qed.

Section LegacySectionFiles.
Context `{UiUtils} `{Json}.

Lemma saveLegacySectionFiles_steps section dir metadata w :
  saveLegacySectionFiles section dir metadata w
  = (m1 <- blobStep "script" "scriptUrl" ".js" fromBase64 section dir section ;;
     m2 <- blobStep "styles" "scriptUrl" ".css" fromBase64 section dir m1 ;;
     m3 <- blobStep "template" "templateUrl" ".html" fromBase64 section dir m2 ;;
     m4 <- blobStep "properties" "propertiesUrl" ".json"
             (fun v => inr (stringify_value v)) section dir m3 ;;
     match ui_sections metadata with
     | Some sections => ret (with_sections metadata (sections ++ [m4]))
     | None => throw (TypeError "Cannot read properties of undefined (reading 'push')")
     end) w.
Proof.
  unfold saveLegacySectionFiles, blobStep, bind, lift, ret.
  repeat match goal with
         | |- context [truthy ?v] => destruct (truthy v)
         end; reflexivity.
Qed.

Lemma blobStep_ok field urlField ext contentOf section dir sectionMeta w content :
  (truthy (get section field) = true -> contentOf (get section field) = inr content) ->
  exists w1,
    blobStep field urlField ext contentOf section dir sectionMeta w
    = Ok (metaStep field urlField ext section dir sectionMeta) w1
    /\ files w1
       = (if truthy (get section field)
          then [(blobPath section dir ext, content)] else [])
         ++ files w.
Proof.
  intros Hc. unfold blobStep, metaStep, blobPath.
  destruct (truthy (get section field)).
  - rewrite Hc by reflexivity.
    eexists. split; reflexivity.
  - eexists. split; reflexivity.
Qed.

(** The call returns whenever [fromBase64] does, pushes
    [legacySectionMeta] and writes one file per truthy inline field. *)
Lemma saveLegacySectionFiles_ok section dir metadata sections w cs cy ct :
  ui_sections metadata = Some sections ->
  (truthy (get section "script") = true -> fromBase64 (get section "script") = inr cs) ->
  (truthy (get section "styles") = true -> fromBase64 (get section "styles") = inr cy) ->
  (truthy (get section "template") = true -> fromBase64 (get section "template") = inr ct) ->
  exists w',
    saveLegacySectionFiles section dir metadata w
    = Ok (with_sections metadata (sections ++ [legacySectionMeta section dir])) w'
    /\ files w'
       = (if truthy (get section "properties")
          then [(blobPath section dir ".json", stringify_value (get section "properties"))]
          else [])
         ++ (if truthy (get section "template")
             then [(blobPath section dir ".html", ct)] else [])
         ++ (if truthy (get section "styles")
             then [(blobPath section dir ".css", cy)] else [])
         ++ (if truthy (get section "script")
             then [(blobPath section dir ".js", cs)] else [])
         ++ files w.
Proof.
  intros Hsec Hs Hy Ht.
  rewrite saveLegacySectionFiles_steps.
  destruct (blobStep_ok "script" "scriptUrl" ".js" fromBase64 section dir section w cs Hs)
    as (w1 & E1 & F1).
  destruct (blobStep_ok "styles" "scriptUrl" ".css" fromBase64 section dir
              (metaStep "script" "scriptUrl" ".js" section dir section) w1 cy Hy)
    as (w2 & E2 & F2).
  destruct (blobStep_ok "template" "templateUrl" ".html" fromBase64 section dir
              (metaStep "styles" "scriptUrl" ".css" section dir
                 (metaStep "script" "scriptUrl" ".js" section dir section)) w2 ct Ht)
    as (w3 & E3 & F3).
  destruct (blobStep_ok "properties" "propertiesUrl" ".json"
              (fun v => inr (stringify_value v)) section dir
              (metaStep "template" "templateUrl" ".html" section dir
                 (metaStep "styles" "scriptUrl" ".css" section dir
                    (metaStep "script" "scriptUrl" ".js" section dir section))) w3
              (stringify_value (get section "properties")) (fun _ => eq_refl))
    as (w4 & E4 & F4).
  exists w4. split.
  - unfold bind at 1. rewrite E1.
    unfold bind at 1. rewrite E2.
    unfold bind at 1. rewrite E3.
    unfold bind at 1. rewrite E4.
    rewrite Hsec. reflexivity.
  - rewrite F4, F3, F2, F1. reflexivity.
Qed.

End LegacySectionFiles.

Ltac flags :=
  repeat match goal with
         | H : truthy ?v = _ |- context [truthy ?v] => rewrite H
         end;
  repeat match goal with
         | |- context [truthy ?v] => destruct (truthy v)
         end.

Ltac lookups :=
  repeat first
    [ rewrite lookup_insert_eq
    | rewrite lookup_delete_eq
    | rewrite lookup_insert_ne by (congruence || discriminate)
    | rewrite lookup_delete_ne by (congruence || discriminate) ].

Lemma meta_inline_truthy section dir f :
  In f inlineFields -> truthy (get section f) = true ->
  legacySectionMeta section dir !! f = None.
Proof.
  intros Hf Ht. unfold legacySectionMeta, metaStep.
  destruct Hf as [<- | [<- | [<- | [<- | []]]]]; flags; lookups; reflexivity.
Qed.

Lemma meta_inline_falsy section dir f :
  In f inlineFields -> truthy (get section f) = false ->
  legacySectionMeta section dir !! f = section !! f.
Proof.
  intros Hf Ht. unfold legacySectionMeta, metaStep.
  destruct Hf as [<- | [<- | [<- | [<- | []]]]]; flags; lookups; reflexivity.
Qed.

Lemma meta_other section dir k :
  ~ In k (inlineFields ++ urlFields) ->
  legacySectionMeta section dir !! k = section !! k.
Proof.
  intros Hk. cbn in Hk.
  repeat (apply Decidable.not_or in Hk as [? Hk]).
  unfold legacySectionMeta, metaStep. flags; lookups; reflexivity.
Qed.

Lemma meta_scriptUrl_styles section dir :
  truthy (get section "styles") = true ->
  legacySectionMeta section dir !! "scriptUrl"
  = Some (JStr (blobPath section dir ".css")).
Proof.
  intros Ht. unfold legacySectionMeta, metaStep, blobPath.
  flags; lookups; reflexivity.
Qed.

Lemma meta_scriptUrl_script section dir :
  truthy (get section "script") = true ->
  truthy (get section "styles") = false ->
  legacySectionMeta section dir !! "scriptUrl"
  = Some (JStr (blobPath section dir ".js")).
Proof.
  intros Hs Ht. unfold legacySectionMeta, metaStep, blobPath.
  flags; lookups; reflexivity.
Qed.

Lemma meta_templateUrl section dir :
  truthy (get section "template") = true ->
  legacySectionMeta section dir !! "templateUrl"
  = Some (JStr (blobPath section dir ".html")).
Proof.
  intros Ht. unfold legacySectionMeta, metaStep, blobPath.
  flags; lookups; reflexivity.
Qed.

Lemma meta_propertiesUrl section dir :
  truthy (get section "properties") = true ->
  legacySectionMeta section dir !! "propertiesUrl"
  = Some (JStr (blobPath section dir ".json")).
Proof.
  intros Ht. unfold legacySectionMeta, metaStep, blobPath.
  flags; lookups; reflexivity.
Qed.

(** With [styles] truthy, whatever field holds the path of the [.js]
    file held it in the section already: no block has recorded it. *)
Lemma meta_no_js_reference section dir k :
  truthy (get section "styles") = true ->
  legacySectionMeta section dir !! k = Some (JStr (blobPath section dir ".js")) ->
  section !! k = Some (JStr (blobPath section dir ".js")).
Proof.
  intros Ht.
  assert (Hcss : blobPath section dir ".css" <> blobPath section dir ".js")
    by (apply blobPath_neq; discriminate).
  assert (Hhtml : blobPath section dir ".html" <> blobPath section dir ".js")
    by (apply blobPath_neq; discriminate).
  assert (Hjson : blobPath section dir ".json" <> blobPath section dir ".js")
    by (apply blobPath_neq; discriminate).
  unfold legacySectionMeta, metaStep.
  change (dir +:+ "/" +:+ to_string (get section "label") +:+ ".css")
    with (blobPath section dir ".css").
  change (dir +:+ "/" +:+ to_string (get section "label") +:+ ".js")
    with (blobPath section dir ".js").
  change (dir +:+ "/" +:+ to_string (get section "label") +:+ ".html")
    with (blobPath section dir ".html").
  change (dir +:+ "/" +:+ to_string (get section "label") +:+ ".json")
    with (blobPath section dir ".json").
  generalize dependent (blobPath section dir ".js").
  generalize (blobPath section dir ".css") (blobPath section dir ".html")
             (blobPath section dir ".json").
  intros css html json js Hcss Hhtml Hjson.
  flags; intros E;
    repeat (progress (rewrite ?lookup_insert, ?lookup_delete in E;
                      repeat case_decide; subst; try discriminate));
    try congruence.
Qed.

Section LegacySectionClaims.
Context `{UiUtils} `{Json}.

Ltac read_file F :=
  unfold readFile; rewrite F;
  repeat match goal with
         | H : truthy ?v = _ |- context [truthy ?v] => rewrite H
         end;
  repeat match goal with
         | |- context [truthy ?v] => destruct (truthy v)
         end;
  simpl;
  rewrite ?String.eqb_refl, ?blobPath_eqb by discriminate;
  simpl; rewrite ?String.eqb_refl; reflexivity.

Lemma decoded_or_default (v : jsval) :
  (truthy v = true -> exists s, fromBase64 v = inr s) ->
  exists c, truthy v = true -> fromBase64 v = inr c.
Proof.
  intros Hx. destruct (truthy v).
  - destruct (Hx eq_refl) as [s Hs]. exists s. intros _. exact Hs.
  - exists "". discriminate.
Qed.

(** C6 (amended): the call returns whenever [fromBase64] does; the
    metadata object it records holds no inline field ([script],
    [styles], [template], [properties]) whose value was truthy, each of
    those having been written to its file; an inline field with a falsy
    value stays as it was and no file is written for it: the files
    written are those of the truthy inline fields, one each in the order
    of the blocks, and no other, and with no truthy inline field the
    file system is left as it was; [templateUrl], [propertiesUrl] and,
    when [styles] is not truthy, [scriptUrl] hold the path of the file
    written; every field other than the four inline and the three URL
    fields is carried over unchanged. *)
Theorem legacy_section_metadata (section : obj) (dir : string) (metadata : UiDef)
    (sections : list obj) (w : World) :
  ui_sections metadata = Some sections ->
  (forall f, In f ["script"; "styles"; "template"] ->
             truthy (get section f) = true ->
             exists s, fromBase64 (get section f) = inr s) ->
  exists w',
    saveLegacySectionFiles section dir metadata w
    = Ok (with_sections metadata (sections ++ [legacySectionMeta section dir])) w'
    /\ (forall f, In f inlineFields -> truthy (get section f) = true ->
                  legacySectionMeta section dir !! f = None)
    /\ (forall f, In f inlineFields -> truthy (get section f) = false ->
                  legacySectionMeta section dir !! f = section !! f)
    /\ (exists added,
          files w' = added ++ files w
          /\ map fst added = rev (blobPaths section dir)
          /\ forall f ext, In (f, ext) inlineFiles ->
                truthy (get section f) = false ->
                ~ In (blobPath section dir ext) (map fst added))
    /\ ((forall f, In f inlineFields -> truthy (get section f) = false) -> w' = w)
    /\ (forall s, truthy (get section "script") = true ->
                  fromBase64 (get section "script") = inr s ->
                  readFile w' (blobPath section dir ".js") = Some s)
    /\ (forall s, truthy (get section "styles") = true ->
                  fromBase64 (get section "styles") = inr s ->
                  readFile w' (blobPath section dir ".css") = Some s)
    /\ (forall s, truthy (get section "template") = true ->
                  fromBase64 (get section "template") = inr s ->
                  readFile w' (blobPath section dir ".html") = Some s)
    /\ (truthy (get section "properties") = true ->
        readFile w' (blobPath section dir ".json")
        = Some (stringify_value (get section "properties")))
    /\ (truthy (get section "script") = true ->
        truthy (get section "styles") = false ->
        legacySectionMeta section dir !! "scriptUrl"
        = Some (JStr (blobPath section dir ".js")))
    /\ (truthy (get section "template") = true ->
        legacySectionMeta section dir !! "templateUrl"
        = Some (JStr (blobPath section dir ".html")))
    /\ (truthy (get section "properties") = true ->
        legacySectionMeta section dir !! "propertiesUrl"
        = Some (JStr (blobPath section dir ".json")))
    /\ (forall k, ~ In k (inlineFields ++ urlFields) ->
                  legacySectionMeta section dir !! k = section !! k).
Proof.
  intros Hsec Hdec.
  destruct (decoded_or_default (get section "script")) as [cs Hs].
  { apply Hdec. now left. }
  destruct (decoded_or_default (get section "styles")) as [cy Hy].
  { apply Hdec. right. now left. }
  destruct (decoded_or_default (get section "template")) as [ct Ht].
  { apply Hdec. right. right. now left. }
  destruct (saveLegacySectionFiles_ok section dir metadata sections w cs cy ct
              Hsec Hs Hy Ht) as (w' & Hrun & F).
  exists w'. split; [exact Hrun |].
  split; [intros f; apply meta_inline_truthy |].
  split; [intros f; apply meta_inline_falsy |].
  split.
  { exists ((if truthy (get section "properties")
             then [(blobPath section dir ".json",
                    stringify_value (get section "properties"))]
             else [])
            ++ (if truthy (get section "template")
                then [(blobPath section dir ".html", ct)] else [])
            ++ (if truthy (get section "styles")
                then [(blobPath section dir ".css", cy)] else [])
            ++ (if truthy (get section "script")
                then [(blobPath section dir ".js", cs)] else [])).
    split; [rewrite F; now rewrite <- !app_assoc |]. split.
    - unfold blobPaths, inlineFiles. cbn [List.filter fst snd].
      destruct (truthy (get section "script")), (truthy (get section "styles")),
        (truthy (get section "template")), (truthy (get section "properties"));
        reflexivity.
    - intros f ext Hin Hfalsy Hwritten.
      assert (Hext : forall e, In (blobPath section dir e)
                                  (map fst
                                     ((if truthy (get section "properties")
                                       then [(blobPath section dir ".json",
                                              stringify_value (get section "properties"))]
                                       else [])
                                      ++ (if truthy (get section "template")
                                          then [(blobPath section dir ".html", ct)] else [])
                                      ++ (if truthy (get section "styles")
                                          then [(blobPath section dir ".css", cy)] else [])
                                      ++ (if truthy (get section "script")
                                          then [(blobPath section dir ".js", cs)] else []))) ->
                           (e = ".json" /\ truthy (get section "properties") = true)
                           \/ (e = ".html" /\ truthy (get section "template") = true)
                           \/ (e = ".css" /\ truthy (get section "styles") = true)
                           \/ (e = ".js" /\ truthy (get section "script") = true)).
      { intros e He. rewrite !map_app, !in_app_iff in He.
        assert (Hcancel : forall e', blobPath section dir e' = blobPath section dir e ->
                                     e' = e).
        { intros e' E. unfold blobPath in E. now do 3 apply append_cancel_l in E. }
        destruct He as [He | [He | [He | He]]];
          [ destruct (truthy (get section "properties")) eqn:T
          | destruct (truthy (get section "template")) eqn:T
          | destruct (truthy (get section "styles")) eqn:T
          | destruct (truthy (get section "script")) eqn:T ];
          cbn in He; try contradiction;
          (destruct He as [He | []]; apply Hcancel in He; subst e; tauto). }
      destruct (Hext ext Hwritten) as [[-> T] | [[-> T] | [[-> T] | [-> T]]]];
        unfold inlineFiles in Hin;
        repeat (destruct Hin as [Hin | Hin];
                [injection Hin as <-; try discriminate; congruence |]);
        destruct Hin. }
  split.
  { intros Hnone.
    rewrite saveLegacySectionFiles_steps in Hrun.
    unfold blobStep in Hrun.
    rewrite (Hnone "script"), (Hnone "styles"), (Hnone "template"), (Hnone "properties")
      in Hrun by (unfold inlineFields; cbn; tauto).
    unfold bind, ret in Hrun. rewrite Hsec in Hrun.
    now injection Hrun as _ <-. }
  split.
  { intros s T E. rewrite (Hs T) in E. injection E as <-. read_file F. }
  split.
  { intros s T E. rewrite (Hy T) in E. injection E as <-. read_file F. }
  split.
  { intros s T E. rewrite (Ht T) in E. injection E as <-. read_file F. }
  split.
  { intros T. read_file F. }
  split; [apply meta_scriptUrl_script |].
  split; [apply meta_templateUrl |].
  split; [apply meta_propertiesUrl |].
  intros k. apply meta_other.
Qed.

(** C10: for a legacy section whose [script] and [styles] are both
    truthy, the [.js] and the [.css] file are written, [scriptUrl] ends
    as the path of the [.css] file, which is not the path of the [.js]
    file, no [stylesUrl] field is set (the field is as in the section),
    and no field is given the path of the [.js] file. *)
Theorem styles_path_overwrites_scriptUrl (section : obj) (dir : string)
    (metadata : UiDef) (sections : list obj) (w : World) (cs cy : string) :
  ui_sections metadata = Some sections ->
  truthy (get section "script") = true ->
  truthy (get section "styles") = true ->
  fromBase64 (get section "script") = inr cs ->
  fromBase64 (get section "styles") = inr cy ->
  (truthy (get section "template") = true ->
   exists s, fromBase64 (get section "template") = inr s) ->
  exists w',
    saveLegacySectionFiles section dir metadata w
    = Ok (with_sections metadata (sections ++ [legacySectionMeta section dir])) w'
    /\ readFile w' (blobPath section dir ".js") = Some cs
    /\ readFile w' (blobPath section dir ".css") = Some cy
    /\ legacySectionMeta section dir !! "scriptUrl"
       = Some (JStr (blobPath section dir ".css"))
    /\ blobPath section dir ".css" <> blobPath section dir ".js"
    /\ legacySectionMeta section dir !! "stylesUrl" = section !! "stylesUrl"
    /\ (forall k, legacySectionMeta section dir !! k
                  = Some (JStr (blobPath section dir ".js")) ->
                  section !! k = Some (JStr (blobPath section dir ".js"))).
Proof.
  intros Hsec Ts Ty Hs Hy Hdec.
  destruct (decoded_or_default (get section "template") Hdec) as [ct Ht].
  destruct (saveLegacySectionFiles_ok section dir metadata sections w cs cy ct
              Hsec (fun _ => Hs) (fun _ => Hy) Ht) as (w' & Hrun & F).
  exists w'. split; [exact Hrun |].
  split; [read_file F |].
  split; [read_file F |].
  split; [now apply meta_scriptUrl_styles |].
  split; [apply blobPath_neq; discriminate |].
  split.
  { apply meta_other. cbn. intros Hk.
    repeat (destruct Hk as [Hk | Hk]; [discriminate |]). exact Hk. }
  intros k. now apply meta_no_js_reference.
Qed.

End LegacySectionClaims.

Lemma legacy_section_metadata_witness :
  ui_sections (with_sections shapelessDef []) = Some []
  /\ (forall f, In f ["script"; "styles"; "template"] ->
                truthy (get styledSection f) = true ->
                exists s, @fromBase64 plainUtils (get styledSection f) = inr s)
  /\ exists w',
       @saveLegacySectionFiles plainUtils plainJson styledSection "tab/A"
         (with_sections shapelessDef []) emptyWorld
       = Ok (with_sections shapelessDef [legacySectionMeta styledSection "tab/A"]) w'
       /\ legacySectionMeta styledSection "tab/A" !! "script" = None.
Proof.
  assert (Hdec : forall f, In f ["script"; "styles"; "template"] ->
                 truthy (get styledSection f) = true ->
                 exists s, @fromBase64 plainUtils (get styledSection f) = inr s).
  { intros f [<- | [<- | [<- | []]]] Ht.
    - exists "js". vm_compute. reflexivity.
    - exists "css". vm_compute. reflexivity.
    - vm_compute in Ht. discriminate. }
  split; [reflexivity | split; [exact Hdec |]].
  destruct (@legacy_section_metadata plainUtils plainJson styledSection "tab/A"
              (with_sections shapelessDef []) [] emptyWorld eq_refl Hdec)
    as (w' & Hrun & Hgone & _).
  exists w'. split; [exact Hrun |].
  apply Hgone; [now left | vm_compute; reflexivity].
Defined.

(** A section whose [script] is the empty string: nothing is written
    and the metadata recorded still holds the inline [script] field. *)
Lemma empty_script_stays_inline :
  @saveLegacySectionFiles plainUtils plainJson emptyScriptSection "tab/A"
    (with_sections shapelessDef []) emptyWorld
  = Ok (with_sections shapelessDef [emptyScriptSection]) emptyWorld
  /\ emptyScriptSection !! "script" = Some (JStr "").
Proof. split; vm_compute; reflexivity. Qed.

Lemma styles_path_overwrites_scriptUrl_witness :
  ui_sections (with_sections shapelessDef []) = Some []
  /\ truthy (get styledSection "script") = true
  /\ truthy (get styledSection "styles") = true
  /\ @fromBase64 plainUtils (get styledSection "script") = inr "js"
  /\ @fromBase64 plainUtils (get styledSection "styles") = inr "css"
  /\ exists w',
       @saveLegacySectionFiles plainUtils plainJson styledSection "tab/A"
         (with_sections shapelessDef []) emptyWorld
       = Ok (with_sections shapelessDef [legacySectionMeta styledSection "tab/A"]) w'
       /\ legacySectionMeta styledSection "tab/A" !! "scriptUrl"
          = Some (JStr (blobPath styledSection "tab/A" ".css")).
Proof.
  assert (Ts : truthy (get styledSection "script") = true) by (vm_compute; reflexivity).
  assert (Ty : truthy (get styledSection "styles") = true) by (vm_compute; reflexivity).
  assert (Hs : @fromBase64 plainUtils (get styledSection "script") = inr "js")
    by (vm_compute; reflexivity).
  assert (Hy : @fromBase64 plainUtils (get styledSection "styles") = inr "css")
    by (vm_compute; reflexivity).
  assert (Ht : truthy (get styledSection "template") = true ->
               exists s, @fromBase64 plainUtils (get styledSection "template") = inr s).
  { intros T. vm_compute in T. discriminate. }
  repeat (split; [assumption || reflexivity |]).
  destruct (@styles_path_overwrites_scriptUrl plainUtils plainJson styledSection "tab/A"
              (with_sections shapelessDef []) [] emptyWorld "js" "css"
              eq_refl Ts Ty Hs Hy Ht)
    as (w' & Hrun & _ & _ & Hurl & _).
  exists w'. split; [exact Hrun | exact Hurl].
Defined.

(** ** The console is written, never read *)

Lemma sameFs_refl w : sameFs w w.
Proof. split; reflexivity. Qed.

Lemma sameRun_refl {A} (r : Res World A) : sameRun r r.
Proof. destruct r; simpl; auto using sameFs_refl. Qed.













Lemma UiElement_nested_ind (P : UiElement -> Prop) :
  (forall script styles template children,
      Forall P children -> P (mkUiElement script styles template children)) ->
  forall el, P el.
Proof.
  intros Hstep. fix IH 1. intros [script styles template children].
  apply Hstep. induction children as [| c cs IHcs]; constructor.
  - apply IH.
  - exact IHcs.
Qed.

Section ConsoleIrrelevant.
Context `{UiUtils} `{Json}.









End ConsoleIrrelevant.

(** ** Failures inside a batch *)

Lemma forEachAcc_throw {S A B} (pre post : list A) (f : A -> B -> M S B) x acc acc1 s s1 s2 e :
  forEachAcc pre f acc s = Ok acc1 s1 ->
  f x acc1 s1 = Throw e s2 ->
  forEachAcc (pre ++ x :: post) f acc s = Throw e s2.
Proof.
  intros Hpre Hx. rewrite forEachAcc_app. unfold bind. rewrite Hpre.
  simpl. unfold bind. rewrite Hx. reflexivity.
Qed.



(** ** What a run writes *)






Section LayoutFacts.
Context `{UiUtils} `{Json}.





















End LayoutFacts.

Section BatchIsolation.
Context `{UiUtils} `{Json}.


End BatchIsolation.






(** ** Definitions of no known shape *)

Section ShapeErrors.
Context `{UiUtils} `{Json}.

Lemma saveUi_shapeless fuel path ui arr w :
  ui_tabs ui = None -> ui_children ui = None ->
  exists e,
    saveUi fuel path ui arr w = Throw e w
    /\ (isLegacyDefinition ui = inl e \/ exists msg, e = TypeError msg).
Proof.
  intros Htabs Hchildren. unfold saveUi, bind, lift.
  destruct (isLegacyDefinition ui) as [e | [|]] eqn:Hdet.
  - exists e. split; [reflexivity | now left].
  - unfold ret, saveLegacyUiDefinition. rewrite Htabs.
    eexists. split; [reflexivity | right; eauto].
  - unfold ret, saveUiDefinition. rewrite Hchildren.
    eexists. split; [reflexivity | right; eauto].
Qed.

(** C5 (amended): an entry that exposes neither [tabs] nor [children]
    is not skipped. Whatever the detector answers, serializing it
    throws, either the detector's own error or the [TypeError] of the
    branch it was sent to, before anything is written for it; the
    exception leaves [pullUI]'s loops, so the entries after it in the
    document and the records after it in the batch are not processed. *)
Theorem shapeless_definition_aborts (fuel : nat) (sourcepath : string) (dumpAll : bool)
    (namesMap : obj) (pm : ProductModel) (content : string)
    (pre post : list UiDef) (ui : UiDef) (acc : list string) (arr : list UiDef)
    (w w1 : World) :
  JSON_parse content = inr (ParsedArray (pre ++ ui :: post)) ->
  ui_tabs ui = None -> ui_children ui = None ->
  includeUiName_pullUI dumpAll namesMap (Name pm) ui = true ->
  forEachAcc pre (fun ui legacyMetadataArray =>
                    if negb (includeUiName_pullUI dumpAll namesMap (Name pm) ui)
                    then ret legacyMetadataArray
                    else saveUi fuel (sourcepath +:+ "/" +:+ Name pm) ui legacyMetadataArray)
             [] w = Ok arr w1 ->
  exists e,
    (isLegacyDefinition ui = inl e \/ exists msg, e = TypeError msg)
    /\ pullRecord fuel sourcepath dumpAll namesMap (pm, content) acc w = Throw e w1
    /\ forall before after acc0 w0,
         forEachAcc before (pullRecord fuel sourcepath dumpAll namesMap) acc0 w0 = Ok acc w ->
         forEachAcc (before ++ (pm, content) :: after)
                    (pullRecord fuel sourcepath dumpAll namesMap) acc0 w0
         = Throw e w1.
Proof.
  intros Hparse Htabs Hchildren Hincl Hpre.
  destruct (saveUi_shapeless fuel (sourcepath +:+ "/" +:+ Name pm) ui arr w1
              Htabs Hchildren) as (e & Hthrow & He).
  exists e. split; [exact He |].
  assert (Hrec : pullRecord fuel sourcepath dumpAll namesMap (pm, content) acc w
                 = Throw e w1).
  { unfold pullRecord. cbn [fst snd]. rewrite Hparse.
    unfold bind at 1.
    rewrite (forEachAcc_throw pre post _ ui [] arr w w1 w1 e Hpre); [reflexivity |].
    rewrite Hincl. exact Hthrow. }
  split; [exact Hrec |].
  intros before after acc0 w0 Hbefore.
  now apply (forEachAcc_throw before after _ (pm, content) acc0 acc w0 w w1 e).
Qed.

End ShapeErrors.

Lemma shapeless_definition_aborts_witness :
  @JSON_parse plainJson "[Odd,Form]" = inr (ParsedArray ([] ++ shapelessDef :: [formDef]))
  /\ ui_tabs shapelessDef = None
  /\ ui_children shapelessDef = None
  /\ includeUiName_pullUI true ∅ (Name recordM4) shapelessDef = true
  /\ exists e,
       @pullRecord plainUtils plainJson 8 "src" true ∅ (recordM4, "[Odd,Form]") []
         emptyWorld
       = Throw e emptyWorld.
Proof.
  repeat (split; [reflexivity |]).
  destruct (@shapeless_definition_aborts plainUtils plainJson 8 "src" true ∅ recordM4
              "[Odd,Form]" [] [formDef] shapelessDef [] [] emptyWorld emptyWorld
              eq_refl eq_refl eq_refl eq_refl eq_refl)
    as (e & _ & Hrec & _).
  exists e. exact Hrec.
Defined.

(** A document whose first entry has no [tabs], [sections] or
    [children], with the detector of the design document: the pull
    ends with the detector's exception, and the well-formed entry after
    it is not written. *)
Lemma shapeless_definition_stops_the_pull :
  @pullUI plainUtils plainJson demoRemote 8 "src" false ["M4"] emptyWorld
  = Throw (Error "unrecognized definition shape") emptyWorld
  /\ readFile emptyWorld "src/M4/Form/metadata.json" = None.
Proof. split; vm_compute; reflexivity. Qed.

(** ** Elements without a name *)

(** C3 (the code at the failing input): an element whose script
    decodes to a text without a name gets the directory [undefined],
    its script and its subtree are written there; it is left out of
    the names of [metadata.json], and the elements beside it are
    written. *)
Theorem unnamed_element_is_written :
  let w := final (@saveUiDefinition plainUtils plainJson formDef "src/M1/Form" emptyWorld) in
  existsb (String.eqb "src/M1/Form/undefined") (dirs w) = true
  /\ readFile w "src/M1/Form/undefined/script.ts" = Some "no name here"
  /\ readFile w "src/M1/Form/undefined/Button/script.ts" = Some "Button:code"
  /\ readFile w "src/M1/Form/metadata.json" = Some ("Button,Input" +:+ newline)
  /\ readFile w "src/M1/Form/Button/script.ts" = Some "Button:code"
  /\ readFile w "src/M1/Form/Input/script.ts" = Some "Input:code".
Proof. vm_compute. repeat split; reflexivity. Qed.

(** ** What a run returns *)

Lemma forEachAcc_inv_throw {S A B} (l : list A) (f : A -> B -> M S B) :
  forall acc s e s',
    forEachAcc l f acc s = Throw e s' ->
    exists before x after acc1 s1,
      l = before ++ x :: after
      /\ forEachAcc before f acc s = Ok acc1 s1
      /\ f x acc1 s1 = Throw e s'.
Proof.
  induction l as [| x l IH]; intros acc s e s' Hrun; simpl in Hrun.
  - discriminate.
  - unfold bind in Hrun. destruct (f x acc s) as [acc1 s1 | e1 s1] eqn:Hx.
    + destruct (IH acc1 s1 e s' Hrun) as (before & y & after & acc2 & s2 & -> & Hb & Hy).
      exists (x :: before), y, after, acc2, s2. split; [reflexivity |].
      split; [| exact Hy]. simpl. unfold bind. rewrite Hx. exact Hb.
    + injection Hrun as <- <-.
      exists [], x, l, acc, s. repeat split. exact Hx.
Qed.

Lemma set_add_In x s n : In n (set_add x s) <-> n = x \/ In n s.
Proof.
  unfold set_add. case_bool_decide as Hx.
  - apply list_elem_of_In in Hx. split; [now right |].
    intros [-> | Hn]; assumption.
  - rewrite in_app_iff. simpl. intuition.
Qed.

Section PullOutcome.
Context `{UiUtils} `{Json} `{PullRemote}.

Lemma pullRecord_names fuel sourcepath dumpAll namesMap entry acc w out w' :
  pullRecord fuel sourcepath dumpAll namesMap entry acc w = Ok out w' ->
  out = match JSON_parse (snd entry) with
        | inl _ => acc
        | inr _ => set_add (Name (fst entry)) acc
        end.
Proof.
  unfold pullRecord. destruct (JSON_parse (snd entry)) as [e | p].
  - unfold bind, console_log, ret. intros E. now injection E as <- _.
  - unfold bind at 1.
    match goal with
    | |- match ?m w with _ => _ end = _ -> _ => destruct (m w) as [arr w1 | e1 w1]
    end; [| discriminate].
    unfold bind, ret.
    match goal with
    | |- match ?m w1 with _ => _ end = _ -> _ => destruct (m w1) as [[] w2 | e2 w2]
    end; [| discriminate].
    intros E. now injection E as <- _.
Qed.

Lemma forEachAcc_pullRecord_names fuel sourcepath dumpAll namesMap contents :
  forall acc w out w',
    forEachAcc contents (pullRecord fuel sourcepath dumpAll namesMap) acc w = Ok out w' ->
    out = parsedNames contents acc.
Proof.
  induction contents as [| entry contents IH]; intros acc w out w' Hrun; simpl in Hrun.
  - now injection Hrun as <- _.
  - unfold bind in Hrun.
    destruct (pullRecord fuel sourcepath dumpAll namesMap entry acc w)
      as [acc1 w1 | e1 w1] eqn:Hentry; [| discriminate].
    apply pullRecord_names in Hentry. subst acc1.
    apply IH in Hrun. exact Hrun.
Qed.

Lemma parsedNames_In contents : forall acc n,
  In n (parsedNames contents acc)
  <-> In n acc
      \/ exists entry, In entry contents /\ Name (fst entry) = n
                       /\ exists p, JSON_parse (snd entry) = inr p.
Proof.
  induction contents as [| entry contents IH]; intros acc n; simpl.
  - split; [now left |]. intros [Hn | (entry & [] & _)]. exact Hn.
  - unfold parsedNames in IH |- *. simpl. rewrite IH.
    destruct (JSON_parse (snd entry)) as [e | p] eqn:Hp.
    + split.
      * intros [Hn | (en & Hen & Hname & Hparse)]; [now left |].
        right. exists en. auto.
      * intros [Hn | (en & [<- | Hen] & Hname & p & Hparse)]; [now left | |].
        -- rewrite Hp in Hparse. discriminate.
        -- right. exists en. eauto.
    + rewrite set_add_In. split.
      * intros [[-> | Hn] | (en & Hen & Hname & Hparse)].
        -- right. exists entry. eauto.
        -- now left.
        -- right. exists en. auto.
      * intros [Hn | (en & [<- | Hen] & Hname & Hparse)].
        -- left. now right.
        -- left. left. now symmetry.
        -- right. exists en. auto.
Qed.

Lemma promiseAll_fetch pms : forall w : World,
  match promiseAll pms (fun productModel =>
          content <- lift (fetchDocumentAttachment
                             (VELOCPQ__UiDefinitionsId__c productModel)) ;;
          ret (productModel, content)) w with
  | Ok contents w' =>
      w' = w /\ map fst contents = pms
      /\ Forall (fun entry =>
                   fetchDocumentAttachment (VELOCPQ__UiDefinitionsId__c (fst entry))
                   = inr (snd entry)) contents
  | Throw e w' =>
      w' = w /\ exists pm, In pm pms
                           /\ fetchDocumentAttachment (VELOCPQ__UiDefinitionsId__c pm) = inl e
  end.
Proof.
  induction pms as [| pm pms IH]; intros w.
  - simpl. unfold ret. repeat split. constructor.
  - cbn [promiseAll]. specialize (IH w).
    unfold bind at 1. unfold bind at 1. cbn beta.
    destruct (fetchDocumentAttachment (VELOCPQ__UiDefinitionsId__c pm)) as [e | c] eqn:Hc.
    + cbn [lift]. unfold throw.
      split; [reflexivity |]. exists pm. split; [now left | exact Hc].
    + cbn [lift]. unfold ret at 1 2.
      unfold bind at 1.
      match goal with
      | |- match (match ?m with _ => _ end) with _ => _ end => destruct m as [cs w1 | e w1]
      end.
      * unfold ret. destruct IH as (-> & Hmap & Hall).
        split; [reflexivity |]. split; [cbn; now rewrite Hmap |].
        constructor; assumption.
      * destruct IH as (-> & pm' & Hin & Hf). split; [reflexivity |].
        exists pm'. split; [now right | exact Hf].
Qed.

(** C9 (amended, the pull): a pull that completes returns the fetched
    records as [uiRecords] and, as [uiPmsToDump], the names of the
    records whose content parsed; a record whose content failed to
    parse is in [uiRecords] only. A pull that does not complete ends
    with the exception of a fetch or of the first record whose
    processing threw. *)
Theorem pull_reports_parsed_records (fuel : nat) (sourcepath : string) (dumpAll : bool)
    (uisToDump : list string) (w : World) :
  let modelNames :=
    if dumpAll then None
    else Some (map (fun ui => to_string (at_index (split ":" ui) 0)) uisToDump) in
  let step := pullRecord fuel sourcepath dumpAll (uiDefNamesMap uisToDump) in
  match pullUI fuel sourcepath dumpAll uisToDump w with
  | Ok r w' =>
      exists contents,
        fetchProductModels dumpAll modelNames = inr (uiRecords r)
        /\ map fst contents = uiRecords r
        /\ Forall (fun entry =>
                     fetchDocumentAttachment (VELOCPQ__UiDefinitionsId__c (fst entry))
                     = inr (snd entry)) contents
        /\ forEachAcc contents step [] w = Ok (uiPmsToDump r) w'
        /\ uiPmsToDump r = parsedNames contents []
        /\ forall n, In n (uiPmsToDump r)
                     <-> exists entry, In entry contents /\ Name (fst entry) = n
                                       /\ exists p, JSON_parse (snd entry) = inr p
  | Throw e w' =>
      fetchProductModels dumpAll modelNames = inl e
      \/ (exists pm, fetchDocumentAttachment (VELOCPQ__UiDefinitionsId__c pm) = inl e)
      \/ exists before entry after acc1 w1,
           forEachAcc before step [] w = Ok acc1 w1
           /\ step entry acc1 w1 = Throw e w'
           /\ fetchProductModels dumpAll modelNames
              = inr (map fst (before ++ entry :: after))
  end.
Proof.
  intros modelNames step. unfold pullUI. fold modelNames. fold step.
  unfold bind at 1.
  destruct (fetchProductModels dumpAll modelNames) as [e | pms] eqn:Hpms.
  - cbn [lift]. unfold throw. now left.
  - cbn [lift]. unfold ret at 1. unfold bind at 1.
    pose proof (promiseAll_fetch pms w) as Hfetch.
    match goal with
    | |- match (match ?m with _ => _ end) with _ => _ end =>
        destruct m as [contents w1 | e w1]
    end.
    + destruct Hfetch as (-> & Hmap & Hall).
      unfold bind at 1.
      destruct (forEachAcc contents step [] w) as [names w2 | e w2] eqn:Hrun.
      * unfold ret. cbn [uiRecords uiPmsToDump]. exists contents.
        pose proof (forEachAcc_pullRecord_names _ _ _ _ _ _ _ _ _ Hrun) as Hnames.
        repeat split; try assumption.
        -- rewrite Hnames, parsedNames_In. intros [[] | Hex]. exact Hex.
        -- rewrite Hnames, parsedNames_In. intros Hex. now right.
      * right. right.
        destruct (forEachAcc_inv_throw _ _ _ _ _ _ Hrun)
          as (before & entry & after & acc1 & s1 & -> & Hb & Hx).
        exists before, entry, after, acc1, s1. repeat split; try assumption.
        now rewrite Hmap.
    + destruct Hfetch as (-> & pm & _ & Hf). right. left. eauto.
Qed.

End PullOutcome.

Example pull_three_records :
  exists w,
    @pullUI plainUtils plainJson demoRemote 8 "src" false ["M1"; "M2"; "M3"] emptyWorld
    = Ok (mkUiReturn [recordM1; recordM2; recordM3] ["M1"; "M3"]) w
    /\ console w = ["Failed to parse document content: M2"].
Proof. eexists. split; vm_compute; reflexivity. Qed.

(** A push of two records, one updated and one created: the value
    returned names neither. *)
Lemma push_return_names_no_record :
  match @pushUI DemoStore demoPushRemote demoBuilder plainJson storeZlib
          "src" true [] demoStore with
  | Ok r s => push_uiRecords r = [] /\ uiPmsToUpload r = []
              /\ map fst (documents s) = ["doc1"; "d-M3"]
  | Throw _ _ => False
  end.
Proof. vm_compute. repeat split; reflexivity. Qed.

(** ** The push *)






Section PushFacts.
Context {Store : Type} `{PushRemote Store} `{UiDefinitionsBuilder} `{Json} `{Zlib}.



(** With no record to push the folder is still looked up, and created
    when it is missing; no document is fetched, updated or created. *)
Theorem push_of_no_record (sourcepath : string) (pushAll : bool)
    (uisToUpload : list string) (s s1 : Store) :
  fetchProductModelsByName pushAll uisToUpload s = Ok [] s1 ->
  pushUI sourcepath pushAll uisToUpload s
  = (resolveFolder ;;; ret (mkPushReturn [] [])) s1.
Proof.
  intros Hpms. unfold pushUI. unfold bind at 1. rewrite Hpms.
  unfold bind. destruct (resolveFolder s1); reflexivity.
Qed.

End PushFacts.



(** Two records that refer to one document that does not exist yet:
    both lookups come before the first creation, so both records create
    a document. *)
Example push_two_records_one_reference :
  map fst (documents
             (final (@pushUI DemoStore demoPushRemote demoBuilder plainJson storeZlib
                       "src" true []
                       (mkDemoStore [recordM3; recordM3] [] []))))
  = ["d-M3"; "d-M3"].
Proof. vm_compute. reflexivity. Qed.

Lemma push_of_no_record_witness :
  @pushUI DemoStore demoPushRemote demoBuilder plainJson storeZlib
    "src" false ["M9"] demoStore
  = Ok (mkPushReturn [] []) demoStoreWithFolder.
Proof.
  rewrite (@push_of_no_record DemoStore demoPushRemote demoBuilder plainJson storeZlib
             "src" false ["M9"] demoStore demoStore eq_refl).
  reflexivity.
Defined.

(** ** The two inclusion filters *)

Lemma split_nonempty sep s : split sep s <> [].
Proof.
  destruct s as [| c s]; simpl; [discriminate |].
  destruct (Ascii.eqb c sep); [discriminate |].
  destruct (split sep s); discriminate.
Qed.

Lemma at_index_head (l : list string) :
  l <> [] -> exists m, at_index l 0 = JStr m.
Proof. destruct l as [| m l]; [contradiction | intros _; exists m; reflexivity]. Qed.

(** The reduce of [uiDefNamesMap] over the pieces of the entries. *)
Lemma uiDefNamesMap_fold uis :
  uiDefNamesMap uis
  = fold_left (fun acc parts =>
                 assignProp acc (to_string (at_index parts 0)) (at_index parts 1))
              (map (split ":") uis) ∅.
Proof.
  unfold uiDefNamesMap. generalize (∅ : obj).
  induction uis as [| ui uis IH]; intros acc; simpl; [reflexivity | apply IH].
Qed.

Lemma namesMap_no_entry (Name : string) (entries : list (list string)) :
  Forall (fun l => l <> []) entries ->
  List.filter (fun l => strict_eq (at_index l 0) (JStr Name)) entries = [] ->
  forall acc : obj,
    fold_left (fun acc parts =>
                 assignProp acc (to_string (at_index parts 0)) (at_index parts 1))
              entries acc
    !! Name = acc !! Name.
Proof.
  induction 1 as [| l entries Hl _ IH]; intros Hnone acc; simpl in *.
  - reflexivity.
  - destruct (at_index_head l Hl) as [m Hm]. rewrite Hm in Hnone |- *.
    simpl in Hnone |- *.
    destruct (String.eqb m Name) eqn:E; [discriminate |].
    rewrite IH by assumption.
    apply String.eqb_neq in E. unfold assignProp.
    destruct (String.eqb m "__proto__"); [reflexivity |].
    now rewrite lookup_insert_ne.
Qed.

Lemma namesMap_one_entry (Name : string) (entries : list (list string)) l0 :
  Forall (fun l => l <> []) entries ->
  List.filter (fun l => strict_eq (at_index l 0) (JStr Name)) entries = [l0] ->
  Name <> "__proto__" ->
  forall acc : obj,
    getProp (fold_left (fun acc parts =>
                          assignProp acc (to_string (at_index parts 0)) (at_index parts 1))
                       entries acc)
            Name
    = at_index l0 1.
Proof.
  induction 1 as [| l entries Hl Hall IH]; intros Hone Hproto acc; simpl in *.
  - discriminate.
  - destruct (at_index_head l Hl) as [m Hm]. rewrite Hm in Hone |- *.
    simpl in Hone |- *.
    destruct (String.eqb m Name) eqn:E.
    + injection Hone as -> Hnone.
      apply String.eqb_eq in E. subst m.
      unfold getProp. rewrite namesMap_no_entry by assumption.
      unfold assignProp. apply String.eqb_neq in Hproto. rewrite Hproto.
      now rewrite lookup_insert_eq.
    + now apply IH.
Qed.

Lemma members_one_entry (Name : string) (members entries : list (list string)) l0 :
  Forall2 (fun m l => at_index m 1 = at_index l 0 /\ at_index m 2 = at_index l 1)
          members entries ->
  List.filter (fun l => strict_eq (at_index l 0) (JStr Name)) entries = [l0] ->
  exists m0,
    List.filter (fun m => strict_eq (at_index m 1) (JStr Name)) members = [m0]
    /\ at_index m0 2 = at_index l0 1.
Proof.
  induction 1 as [| m l members entries [H1 H2] Hall IH]; intros Hone; simpl in *.
  - discriminate.
  - rewrite H1. destruct (strict_eq (at_index l 0) (JStr Name)).
    + injection Hone as -> Hnone. exists m. split; [| exact H2].
      f_equal. clear IH. induction Hall as [| m' l' ms ls [H1' _] _ IH']; simpl in *;
        [reflexivity |].
      rewrite H1'. destruct (strict_eq (at_index l' 0) (JStr Name)); [discriminate |].
      now apply IH'.
    + now apply IH.
Qed.

(** Where the two filters do agree: when every definition is to be
    dumped ([dumpAll] on one side, no [members] flag on the other) and,
    with a specification, for a record other than [__proto__] that
    exactly one [model:definition] entry names, the [ui] members of the
    CLI carrying the same pairs in the same order. *)
Theorem inclusion_filters_agree (uisToDump : list string) (members : option string)
    (Member_ui : string) (Name : string) (ui : UiDef) :
  let entries := map (split ":") uisToDump in
  let uiDefMembers := getMembersByTypes members [Member_ui] in
  truthy (opt_val members) = true ->
  Forall2 (fun m l => at_index m 1 = at_index l 0 /\ at_index m 2 = at_index l 1)
          uiDefMembers entries ->
  length (List.filter (fun l => strict_eq (at_index l 0) (JStr Name)) entries) = 1 ->
  Name <> "__proto__" ->
  includeUiName_pullUI false (uiDefNamesMap uisToDump) Name ui
  = includeUiName_Pull members uiDefMembers Name ui
  /\ forall namesMap anyMembers,
       includeUiName_pullUI true namesMap Name ui
       = includeUiName_Pull None anyMembers Name ui.
Proof.
  intros entries uiDefMembers Hflag Hpairs Hone Hproto. split; [| reflexivity].
  destruct (List.filter (fun l => strict_eq (at_index l 0) (JStr Name)) entries)
    as [| l0 [| l1 rest]] eqn:Hfilter; try discriminate.
  assert (Hne : Forall (fun l : list string => l <> []) entries).
  { unfold entries. apply List.Forall_forall. intros l Hl.
    apply in_map_iff in Hl as (u & <- & _). apply split_nonempty. }
  destruct (members_one_entry Name uiDefMembers entries l0 Hpairs Hfilter)
    as (m0 & Hm0 & Hdef).
  unfold includeUiName_pullUI, includeUiName_Pull.
  rewrite Hflag, Hm0, uiDefNamesMap_fold.
  fold entries. rewrite (namesMap_one_entry Name entries l0 Hne Hfilter Hproto).
  cbn [existsb negb orb]. rewrite Hdef. now rewrite orb_false_r.
Qed.

Lemma inclusion_filters_agree_witness :
  truthy (opt_val (Some "ui:M1:Form")) = true
  /\ Forall2 (fun m l => at_index m 1 = at_index l 0 /\ at_index m 2 = at_index l 1)
             (getMembersByTypes (Some "ui:M1:Form") ["ui"])
             (map (split ":") ["M1:Form"])
  /\ length (List.filter (fun l => strict_eq (at_index l 0) (JStr "M1"))
                         (map (split ":") ["M1:Form"])) = 1
  /\ "M1" <> "__proto__"
  /\ includeUiName_pullUI false (uiDefNamesMap ["M1:Form"]) "M1" formDef
     = includeUiName_Pull (Some "ui:M1:Form")
         (getMembersByTypes (Some "ui:M1:Form") ["ui"]) "M1" formDef.
Proof.
  assert (Hpairs :
            Forall2 (fun m l => at_index m 1 = at_index l 0 /\ at_index m 2 = at_index l 1)
                    (getMembersByTypes (Some "ui:M1:Form") ["ui"])
                    (map (split ":") ["M1:Form"])).
  { vm_compute. repeat constructor. }
  assert (Hproto : "M1" <> "__proto__") by discriminate.
  split; [reflexivity | split; [exact Hpairs | split; [reflexivity | split; [exact Hproto |]]]].
  exact (proj1 (inclusion_filters_agree ["M1:Form"] (Some "ui:M1:Form") "ui" "M1" formDef
                  eq_refl Hpairs eq_refl Hproto)).
Defined.

(** C8: the two filters are not equivalent. For the record [M1] named
    by the two entries [M1:Form] and [M1:Other], [pullUI] keeps the last
    pair only in [uiDefNamesMap] and leaves the definition [Form] out,
    while the CLI command, whose members carry the same two pairs,
    includes it. *)
Theorem inclusion_filters_differ :
  includeUiName_pullUI false (uiDefNamesMap ["M1:Form"; "M1:Other"]) "M1" formDef = false
  /\ includeUiName_Pull (Some "ui:M1:Form,ui:M1:Other")
       (getMembersByTypes (Some "ui:M1:Form,ui:M1:Other") ["ui"]) "M1" formDef
     = true.
Proof. split; vm_compute; reflexivity. Qed.

(** A record named [__proto__]: the assignment in the reduce sets no
    field and the lookup answers the prototype, so [pullUI] leaves out
    the definition the entry asks for; the CLI command includes it. *)
Example proto_record_is_excluded :
  includeUiName_pullUI false (uiDefNamesMap ["__proto__:Form"]) "__proto__" formDef = false
  /\ includeUiName_Pull (Some "ui:__proto__:Form")
       (getMembersByTypes (Some "ui:__proto__:Form") ["ui"]) "__proto__" formDef
     = true.
Proof. split; vm_compute; reflexivity. Qed.

(** * Further properties of the serializer *)

Section Elements.
Context `{UiUtils} `{Json}.

(** An element without a script, with an empty one, or with one that
    decodes to the empty text is skipped with its subtree: nothing is
    written and no name is returned. *)
Theorem saveElement_without_script (el : UiElement) (path : string) (w : World) :
  el_script el = None \/ el_script el = Some ""
  \/ fromBase64 (opt_val (el_script el)) = inr "" ->
  saveElement el path w = Ok JUndefined w.
Proof.
  intros Hs. destruct el as [script styles template children].
  cbn [saveElement el_script] in *. unfold bind at 1.
  destruct Hs as [-> | [-> | Hs]]; [reflexivity | reflexivity |].
  destruct (truthy (opt_val script)) eqn:Ht.
  - rewrite Hs. reflexivity.
  - destruct script as [s |]; [| reflexivity].
    simpl in Ht. destruct (String.eqb s "") eqn:E; [| discriminate].
    apply String.eqb_eq in E. subst s. reflexivity.
Qed.






End Elements.


Lemma saveElement_without_script_witness :
  (el_script scriptlessElement = None \/ el_script scriptlessElement = Some ""
   \/ @fromBase64 plainUtils (opt_val (el_script scriptlessElement)) = inr "")
  /\ @saveElement plainUtils scriptlessElement "src/M3/Quiet" emptyWorld
     = Ok JUndefined emptyWorld.
Proof.
  split; [now left |].
  apply (@saveElement_without_script plainUtils scriptlessElement "src/M3/Quiet" emptyWorld).
  now left.
Defined.


Lemma reach_In sections parentId path c p :
  reach sections parentId path c p -> In c sections.
Proof. induction 1; assumption. Qed.

Lemma forEachAcc_must_throw {S A B} (l : list A) (f : A -> B -> M S B) x :
  In x l ->
  (forall acc s, exists e s', f x acc s = Throw e s') ->
  forall acc s, exists e s', forEachAcc l f acc s = Throw e s'.
Proof.
  intros Hin Hx. induction l as [| y l IH]; [destruct Hin |].
  intros acc s. cbn [forEachAcc]. unfold bind.
  destruct Hin as [-> | Hin].
  - destruct (Hx acc s) as (e & s' & ->). eauto.
  - destruct (f y acc s) as [acc1 s1 | e s1]; [now apply IH | eauto].
Qed.

Section LegacyRecords.
Context `{UiUtils} `{Json}.

Lemma visits_record (l : list (obj * string)) :
  Forall (fun v => blobsDecode (fst v)) l ->
  forall metadata recorded w,
    ui_sections metadata = Some recorded ->
    exists w',
      forEachAcc l visit metadata w
      = Ok (with_sections metadata (recorded ++ visitMetas l)) w'.
Proof.
  induction 1 as [| v l Hv _ IH]; intros metadata recorded w Hrec.
  - exists w. cbn. rewrite app_nil_r.
    destruct metadata as [fs ts ss cs]. cbn in Hrec. subst ss. reflexivity.
  - assert (Hs := decoded_or_default (get (fst v) "script")
                    (Hv "script" (or_introl eq_refl))).
    assert (Hy := decoded_or_default (get (fst v) "styles")
                    (Hv "styles" (or_intror (or_introl eq_refl)))).
    assert (Htp := decoded_or_default (get (fst v) "template")
                     (Hv "template" (or_intror (or_intror (or_introl eq_refl))))).
    destruct Hs as [cs Hs], Hy as [cy Hy], Htp as [ct Htp].
    destruct (saveLegacySectionFiles_ok (fst v) (snd v) metadata recorded w cs cy ct
                Hrec Hs Hy Htp) as (w1 & Hrun & _).
    destruct (IH (with_sections metadata (recorded ++ [legacySectionMeta (fst v) (snd v)]))
                 (recorded ++ [legacySectionMeta (fst v) (snd v)]) w1 eq_refl)
      as (w2 & Hrest).
    exists w2. cbn [forEachAcc]. unfold bind. unfold visit at 1. rewrite Hrun.
    rewrite Hrest. unfold with_sections. cbn.
    unfold visitMetas. cbn [map]. now rewrite <- app_assoc.
Qed.

Lemma sections_record (fuel : nat) (sections : list obj) (path : string)
    (parentId : jsval) (l : list (obj * string)) (metadata : UiDef)
    (recorded : list obj) (w : World) :
  (forall c, In c sections -> blobsDecode c) ->
  legacyVisits fuel sections path parentId = Some l ->
  ui_sections metadata = Some recorded ->
  exists w',
    saveLegacySections fuel sections path metadata parentId w
    = Ok (with_sections metadata (recorded ++ visitMetas l)) w'.
Proof.
  intros Hdec Hl Hrec.
  destruct (visits_record l) with (metadata := metadata) (recorded := recorded) (w := w)
    as (w' & Hrun); [| exact Hrec |].
  - apply List.Forall_forall. intros [c p] Hin. cbn.
    apply Hdec. eapply reach_In. eapply legacyVisits_sound; eauto.
  - exists w'. rewrite <- Hrun. now apply saveLegacySections_visits.
Qed.

(** The metadata a run of [saveLegacySections] records is that of the
    sections it visits, in the order of the visits: parent first, then
    its subtree, then the next sibling, whatever the order of the
    section list. A section that does not hang in the tree is not
    recorded. *)
Theorem legacy_metadata_in_visit_order (fuel : nat) (sections : list obj)
    (path : string) (parentId : jsval) (l : list (obj * string))
    (metadata : UiDef) (recorded : list obj) (w : World) :
  (forall c, In c sections -> blobsDecode c) ->
  legacyVisits fuel sections path parentId = Some l ->
  ui_sections metadata = Some recorded ->
  (exists w',
      saveLegacySections fuel sections path metadata parentId w
      = Ok (with_sections metadata (recorded ++ visitMetas l)) w')
  /\ (forall c p, In (c, p) l <-> reach sections parentId path c p).
Proof.
  intros Hdec Hl Hrec. split.
  - now apply sections_record.
  - intros c p. split.
    + now apply legacyVisits_sound with (fuel := fuel) (l := l).
    + intros Hr. now apply (legacyVisits_complete _ _ _ _ _ Hr fuel l).
Qed.

(** A root section that has no [id] is its own child (both sides of
    [s.parentId === c.id] are [undefined]): whatever the depth of stack
    available, [saveLegacySections] does not return but ends with an
    exception. *)
Theorem idless_root_never_returns (fuel : nat) (sections : list obj) (s : obj) :
  In s sections ->
  get s "parentId" = JUndefined ->
  get s "id" = JUndefined ->
  forall path metadata w, exists e w',
    saveLegacySections fuel sections path metadata JUndefined w = Throw e w'.
Proof.
  intros Hin Hparent Hid.
  induction fuel as [| fuel IH]; intros path metadata w.
  - eexists _, _. reflexivity.
  - cbn [saveLegacySections].
    apply forEachAcc_must_throw with (x := s).
    + apply filter_In. split; [exact Hin |]. now rewrite Hparent.
    + intros acc w0. unfold bind.
      destruct (saveLegacySectionFiles s _ acc w0) as [m1 w1 | e w1]; [| eauto].
      rewrite Hid. apply IH.
Qed.


End LegacyRecords.

Lemma example_sections_decode (c : obj) :
  In c [sectionB; sectionA; sectionC; onPage 1 sectionB; onPage 1 sectionA;
        onPage 2 sectionC] ->
  @blobsDecode plainUtils c.
Proof.
  intros Hc f Hf Ht. exfalso.
  repeat (destruct Hc as [<- | Hc];
          [repeat (destruct Hf as [<- | Hf]; [vm_compute in Ht; discriminate |]);
           destruct Hf |]).
  destruct Hc.
Defined.

Lemma legacy_metadata_in_visit_order_witness :
  (forall c, In c [sectionB; sectionA; sectionC] -> @blobsDecode plainUtils c)
  /\ legacyVisits 4 [sectionB; sectionA; sectionC] "tab" JUndefined
     = Some [(sectionA, "tab/A"); (sectionB, "tab/A/B"); (sectionC, "tab/A/B/C")]
  /\ ui_sections (with_sections shapelessDef []) = Some []
  /\ exists w',
       @saveLegacySections plainUtils plainJson 4 [sectionB; sectionA; sectionC] "tab"
         (with_sections shapelessDef []) JUndefined emptyWorld
       = Ok (with_sections (with_sections shapelessDef [])
               ([] ++ visitMetas [(sectionA, "tab/A"); (sectionB, "tab/A/B");
                                  (sectionC, "tab/A/B/C")])) w'.
Proof.
  assert (Hdec : forall c, In c [sectionB; sectionA; sectionC] -> @blobsDecode plainUtils c).
  { intros c Hc. apply example_sections_decode.
    destruct Hc as [<- | [<- | [<- | []]]]; simpl; tauto. }
  assert (Hl : legacyVisits 4 [sectionB; sectionA; sectionC] "tab" JUndefined
               = Some [(sectionA, "tab/A"); (sectionB, "tab/A/B"); (sectionC, "tab/A/B/C")])
    by (vm_compute; reflexivity).
  split; [exact Hdec | split; [exact Hl | split; [reflexivity |]]].
  exact (proj1 (@legacy_metadata_in_visit_order plainUtils plainJson 4
                  [sectionB; sectionA; sectionC] "tab" JUndefined _
                  (with_sections shapelessDef []) [] emptyWorld Hdec Hl eq_refl)).
Defined.

Lemma idless_root_never_returns_witness :
  In idlessSection [idlessSection]
  /\ get idlessSection "parentId" = JUndefined
  /\ get idlessSection "id" = JUndefined
  /\ exists e w',
       @saveLegacySections plainUtils plainJson 1000 [idlessSection] "tab"
         (with_sections shapelessDef []) JUndefined emptyWorld
       = Throw e w'.
Proof.
  split; [now left | split; [reflexivity | split; [reflexivity |]]].
  apply (@idless_root_never_returns plainUtils plainJson 1000 [idlessSection]
           idlessSection (or_introl eq_refl) eq_refl eq_refl).
Defined.



(** * Further properties of the pull *)

(** Entries that do not name [Name] leave what [uiDefNamesMap] holds
    for [Name] as it was. *)
Lemma uiDefNamesMap_other (uis : list string) (Name : string) :
  Forall (fun ui => to_string (at_index (split ":" ui) 0) <> Name) uis ->
  forall acc : obj,
    fold_left (fun acc ui =>
                 let parts := split ":" ui in
                 let modelName := to_string (at_index parts 0) in
                 let defName := at_index parts 1 in
                 assignProp acc modelName defName) uis acc !! Name
    = acc !! Name.
Proof.
  induction 1 as [| ui uis Hui _ IH]; intros acc; cbn [fold_left].
  - reflexivity.
  - rewrite IH. cbv zeta. unfold assignProp.
    destruct (String.eqb _ "__proto__"); [reflexivity |].
    now rewrite lookup_insert_ne.
Qed.

(** When several entries of [uisToDump] name one model, [pullUI] goes
    by the last of them, wherever in the list they stand: for a record
    of that name a definition is included exactly when the last entry
    naming it has no definition name or its definition name is the
    definition's name. The model name [__proto__] is excepted, as
    assigning to it sets no field. *)
Theorem last_entry_decides (before after : list string) (ui : string) (def : UiDef) :
  let modelName := to_string (at_index (split ":" ui) 0) in
  let defName := at_index (split ":" ui) 1 in
  modelName <> "__proto__" ->
  Forall (fun later => to_string (at_index (split ":" later) 0) <> modelName) after ->
  getProp (uiDefNamesMap (before ++ ui :: after)) modelName = defName
  /\ includeUiName_pullUI false (uiDefNamesMap (before ++ ui :: after)) modelName def
     = negb (truthy defName) || strict_eq defName (get (ui_fields def) "name").
Proof.
  intros modelName defName Hproto Hafter.
  assert (Hget : getProp (uiDefNamesMap (before ++ ui :: after)) modelName = defName).
  { unfold uiDefNamesMap. rewrite fold_left_app. cbn [fold_left].
    unfold getProp. rewrite (uiDefNamesMap_other after modelName Hafter).
    cbv zeta. fold modelName. fold defName. unfold assignProp.
    apply String.eqb_neq in Hproto. rewrite Hproto.
    now rewrite lookup_insert_eq. }
  split; [exact Hget |].
  unfold includeUiName_pullUI. rewrite Hget. reflexivity.
Qed.

Lemma last_entry_decides_witness :
  to_string (at_index (split ":" "M1:Other") 0) <> "__proto__"
  /\ Forall (fun later => to_string (at_index (split ":" later) 0)
                          <> to_string (at_index (split ":" "M1:Other") 0)) ["M2:X"]
  /\ getProp (uiDefNamesMap (["M1:Form"] ++ "M1:Other" :: ["M2:X"])) "M1" = JStr "Other"
  /\ includeUiName_pullUI false (uiDefNamesMap (["M1:Form"] ++ "M1:Other" :: ["M2:X"]))
       "M1" formDef
     = false.
Proof.
  assert (Hne : to_string (at_index (split ":" "M1:Other") 0) <> "__proto__")
    by (vm_compute; discriminate).
  assert (Hafter : Forall (fun later => to_string (at_index (split ":" later) 0)
                                        <> to_string (at_index (split ":" "M1:Other") 0))
                          ["M2:X"]).
  { constructor; [vm_compute; discriminate | constructor]. }
  split; [exact Hne | split; [exact Hafter |]].
  exact (last_entry_decides ["M1:Form"] ["M2:X"] "M1:Other" formDef Hne Hafter).
Defined.

(** A record that no entry names has no field in [uiDefNamesMap]. *)
Lemma unnamed_record_lookup (uisToDump : list string) (Name : string) :
  Forall (fun ui => to_string (at_index (split ":" ui) 0) <> Name) uisToDump ->
  uiDefNamesMap uisToDump !! Name = None.
Proof.
  intros Hno. unfold uiDefNamesMap.
  rewrite (uiDefNamesMap_other uisToDump Name Hno). apply lookup_empty.
Qed.

(** A record that no entry of the specification names: [pullUI]
    includes every definition of it, the CLI command, given the
    [members] flag, none. *)
Theorem unnamed_record_is_included_by_pullUI_only (dumpAll : bool)
    (uisToDump : list string) (members : option string)
    (uiDefMembers : list (list string)) (Name : string) (ui : UiDef) :
  ~ In Name objectPrototypeKeys ->
  Forall (fun entry => to_string (at_index (split ":" entry) 0) <> Name) uisToDump ->
  truthy (opt_val members) = true ->
  Forall (fun member => strict_eq (at_index member 1) (JStr Name) = false) uiDefMembers ->
  includeUiName_pullUI dumpAll (uiDefNamesMap uisToDump) Name ui = true
  /\ includeUiName_Pull members uiDefMembers Name ui = false.
Proof.
  intros Hproto Hlib Hflag Hcli. split.
  - unfold includeUiName_pullUI, getProp.
    rewrite (unnamed_record_lookup uisToDump Name Hlib).
    rewrite bool_decide_eq_false_2 by (now rewrite list_elem_of_In).
    cbn. now rewrite orb_true_r.
  - unfold includeUiName_Pull. rewrite Hflag. cbn [negb orb].
    assert (E : List.filter (fun member => strict_eq (at_index member 1) (JStr Name))
                            uiDefMembers = []).
    { induction Hcli as [| m ms Hm _ IH]; cbn [List.filter]; [reflexivity |].
      now rewrite Hm. }
    now rewrite E.
Qed.

Lemma unnamed_record_is_included_by_pullUI_only_witness :
  ~ In "M3" objectPrototypeKeys
  /\ Forall (fun entry => to_string (at_index (split ":" entry) 0) <> "M3") ["M1:Form"]
  /\ truthy (opt_val (Some "ui:M1:Form")) = true
  /\ Forall (fun member => strict_eq (at_index member 1) (JStr "M3") = false)
            (getMembersByTypes (Some "ui:M1:Form") ["ui"])
  /\ includeUiName_pullUI false (uiDefNamesMap ["M1:Form"]) "M3" quietDef = true
  /\ includeUiName_Pull (Some "ui:M1:Form") (getMembersByTypes (Some "ui:M1:Form") ["ui"])
       "M3" quietDef = false.
Proof.
  assert (H1 : ~ In "M3" objectPrototypeKeys).
  { cbn. intros Hin. repeat (destruct Hin as [Hin | Hin]; [discriminate |]). exact Hin. }
  assert (H2 : Forall (fun entry => to_string (at_index (split ":" entry) 0) <> "M3")
                      ["M1:Form"]).
  { constructor; [vm_compute; discriminate | constructor]. }
  assert (H4 : Forall (fun member => strict_eq (at_index member 1) (JStr "M3") = false)
                      (getMembersByTypes (Some "ui:M1:Form") ["ui"])).
  { vm_compute. constructor; [reflexivity | constructor]. }
  split; [exact H1 | split; [exact H2 | split; [reflexivity | split; [exact H4 |]]]].
  exact (unnamed_record_is_included_by_pullUI_only false ["M1:Form"] (Some "ui:M1:Form")
           (getMembersByTypes (Some "ui:M1:Form") ["ui"]) "M3" quietDef H1 H2 eq_refl H4).
Defined.

Section PullEdges.
Context `{UiUtils} `{Json}.

(** A document that is valid JSON but neither an array nor [null]: its
    record is not skipped like one whose content does not parse; the
    [forEach] call on the parsed value throws a [TypeError] that ends
    the pull, after the records before it and before any record after
    it. *)
Theorem non_array_document_aborts (fuel : nat) (sourcepath : string) (dumpAll : bool)
    (namesMap : obj) (before after : list (ProductModel * string)) (pm : ProductModel)
    (content : string) (acc acc1 : list string) (w w1 : World) :
  JSON_parse content = inr ParsedOther ->
  forEachAcc before (pullRecord fuel sourcepath dumpAll namesMap) acc w = Ok acc1 w1 ->
  forEachAcc (before ++ (pm, content) :: after)
             (pullRecord fuel sourcepath dumpAll namesMap) acc w
  = Throw (TypeError "uiDefs.forEach is not a function") w1.
Proof.
  intros Hparse Hbefore.
  apply (forEachAcc_throw before after _ (pm, content) acc acc1 w w1 w1 _ Hbefore).
  unfold pullRecord. cbn [fst snd]. rewrite Hparse. reflexivity.
Qed.

(** A record whose document is [null], or an array of which no
    definition passes the filter, gets no directory and no file, and
    its name is still returned in [uiPmsToDump]. *)
Theorem empty_document_is_reported (fuel : nat) (sourcepath : string) (dumpAll : bool)
    (namesMap : obj) (pm : ProductModel) (content : string) (acc : list string)
    (w : World) :
  JSON_parse content = inr ParsedNull
  \/ (exists uiDefs,
         JSON_parse content = inr (ParsedArray uiDefs)
         /\ Forall (fun ui => includeUiName_pullUI dumpAll namesMap (Name pm) ui = false)
                   uiDefs) ->
  pullRecord fuel sourcepath dumpAll namesMap (pm, content) acc w
  = Ok (set_add (Name pm) acc) w.
Proof.
  intros [Hnull | (uiDefs & Harr & Hnone)]; unfold pullRecord; cbn [fst snd].
  - rewrite Hnull. reflexivity.
  - rewrite Harr.
    assert (Hloop : forall arr w0,
               forEachAcc uiDefs (fun ui legacyMetadataArray =>
                 let includeUiName :=
                   includeUiName_pullUI dumpAll namesMap (Name pm) ui in
                 if negb includeUiName then ret legacyMetadataArray
                 else saveUi fuel (sourcepath +:+ "/" +:+ Name pm) ui legacyMetadataArray)
                 arr w0 = Ok arr w0).
    { clear Harr. induction Hnone as [| ui uis Hui _ IH]; intros arr w0; cbn [forEachAcc].
      - reflexivity.
      - cbv zeta. rewrite Hui. cbn [negb]. unfold bind, ret. apply IH. }
    unfold bind at 1. rewrite Hloop. reflexivity.
Qed.

End PullEdges.

Lemma non_array_document_aborts_witness :
  (forall content, @JSON_parse scalarJson content = inr ParsedOther)
  /\ forEachAcc ([] ++ (recordM1, "{}") :: [(recordM3, "[Quiet]")])
       (@pullRecord plainUtils scalarJson 8 "src" true ∅)
       [] emptyWorld
     = Throw (TypeError "uiDefs.forEach is not a function") emptyWorld.
Proof.
  split; [reflexivity |].
  apply (@non_array_document_aborts plainUtils
           scalarJson
           8 "src" true ∅ [] [(recordM3, "[Quiet]")] recordM1 "{}" [] [] emptyWorld
           emptyWorld eq_refl eq_refl).
Defined.

Lemma empty_document_is_reported_witness :
  (exists uiDefs,
      @JSON_parse plainJson "[Form]" = inr (ParsedArray uiDefs)
      /\ Forall (fun ui => includeUiName_pullUI false (uiDefNamesMap ["M1:Other"])
                             (Name recordM1) ui = false) uiDefs)
  /\ @pullRecord plainUtils plainJson 8 "src" false (uiDefNamesMap ["M1:Other"])
       (recordM1, "[Form]") [] emptyWorld
     = Ok (set_add (Name recordM1) []) emptyWorld.
Proof.
  assert (Hex : exists uiDefs,
             @JSON_parse plainJson "[Form]" = inr (ParsedArray uiDefs)
             /\ Forall (fun ui => includeUiName_pullUI false (uiDefNamesMap ["M1:Other"])
                                    (Name recordM1) ui = false) uiDefs).
  { exists [formDef]. split; [reflexivity |].
    constructor; [vm_compute; reflexivity | constructor]. }
  split; [exact Hex |].
  apply (@empty_document_is_reported plainUtils plainJson 8 "src" false
           (uiDefNamesMap ["M1:Other"]) recordM1 "[Form]" [] emptyWorld).
  right. exact Hex.
Defined.

(** ** Appending strings *)

Lemma append_assoc (a b c : string) : (a +:+ b) +:+ c = a +:+ (b +:+ c).
Proof.
  induction a as [| x a IH]; [reflexivity |].
  change (String x ((a +:+ b) +:+ c) = String x (a +:+ (b +:+ c))).
  f_equal. exact IH.
Qed.


(** * The rule transformation visitor *)

Lemma startsWith_includes s pat : startsWith s pat = true -> includes s pat = true.
Proof. destruct s; simpl; intros ->; reflexivity. Qed.

Lemma replace_absent pat rep s : includes s pat = false -> replace pat rep s = s.
Proof.
  induction s as [| c s IH]; cbn [includes replace]; intros Hno.
  - apply orb_false_elim in Hno as [-> _]. reflexivity.
  - apply orb_false_elim in Hno as [-> Hs]. now rewrite IH.
Qed.

Lemma replace_closing body :
  includes body "}}" = false -> replace "}}" "" (body +:+ "}}") = body.
Proof.
  induction body as [| c body IH]; intros Hno.
  - reflexivity.
  - cbn [includes] in Hno. apply orb_false_elim in Hno as [Hhere Hrest].
    change (String c body +:+ "}}") with (String c (body +:+ "}}")).
    cbn [replace].
    destruct (startsWith (String c (body +:+ "}}")) "}}") eqn:Hs.
    + cbn [startsWith] in Hs. apply andb_prop in Hs as [Hc Hnext].
      destruct body as [| d body].
      * apply Ascii.eqb_eq in Hc. subst c. reflexivity.
      * exfalso. cbn [startsWith] in Hhere.
        change (String d body +:+ "}}") with (String d (body +:+ "}}")) in Hnext.
        cbn [startsWith] in Hnext.
        rewrite Hc in Hhere. cbn [andb] in Hhere.
        apply andb_prop in Hnext as [Hd _]. rewrite Hd in Hhere. discriminate.
    + now rewrite IH.
Qed.

Section VisitorFacts.
Import RuleTransformationVisitor.
Variable RULE_transformationDeclaration RULE_script : nat.
Variable superVisit : ParserRuleContext -> RuleTransformation -> RuleTransformation.

(** On a script node [visit] hands [super.visit] a transformation
    whose [javaScript] is the text of the node without its first
    opening and its first closing braces: the body of a text
    [{{body}}] whose body holds no closing braces, and the text itself
    when it holds neither kind. *)
Theorem script_braces_are_stripped (ctx : ParserRuleContext)
    (transformation : RuleTransformation) :
  ruleIndex ctx <> RULE_transformationDeclaration ->
  ruleIndex ctx = RULE_script ->
  (forall body,
      text ctx = "{{" +:+ body +:+ "}}" -> includes body "}}" = false ->
      visit RULE_transformationDeclaration RULE_script superVisit ctx transformation
      = superVisit ctx (mkRuleTransformation (resultPath transformation)
                          (expression transformation) (Some body)))
  /\ (includes (text ctx) "{{" = false -> includes (text ctx) "}}" = false ->
      visit RULE_transformationDeclaration RULE_script superVisit ctx transformation
      = superVisit ctx (mkRuleTransformation (resultPath transformation)
                          (expression transformation) (Some (text ctx)))).
Proof.
  intros Hdecl Hscript.
  assert (Hvisit :
            visit RULE_transformationDeclaration RULE_script superVisit ctx transformation
            = superVisit ctx
                (mkRuleTransformation (resultPath transformation)
                   (expression transformation)
                   (Some (replace RIGHT_BRACES "" (replace LEFT_BRACES "" (text ctx)))))).
  { unfold visit. apply Nat.eqb_neq in Hdecl. rewrite Hdecl.
    apply Nat.eqb_eq in Hscript. now rewrite Hscript. }
  split.
  - intros body Htext Hno. rewrite Hvisit, Htext.
    change (replace LEFT_BRACES "" ("{{" +:+ body +:+ "}}")) with (body +:+ "}}").
    unfold RIGHT_BRACES. now rewrite replace_closing.
  - intros Hl Hr. rewrite Hvisit. unfold LEFT_BRACES, RIGHT_BRACES.
    now rewrite (replace_absent "{{" "" _ Hl), (replace_absent "}}" "" _ Hr).
Qed.

(** On a transformation declaration [resultPath] becomes the text of
    the first child and [expression] that of the third, except when the
    third starts with opening braces: then [expression] keeps the value
    it had. With fewer than three children [expression] is reset to
    [undefined]. *)
Theorem declaration_sets_path_and_expression (ctx : ParserRuleContext)
    (transformation : RuleTransformation) :
  ruleIndex ctx = RULE_transformationDeclaration ->
  exists expr,
    visit RULE_transformationDeclaration RULE_script superVisit ctx transformation
    = superVisit ctx (mkRuleTransformation (childText ctx 0) expr
                        (javaScript transformation))
    /\ (forall s, childText ctx 2 = Some s -> startsWith s "{{" = true ->
                  expr = expression transformation)
    /\ (forall s, childText ctx 2 = Some s -> startsWith s "{{" = false ->
                  expr = Some s)
    /\ (childText ctx 2 = None -> expr = None).
Proof.
  intros Hdecl. unfold visit. apply Nat.eqb_eq in Hdecl. rewrite Hdecl. cbv zeta.
  destruct (childText ctx 2) as [s |] eqn:Hs.
  - unfold LEFT_BRACES. destruct (startsWith s "{{") eqn:Hb; cbn [negb].
    + eexists. split; [reflexivity |]. split; [| split].
      * intros s' _ _. reflexivity.
      * intros s' E Hb'. injection E as <-. rewrite Hb in Hb'. discriminate.
      * discriminate.
    + eexists. split; [reflexivity |]. split; [| split].
      * intros s' E Hb'. injection E as <-. rewrite Hb in Hb'. discriminate.
      * intros s' E _. now injection E as <-.
      * discriminate.
  - cbn [negb]. eexists. split; [reflexivity |]. split; [| split]; try discriminate.
    reflexivity.
Qed.

End VisitorFacts.

Lemma script_braces_are_stripped_witness :
  RuleTransformationVisitor.ruleIndex
    (RuleTransformationVisitor.mkParserRuleContext 7 None "{{return a}}") <> 3
  /\ RuleTransformationVisitor.ruleIndex
       (RuleTransformationVisitor.mkParserRuleContext 7 None "{{return a}}") = 7
  /\ RuleTransformationVisitor.visit 3 7 (fun _ t => t)
       (RuleTransformationVisitor.mkParserRuleContext 7 None "{{return a}}")
       (RuleTransformationVisitor.mkRuleTransformation None None None)
     = RuleTransformationVisitor.mkRuleTransformation None None (Some "return a").
Proof.
  assert (H1 : RuleTransformationVisitor.ruleIndex
                 (RuleTransformationVisitor.mkParserRuleContext 7 None "{{return a}}") <> 3)
    by discriminate.
  split; [exact H1 | split; [reflexivity |]].
  exact (proj1 (script_braces_are_stripped 3 7 (fun _ t => t)
                  (RuleTransformationVisitor.mkParserRuleContext 7 None "{{return a}}")
                  (RuleTransformationVisitor.mkRuleTransformation None None None)
                  H1 eq_refl)
               "return a" eq_refl eq_refl).
Defined.

Lemma declaration_sets_path_and_expression_witness :
  RuleTransformationVisitor.ruleIndex
    (RuleTransformationVisitor.mkParserRuleContext 3 (Some ["total"; "="; "{{a+b}}"])
       "total={{a+b}}") = 3
  /\ exists expr,
       RuleTransformationVisitor.visit 3 7 (fun _ t => t)
         (RuleTransformationVisitor.mkParserRuleContext 3
            (Some ["total"; "="; "{{a+b}}"]) "total={{a+b}}")
         (RuleTransformationVisitor.mkRuleTransformation None (Some "old") None)
       = RuleTransformationVisitor.mkRuleTransformation (Some "total") expr None
       /\ expr = Some "old".
Proof.
  split; [reflexivity |].
  destruct (declaration_sets_path_and_expression 3 7 (fun _ t => t)
              (RuleTransformationVisitor.mkParserRuleContext 3
                 (Some ["total"; "="; "{{a+b}}"]) "total={{a+b}}")
              (RuleTransformationVisitor.mkRuleTransformation None (Some "old") None)
              eq_refl) as (expr & Hv & Hkeep & _).
  exists expr. split; [exact Hv |].
  exact (Hkeep "{{a+b}}" eq_refl eq_refl).
Defined.

(** * Further properties of the CLI command *)

Lemma trimLastSlash_slash (p : string) : trimLastSlash (p +:+ "/") = p.
Proof.
  induction p as [| c p IH]; [reflexivity |].
  change (String c p +:+ "/") with (String c (p +:+ "/")).
  cbn [trimLastSlash]. rewrite IH.
  destruct p; reflexivity.
Qed.

Lemma trimLastSlash_other (p : string) (c : ascii) :
  c <> "/"%char -> trimLastSlash (p +:+ String c "") = p +:+ String c "".
Proof.
  intros Hc. apply Ascii.eqb_neq in Hc.
  induction p as [| d p IH].
  - change (("" +:+ String c "") : string) with (String c "").
    cbn [trimLastSlash]. now rewrite Hc.
  - change (String d p +:+ String c "") with (String d (p +:+ String c "")).
    cbn [trimLastSlash]. rewrite IH.
    destruct p; reflexivity.
Qed.

(** The source directory of the command: [source] when the flag is
    absent or empty; otherwise the flag without one closing slash, and
    the flag itself when it does not end in a slash. *)
Theorem sourcepath_drops_one_slash :
  sourcepathOf None = "source"
  /\ sourcepathOf (Some "") = "source"
  /\ (forall p, sourcepathOf (Some (p +:+ "/")) = p)
  /\ (forall p c, c <> "/"%char ->
                  sourcepathOf (Some (p +:+ String c "")) = p +:+ String c "").
Proof.
  split; [reflexivity | split; [reflexivity | split]].
  - intros p. unfold sourcepathOf.
    assert (Ht : truthy (opt_val (Some (p +:+ "/"))) = true) by (destruct p; reflexivity).
    rewrite Ht. apply trimLastSlash_slash.
  - intros p c Hc. unfold sourcepathOf.
    assert (Ht : truthy (opt_val (Some (p +:+ String c ""))) = true)
      by (destruct p; reflexivity).
    rewrite Ht. now apply trimLastSlash_other.
Qed.

(** Without the [members] flag (absent or empty) the command selects
    nothing by name: the query has no [WHERE] clause, no member of any
    type is found, and every definition of every record passes the
    filter. *)
Theorem no_members_flag_pulls_everything (members : option string)
    (Member_pml Member_ui : string) :
  truthy (opt_val members) = false ->
  Member_pml <> "" -> Member_ui <> "" ->
  getMembersByTypes members [Member_pml; Member_ui] = []
  /\ productModelsQuery members Member_pml Member_ui
     = "Select Id,Name,VELOCPQ__ContentId__c,VELOCPQ__Version__c,VELOCPQ__ReferenceId__c,VELOCPQ__UiDefinitionsId__c from VELOCPQ__ProductModel__c"
  /\ forall uiDefMembers Name ui, includeUiName_Pull members uiDefMembers Name ui = true.
Proof.
  intros Hflag Hpml Hui.
  assert (Hnone : getMembersByTypes members [Member_pml; Member_ui] = []).
  { unfold getMembersByTypes. rewrite Hflag. cbn.
    apply String.eqb_neq in Hpml, Hui. now rewrite Hpml, Hui. }
  split; [exact Hnone | split].
  - unfold productModelsQuery, getMembersModelNames. now rewrite Hnone.
  - intros uiDefMembers Name ui. unfold includeUiName_Pull. now rewrite Hflag.
Qed.

Lemma no_members_flag_pulls_everything_witness :
  truthy (opt_val None) = false /\ "pml" <> "" /\ "ui" <> ""
  /\ getMembersByTypes None ["pml"; "ui"] = [].
Proof.
  assert (H2 : "pml" <> "") by discriminate.
  assert (H3 : "ui" <> "") by discriminate.
  split; [reflexivity | split; [exact H2 | split; [exact H3 |]]].
  exact (proj1 (no_members_flag_pulls_everything None "pml" "ui" eq_refl H2 H3)).
Defined.

Section CommandFetch.
Context `{UiUtils} `{Json} `{Zlib} `{Connection}.

(** What [pushUI] stores the command reads back: when the body URL of
    a document answers with the stored body less the one base64 layer
    the store removes, [getDocumentAttachment] returns the JSON text
    that was pushed. *)
Theorem command_reads_pushed_body (documentId url x : string) (w : World) :
  (forall b, gunzipSync (gzipSync b) = inr b) ->
  queryDocumentBody documentId = inr (Some url) ->
  truthy (JStr url) = true ->
  request url = inr (transportRead (encodeBody x)) ->
  getDocumentAttachment documentId w
  = Ok x (logged ("Dumping Attachment with url: " +:+ url)
            (logged ("Dumping Document with id: " +:+ documentId) w)).
Proof.
  intros Hzip Hbody Hurl Hreq.
  unfold getDocumentAttachment, getDocumentAttachmentUrl, getDocumentAttachmentContent.
  unfold bind, console_log. rewrite Hbody. cbn [lift]. unfold ret.
  rewrite Hurl. rewrite Hreq. cbn [lift].
  rewrite transportRead_encodeBody. unfold decodeContent, ret. cbv beta iota.
  rewrite Base64Facts.decode_encode, Hzip, string_of_list_ascii_of_string.
  reflexivity.
Qed.

End CommandFetch.

Lemma command_reads_pushed_body_witness :
  (forall b, @gunzipSync storeZlib (@gzipSync storeZlib b) = inr b)
  /\ @queryDocumentBody demoConnection "doc1" = inr (Some "/body/doc1")
  /\ truthy (JStr "/body/doc1") = true
  /\ @request demoConnection "/body/doc1" = inr (transportRead (@encodeBody storeZlib "[]"))
  /\ @getDocumentAttachment storeZlib demoConnection "doc1" emptyWorld
     = Ok "[]" (logged "Dumping Attachment with url: /body/doc1"
                  (logged "Dumping Document with id: doc1" emptyWorld)).
Proof.
  repeat (split; [reflexivity |]).
  apply (@command_reads_pushed_body storeZlib demoConnection "doc1" "/body/doc1" "[]"
           emptyWorld); reflexivity.
Defined.

(** ** A fetch that fails *)

Lemma promiseAll_must_throw {A B} (l : list A) (f : A -> M World B) (x : A) :
  (forall y w, sameFs (final (f y w)) w) ->
  In x l ->
  (forall w, exists e w', f x w = Throw e w') ->
  forall w, exists e w', promiseAll l f w = Throw e w' /\ sameFs w' w.
Proof.
  intros Hfs Hin Hx. induction l as [| y l IH]; [destruct Hin |].
  intros w. cbn [promiseAll]. unfold bind at 1.
  pose proof (Hfs y w) as Hy.
  destruct Hin as [-> | Hin].
  - destruct (Hx w) as (e & w' & Hthrow). rewrite Hthrow in Hy |- *. eauto.
  - destruct (f y w) as [b w1 | e w1]; cbn [final] in Hy; [| eauto].
    destruct (IH Hin w1) as (e & w' & Hrest & Hfs').
    exists e, w'. unfold bind. rewrite Hrest.
    split; [reflexivity |].
    destruct Hfs' as [Hd Hf], Hy as [Hd1 Hf1]. split; congruence.
Qed.

Section FetchFailures.
Context `{UiUtils} `{Json} `{Zlib} `{Connection} `{PullRemote}.

Lemma getDocumentAttachment_sameFs documentId w :
  sameFs (final (getDocumentAttachment documentId w)) w.
Proof.
  unfold getDocumentAttachment, getDocumentAttachmentUrl, getDocumentAttachmentContent.
  unfold bind, console_log.
  destruct (queryDocumentBody documentId) as [e | [url |]]; cbn [lift];
    try (split; reflexivity).
  unfold ret. destruct (truthy (JStr url)); [| split; reflexivity].
  destruct (request url) as [e | res]; cbn [lift]; [split; reflexivity |].
  unfold ret. destruct (decodeContent res); split; reflexivity.
Qed.

(** When [fetchDocumentAttachment] fails for the document of one
    record, [pullUI] ends with an exception and the world as it was:
    the documents are all fetched before the first record is
    serialized, so nothing is written for any record. *)
Theorem failed_fetch_ends_pullUI (fuel : nat) (sourcepath : string) (dumpAll : bool)
    (uisToDump : list string) (pms : list ProductModel) (pm : ProductModel)
    (e0 : exn) (w : World) :
  fetchProductModels dumpAll
    (if dumpAll then None
     else Some (map (fun ui => to_string (at_index (split ":" ui) 0)) uisToDump))
  = inr pms ->
  In pm pms ->
  fetchDocumentAttachment (VELOCPQ__UiDefinitionsId__c pm) = inl e0 ->
  exists e, pullUI fuel sourcepath dumpAll uisToDump w = Throw e w.
Proof.
  intros Hpms Hin Hfail.
  unfold pullUI. unfold bind at 1. rewrite Hpms. cbn [lift]. unfold ret at 1.
  unfold bind at 1.
  pose proof (promiseAll_fetch pms w) as Hfetch.
  match goal with
  | |- exists e, match ?m with _ => _ end = _ => destruct m as [contents w1 | e w1]
  end.
  - exfalso. destruct Hfetch as (_ & Hmap & Hall).
    rewrite <- Hmap in Hin. apply in_map_iff in Hin as (entry & <- & Hentry).
    rewrite List.Forall_forall in Hall. specialize (Hall entry Hentry).
    rewrite Hfail in Hall. discriminate.
  - destruct Hfetch as (-> & _). eauto.
Qed.

(** In the command, a record whose document does not exist ends
    [fetchUiDefinitions] with an exception before a directory is made
    or a file written for any record; only the console has grown. *)
Theorem missing_document_ends_command (fuel : nat) (sourcepath : string)
    (members : option string) (Member_ui : string)
    (productModels : list ProductModel) (pm : ProductModel) (w : World) :
  truthy (opt_val members) = false ->
  In pm productModels ->
  queryDocumentBody (VELOCPQ__UiDefinitionsId__c pm) = inr None ->
  exists e w',
    fetchUiDefinitions members Member_ui fuel sourcepath productModels w = Throw e w'
    /\ sameFs w' w.
Proof.
  intros Hflag Hin' Hmissing.
  unfold fetchUiDefinitions. rewrite Hflag. cbv zeta iota.
  destruct (promiseAll_must_throw productModels
              (fun productModel =>
                 content <- getDocumentAttachment
                              (VELOCPQ__UiDefinitionsId__c productModel) ;;
                 ret (productModel, content)) pm) with (w := w)
    as (e & w' & Hthrow & Hfs).
  - intros y w0. unfold bind.
    pose proof (getDocumentAttachment_sameFs (VELOCPQ__UiDefinitionsId__c y) w0) as Hy.
    destruct (getDocumentAttachment (VELOCPQ__UiDefinitionsId__c y) w0); exact Hy.
  - exact Hin'.
  - intros w0. unfold bind at 1.
    unfold getDocumentAttachment, getDocumentAttachmentUrl. unfold bind, console_log.
    rewrite Hmissing. cbn [lift]. unfold ret, throw. eauto.
  - exists e, w'. unfold bind at 1. rewrite Hthrow. split; [reflexivity | exact Hfs].
Qed.

End FetchFailures.

Lemma failed_fetch_ends_pullUI_witness :
  @fetchProductModels brokenRemote true None = inr [recordM1; recordM5]
  /\ In recordM5 [recordM1; recordM5]
  /\ @fetchDocumentAttachment brokenRemote (VELOCPQ__UiDefinitionsId__c recordM5)
     = inl (Error "Document not found")
  /\ exists e,
       @pullUI plainUtils plainJson brokenRemote 8 "src" true [] emptyWorld
       = Throw e emptyWorld.
Proof.
  assert (Hin : In recordM5 [recordM1; recordM5]) by (right; now left).
  split; [reflexivity | split; [exact Hin | split; [reflexivity |]]].
  exact (@failed_fetch_ends_pullUI plainUtils plainJson brokenRemote 8 "src" true []
           [recordM1; recordM5] recordM5 (Error "Document not found") emptyWorld
           eq_refl Hin eq_refl).
Defined.

Lemma missing_document_ends_command_witness :
  truthy (opt_val None) = false
  /\ In recordM3 [recordM1; recordM3]
  /\ @queryDocumentBody demoConnection (VELOCPQ__UiDefinitionsId__c recordM3) = inr None
  /\ exists e w',
       @fetchUiDefinitions plainUtils plainJson storeZlib demoConnection None "ui" 8 "src"
         [recordM1; recordM3] emptyWorld = Throw e w'
       /\ sameFs w' emptyWorld.
Proof.
  assert (Hin : In recordM3 [recordM1; recordM3]) by (right; now left).
  split; [reflexivity | split; [exact Hin | split; [reflexivity |]]].
  exact (@missing_document_ends_command plainUtils plainJson storeZlib demoConnection
           8 "src" None "ui" [recordM1; recordM3] recordM3 emptyWorld
           eq_refl Hin eq_refl).
Defined.

(** ** The PML files *)

Lemma length_append (a b : string) :
  String.length (a +:+ b) = String.length a + String.length b.
Proof.
  induction a as [| c a IH]; [reflexivity |].
  change (S (String.length (a +:+ b)) = S (String.length a + String.length b)).
  now rewrite IH.
Qed.

Lemma append_same_length (a b x y : string) :
  String.length a = String.length b -> a +:+ x = b +:+ y -> a = b.
Proof.
  revert b. induction a as [| c a IH]; intros [| d b] Hlen E; try discriminate.
  - reflexivity.
  - change (String c (a +:+ x) = String d (b +:+ y)) in E.
    injection E as -> E. f_equal. apply IH; [now injection Hlen | exact E].
Qed.

Lemma free_of_append sep a b :
  free_of sep (a +:+ b) = free_of sep a && free_of sep b.
Proof.
  induction a as [| c a IH]; [reflexivity |].
  change (free_of sep (String c (a +:+ b)) = free_of sep (String c a) && free_of sep b).
  cbn [free_of]. rewrite IH. now rewrite andb_assoc.
Qed.

(** A plain segment with an extension is a plain segment. *)
Lemma plainSegment_ext n ext :
  plainSegment n = true -> free_of "/" ext = true -> ext <> "" ->
  plainSegment (n +:+ ext) = true.
Proof.
  unfold plainSegment. intros Hn Hext Hne.
  apply andb_prop in Hn as [Hn Hfree]. apply andb_prop in Hn as [Hn Hdd].
  apply andb_prop in Hn as [Hempty Hd].
  rewrite free_of_append, Hfree, Hext.
  destruct n as [| c1 [| c2 [| c3 n]]]; [discriminate | | |].
  - destruct ext as [| e1 [| e2 ext]]; [contradiction | |].
    + change (String c1 "" +:+ String e1 "") with (String c1 (String e1 "")).
      cbn [String.eqb]. destruct (Ascii.eqb c1 ".") eqn:E1; [| reflexivity].
      apply Ascii.eqb_eq in E1. subst c1. discriminate.
    + change (String c1 "" +:+ String e1 (String e2 ext))
        with (String c1 (String e1 (String e2 ext))).
      cbn [String.eqb]. destruct (Ascii.eqb c1 "."), (Ascii.eqb e1 "."); reflexivity.
  - destruct ext as [| e1 ext]; [contradiction |].
    change (String c1 (String c2 "") +:+ String e1 ext)
      with (String c1 (String c2 (String e1 ext))).
    cbn [String.eqb]. destruct (Ascii.eqb c1 "."), (Ascii.eqb c2 "."); reflexivity.
  - change (String c1 (String c2 (String c3 n)) +:+ ext)
      with (String c1 (String c2 (String c3 (n +:+ ext)))).
    cbn [String.eqb]. destruct (Ascii.eqb c1 "."), (Ascii.eqb c2 "."); reflexivity.
Qed.

(** The path [savePml] writes for a record name and an extension. *)
Lemma pml_paths_differ (sourcepath n1 n2 e1 e2 : string) :
  n1 <> n2 ->
  In e1 [".pml"; ".pml.json"] -> In e2 [".pml"; ".pml.json"] ->
  (sourcepath +:+ "/" +:+ n1) +:+ "/" +:+ n1 +:+ e1
  <> (sourcepath +:+ "/" +:+ n2) +:+ "/" +:+ n2 +:+ e2.
Proof.
  intros Hne H1 H2 E.
  rewrite !append_assoc in E.
  apply append_cancel_l in E.
  change ("/" +:+ n1 +:+ "/" +:+ n1 +:+ e1) with (String "/" (n1 +:+ "/" +:+ n1 +:+ e1)) in E.
  change ("/" +:+ n2 +:+ "/" +:+ n2 +:+ e2) with (String "/" (n2 +:+ "/" +:+ n2 +:+ e2)) in E.
  injection E as E.
  apply Hne.
  apply (append_same_length n1 n2 ("/" +:+ n1 +:+ e1) ("/" +:+ n2 +:+ e2)); [| exact E].
  apply (f_equal String.length) in E.
  rewrite !length_append in E.
  destruct H1 as [<- | [<- | []]], H2 as [<- | [<- | []]]; cbn in E; lia.
Qed.

Section PmlFiles.
Variable stringify_pml : ProductModel -> string.
Variable sourcepath : string.

Lemma savePml_files entry w :
  savePml stringify_pml sourcepath entry w
  = Ok tt (mkWorld (if bool_decide (sourcepath +:+ "/" +:+ Name (fst entry) ∈ dirs w)
                    then dirs w
                    else (sourcepath +:+ "/" +:+ Name (fst entry)) :: dirs w)
                   ((pmlPath sourcepath entry ".pml", snd entry)
                      :: (pmlPath sourcepath entry ".pml.json", stringify_pml (fst entry))
                      :: files w)
                   (console w)).
Proof.
  unfold savePml, writeFileSafe, bind, mkdirSync, writeFileSync, pmlPath. cbn.
  rewrite bool_decide_eq_true_2; [reflexivity |].
  case_bool_decide; [assumption | apply list_elem_of_here].
Qed.

Lemma savePml_other entry w p :
  p <> pmlPath sourcepath entry ".pml" -> p <> pmlPath sourcepath entry ".pml.json" ->
  readFile (final (savePml stringify_pml sourcepath entry w)) p = readFile w p.
Proof.
  intros H1 H2. rewrite savePml_files. unfold readFile. cbn.
  apply not_eq_sym in H1, H2. apply String.eqb_neq in H1, H2.
  now rewrite H1, H2.
Qed.

Lemma forEach_savePml_other contents : forall w p,
  (forall entry, In entry contents ->
                 p <> pmlPath sourcepath entry ".pml" /\ p <> pmlPath sourcepath entry ".pml.json") ->
  exists w',
    forEach contents (savePml stringify_pml sourcepath) w = Ok tt w'
    /\ readFile w' p = readFile w p.
Proof.
  induction contents as [| entry contents IH]; intros w p Hp.
  - exists w. split; reflexivity.
  - cbn [forEach]. unfold bind.
    pose proof (savePml_other entry w p) as Hother.
    rewrite savePml_files in Hother |- *. cbn [final] in Hother.
    destruct (Hp entry (or_introl eq_refl)) as [H1 H2].
    match goal with
    | |- context [forEach contents _ ?w1] =>
        destruct (IH w1 p (fun e He => Hp e (or_intror He))) as (w' & Hrun & Hread)
    end.
    exists w'. split; [exact Hrun |]. rewrite Hread. now apply Hother.
Qed.

(** With records of distinct names, each a plain path segment, once
    [fetchPml] has written its contents every record's [.pml] file holds
    its own attachment and its [.pml.json] file its own fields: no
    record overwrites the files of another. The path of each file is
    [sourcepath] followed by two plain segments, the record's name and
    the file's name, so that the files of records of distinct names are
    in distinct directories. *)
Theorem every_record_keeps_its_pml (contents : list (ProductModel * string)) (w : World) :
  Forall (fun entry => plainSegment (Name (fst entry)) = true) contents ->
  NoDup (map (fun entry => Name (fst entry)) contents) ->
  exists w',
    forEach contents (savePml stringify_pml sourcepath) w = Ok tt w'
    /\ forall entry, In entry contents ->
         readFile w' (pmlPath sourcepath entry ".pml") = Some (snd entry)
         /\ readFile w' (pmlPath sourcepath entry ".pml.json") = Some (stringify_pml (fst entry))
         /\ forall ext, In ext [".pml"; ".pml.json"] ->
              pmlPath sourcepath entry ext
              = sourcepath +:+ "/" +:+ join "/" [Name (fst entry); Name (fst entry) +:+ ext]
              /\ Forall (fun seg => plainSegment seg = true)
                        [Name (fst entry); Name (fst entry) +:+ ext].
Proof.
  intros Hplain.
  assert (Hpaths : forall entry, In entry contents ->
             forall ext, In ext [".pml"; ".pml.json"] ->
               pmlPath sourcepath entry ext
               = sourcepath +:+ "/" +:+ join "/" [Name (fst entry); Name (fst entry) +:+ ext]
               /\ Forall (fun seg => plainSegment seg = true)
                         [Name (fst entry); Name (fst entry) +:+ ext]).
  { intros entry Hentry ext Hext. rewrite List.Forall_forall in Hplain.
    specialize (Hplain entry Hentry). split.
    - unfold pmlPath.
      change (join "/" [Name (fst entry); Name (fst entry) +:+ ext])
        with (Name (fst entry) +:+ "/" +:+ Name (fst entry) +:+ ext).
      now rewrite append_assoc.
    - constructor; [exact Hplain | constructor; [| constructor]].
      apply plainSegment_ext; [exact Hplain | |];
        destruct Hext as [<- | [<- | []]]; (reflexivity || discriminate). }
  assert (Hfiles : NoDup (map (fun entry => Name (fst entry)) contents) ->
            exists w',
              forEach contents (savePml stringify_pml sourcepath) w = Ok tt w'
              /\ forall entry, In entry contents ->
                   readFile w' (pmlPath sourcepath entry ".pml") = Some (snd entry)
                   /\ readFile w' (pmlPath sourcepath entry ".pml.json")
                      = Some (stringify_pml (fst entry))).
  2: { intros Hnodup. destruct (Hfiles Hnodup) as (w' & Hrun & Hall).
       exists w'. split; [exact Hrun |]. intros entry Hentry.
       destruct (Hall entry Hentry) as [H1 H2].
       split; [exact H1 | split; [exact H2 | now apply Hpaths]]. }
  clear Hplain Hpaths.
  revert w. induction contents as [| entry contents IH]; intros w Hnodup.
  - exists w. split; [reflexivity | intros e []].
  - cbn [map] in Hnodup. apply NoDup_cons in Hnodup as [Hnot Hrest].
    rewrite list_elem_of_In in Hnot.
    assert (Hdiff : forall e ext1 ext2, In e contents ->
               In ext1 [".pml"; ".pml.json"] -> In ext2 [".pml"; ".pml.json"] ->
               pmlPath sourcepath entry ext1 <> pmlPath sourcepath e ext2).
    { intros e ext1 ext2 He H1 H2. apply pml_paths_differ; try assumption.
      intros Heq. apply Hnot. rewrite Heq.
      apply (in_map (fun entry => Name (fst entry))). exact He. }
    cbn [forEach]. unfold bind. rewrite savePml_files.
    set (w1 := mkWorld _ _ _).
    destruct (IH w1 Hrest) as (w' & Hrun & Hall).
    exists w'. split; [exact Hrun |].
    intros e [<- | He]; [| now apply Hall].
    split.
    + destruct (forEach_savePml_other contents w1 (pmlPath sourcepath entry ".pml")) as (w2 & Hrun2 & Hr).
      { intros e He. split; apply Hdiff; simpl; auto. }
      rewrite Hrun in Hrun2. injection Hrun2 as <-. rewrite Hr.
      unfold readFile, w1. cbn. now rewrite String.eqb_refl.
    + destruct (forEach_savePml_other contents w1 (pmlPath sourcepath entry ".pml.json"))
        as (w2 & Hrun2 & Hr).
      { intros e He. split; apply Hdiff; simpl; auto. }
      rewrite Hrun in Hrun2. injection Hrun2 as <-. rewrite Hr.
      unfold readFile, w1. cbn.
      assert (Hne : String.eqb (pmlPath sourcepath entry ".pml") (pmlPath sourcepath entry ".pml.json") = false).
      { apply String.eqb_neq. unfold pmlPath. intros E.
        do 3 apply append_cancel_l in E. discriminate. }
      now rewrite Hne, String.eqb_refl.
Qed.

End PmlFiles.

Lemma every_record_keeps_its_pml_witness :
  Forall (fun entry : ProductModel * string => plainSegment (Name (fst entry)) = true)
         [(recordM1, "pml of M1"); (recordM3, "pml of M3")]
  /\ NoDup (map (fun entry : ProductModel * string => Name (fst entry))
                [(recordM1, "pml of M1"); (recordM3, "pml of M3")])
  /\ exists w',
       forEach [(recordM1, "pml of M1"); (recordM3, "pml of M3")]
               (savePml Name "src") emptyWorld = Ok tt w'
       /\ readFile w' "src/M1/M1.pml" = Some "pml of M1".
Proof.
  assert (Hnd : NoDup (map (fun entry : ProductModel * string => Name (fst entry))
                           [(recordM1, "pml of M1"); (recordM3, "pml of M3")])).
  { apply (bool_decide_unpack _). vm_compute. exact I. }
  assert (Hplain : Forall (fun entry : ProductModel * string =>
                             plainSegment (Name (fst entry)) = true)
                          [(recordM1, "pml of M1"); (recordM3, "pml of M3")]).
  { repeat constructor. }
  split; [exact Hplain | split; [exact Hnd |]].
  destruct (every_record_keeps_its_pml Name "src"
              [(recordM1, "pml of M1"); (recordM3, "pml of M3")] emptyWorld Hplain Hnd)
    as (w' & Hrun & Hall).
  exists w'. split; [exact Hrun |].
  exact (proj1 (Hall (recordM1, "pml of M1") (or_introl eq_refl))).
Defined.

(** ** A query without result *)

Section RunFacts.
Context `{UiUtils} `{Json} `{Zlib} `{Connection}.
Variable flags_members flags_sourcepath : option string.
Variable Member_pml Member_ui : string.
Variable queryProductModels : string -> exn + option QueryResult.
Variable stringify_pml : ProductModel -> string.

(** When the query of the product models answers nothing, or no
    records, [run] stops after [fetchProductModels]: no document is
    fetched, no directory made, no file written, and [Done.] is not
    logged; the console holds the two lines of [fetchProductModels]. *)
Theorem run_without_product_models (fuel : nat) (result : option QueryResult) (w : World) :
  queryProductModels (productModelsQuery flags_members Member_pml Member_ui) = inr result ->
  match result with
  | Some r => default [] (records r) = []
  | None => True
  end ->
  exists line1 line2,
    run flags_members flags_sourcepath Member_pml Member_ui queryProductModels
        stringify_pml fuel w
    = Ok tt (logged line2 (logged line1 w))
    /\ line2 <> "Done.".
Proof.
  intros Hquery Hempty. unfold run, fetchProductModelsCli.
  unfold bind at 1. unfold bind at 1. unfold console_log at 1.
  unfold bind at 1. rewrite Hquery. cbn [lift]. unfold ret at 1.
  unfold bind at 1. unfold console_log at 1. unfold ret at 1.
  assert (Hnone : match result with
                  | Some r => default [] (records r)
                  | None => []
                  end = []).
  { destruct result; [exact Hempty | reflexivity]. }
  rewrite Hnone. cbn [length Nat.eqb].
  eexists _, _. split; [reflexivity |].
  intros E. discriminate E.
Qed.

End RunFacts.

Lemma run_without_product_models_witness :
  (fun _ : string => @inr exn (option QueryResult) None)
    (productModelsQuery None "pml" "ui") = inr None
  /\ exists line1 line2,
       @run plainUtils plainJson storeZlib demoConnection None None "pml" "ui"
         (fun _ => inr None) Name 8 emptyWorld
       = Ok tt (logged line2 (logged line1 emptyWorld))
       /\ line2 <> "Done.".
Proof.
  split; [reflexivity |].
  exact (@run_without_product_models plainUtils plainJson storeZlib demoConnection
           None None "pml" "ui" (fun _ => inr None) Name 8 None emptyWorld eq_refl I).
Defined.

(** * The members flag *)

Lemma split_free sep s : free_of sep s = true -> split sep s = [s].
Proof.
  induction s as [| c s IH]; cbn [free_of split]; intros Hfree; [reflexivity |].
  apply andb_prop in Hfree as [Hc Hs].
  destruct (Ascii.eqb c sep); [discriminate |]. now rewrite IH.
Qed.

Lemma split_cons sep piece rest :
  free_of sep piece = true ->
  split sep (piece +:+ String sep rest) = piece :: split sep rest.
Proof.
  induction piece as [| c piece IH]; intros Hfree.
  - change (("" +:+ String sep rest) : string) with (String sep rest).
    cbn [split]. now rewrite Ascii.eqb_refl.
  - cbn [free_of] in Hfree. apply andb_prop in Hfree as [Hc Hs].
    change (String c piece +:+ String sep rest) with (String c (piece +:+ String sep rest)).
    cbn [split]. destruct (Ascii.eqb c sep); [discriminate |].
    now rewrite IH.
Qed.

(** [split] undoes [join] on pieces that hold no separator. *)
Lemma split_join sep (pieces : list string) :
  pieces <> [] ->
  Forall (fun piece => free_of sep piece = true) pieces ->
  split sep (join (String sep "") pieces) = pieces.
Proof.
  intros Hne Hfree. induction Hfree as [| piece pieces Hp Hrest IH]; [contradiction |].
  destruct pieces as [| next pieces].
  - cbn. now apply split_free.
  - change (join (String sep "") (piece :: next :: pieces))
      with (piece +:+ String sep (join (String sep "") (next :: pieces))).
    rewrite split_cons by assumption. f_equal. apply IH. discriminate.
Qed.

(** The [members] flag written as [type:model:definition] entries
    separated by commas, no piece holding a colon or a comma: the
    members of the given types are exactly the entries whose first
    piece is one of the types, in the order of the flag. *)
Theorem members_flag_is_parsed (entries : list (list string)) (memberTypes : list string) :
  entries <> [] ->
  Forall (fun entry => entry <> []
                       /\ Forall (fun piece => free_of ":" piece = true
                                               /\ free_of "," piece = true) entry) entries ->
  join "," (map (join ":") entries) <> "" ->
  getMembersByTypes (Some (join "," (map (join ":") entries))) memberTypes
  = List.filter (fun member =>
                   existsb (fun t => strict_eq (JStr t) (at_index member 0)) memberTypes)
                entries.
Proof.
  intros Hne Hfree Hflag. unfold getMembersByTypes.
  assert (Ht : truthy (opt_val (Some (join "," (map (join ":") entries)))) = true).
  { cbn. apply String.eqb_neq in Hflag. now rewrite Hflag. }
  rewrite Ht. cbv zeta iota. cbn [default]. f_equal.
  assert (Hcomma : Forall (fun piece => free_of "," piece = true) (map (join ":") entries)).
  { apply Forall_map. eapply List.Forall_impl; [| exact Hfree].
    intros entry [_ Hentry]. cbn.
    clear - Hentry. induction Hentry as [| piece pieces [_ Hp] _ IH]; [reflexivity |].
    destruct pieces as [| next pieces]; [exact Hp |].
    change (join ":" (piece :: next :: pieces))
      with (piece +:+ String ":" (join ":" (next :: pieces))).
    clear - Hp IH. induction piece as [| c piece IHp].
    - exact IH.
    - cbn [free_of] in Hp. apply andb_prop in Hp as [Hc Hp].
      change (free_of "," (String c (piece +:+ String ":" (join ":" (next :: pieces))))
              = true).
      cbn [free_of]. rewrite Hc. cbn [andb]. now apply IHp. }
  unfold Datatypes.id.
  rewrite split_join; [| destruct entries; [contradiction | discriminate] | exact Hcomma].
  rewrite map_map.
  clear - Hfree. induction Hfree as [| entry entries [Hentry Hpieces] _ IH]; [reflexivity |].
  cbn [map]. f_equal; [| exact IH].
  apply split_join; [exact Hentry |].
  eapply List.Forall_impl; [| exact Hpieces]. now intros piece [Hp _].
Qed.

Lemma members_flag_is_parsed_witness :
  [["ui"; "M1"; "Form"]; ["pml"; "M1"]] <> []
  /\ join "," (map (join ":") [["ui"; "M1"; "Form"]; ["pml"; "M1"]]) <> ""
  /\ getMembersByTypes (Some (join "," (map (join ":")
                                          [["ui"; "M1"; "Form"]; ["pml"; "M1"]]))) ["ui"]
     = List.filter (fun member =>
                      existsb (fun t => strict_eq (JStr t) (at_index member 0)) ["ui"])
                   [["ui"; "M1"; "Form"]; ["pml"; "M1"]].
Proof.
  assert (H1 : [["ui"; "M1"; "Form"]; ["pml"; "M1"]] <> []) by discriminate.
  assert (H3 : join "," (map (join ":") [["ui"; "M1"; "Form"]; ["pml"; "M1"]]) <> "")
    by (vm_compute; discriminate).
  split; [exact H1 | split; [exact H3 |]].
  apply (members_flag_is_parsed [["ui"; "M1"; "Form"]; ["pml"; "M1"]] ["ui"] H1);
    [| exact H3].
  repeat (constructor; [split; [discriminate | repeat (constructor; [split; reflexivity |]);
                                               constructor] |]).
  constructor.
Defined.

(** With the [members] flag, a record is pulled for its UI definitions
    (or its PML) exactly when it is among the product models fetched
    and a member of that type names it. *)
Theorem record_pulled_when_named (members : option string) (memberType : string)
    (productModels : list ProductModel) (pm : ProductModel) :
  In pm (filterProductModelsByMember members memberType productModels)
  <-> In pm productModels
      /\ exists member, In member (getMembersByTypes members [memberType])
                        /\ at_index member 1 = JStr (Name pm).
Proof.
  unfold filterProductModelsByMember, getMembersModelNames.
  rewrite filter_In. split.
  - intros [Hin Hex]. split; [exact Hin |].
    apply existsb_exists in Hex as (n & Hn & Heq).
    apply in_map_iff in Hn as (member & <- & Hmember).
    exists member. split; [exact Hmember |].
    destruct (at_index member 1) as [| | | | s | |]; try discriminate.
    cbn in Heq. apply String.eqb_eq in Heq. now subst.
  - intros [Hin (member & Hmember & Hname)]. split; [exact Hin |].
    apply existsb_exists. exists (at_index member 1). split.
    + apply in_map_iff. eauto.
    + rewrite Hname. cbn. apply String.eqb_refl.
Qed.

(** * What a run adds to the file system *)

Lemma grows_ret {A} P (a : A) : grows P (ret a).
Proof. intros w. split; [apply incl_refl | exists []; split; [reflexivity | constructor]]. Qed.

Lemma grows_throw {A} P e : grows P (@throw World A e).
Proof. intros w. split; [apply incl_refl | exists []; split; [reflexivity | constructor]]. Qed.

Lemma grows_lift {A} P (r : exn + A) : grows P (lift r).
Proof. destruct r; [apply grows_throw | apply grows_ret]. Qed.

Lemma grows_bind {A B} P (m : M World A) (k : A -> M World B) :
  grows P m -> (forall a, grows P (k a)) -> grows P (bind m k).
Proof.
  intros Hm Hk w. unfold bind. destruct (Hm w) as (D1 & added1 & E1 & F1).
  destruct (m w) as [a w1 | e w1]; cbn [final] in *.
  - destruct (Hk a w1) as (D2 & added2 & E2 & F2). split.
    + eapply incl_tran; eassumption.
    + exists (added2 ++ added1). split.
      * rewrite E2, E1. now rewrite app_assoc.
      * apply Forall_app. now split.
  - split; [exact D1 | exists added1; now split].
Qed.

Lemma grows_weaken {A} (P Q : string -> Prop) (m : M World A) :
  (forall p, P p -> Q p) -> grows P m -> grows Q m.
Proof.
  intros HPQ Hm w. destruct (Hm w) as (D & added & E & F).
  split; [exact D |]. exists added. split; [exact E |].
  eapply List.Forall_impl; [| exact F]. intros f. apply HPQ.
Qed.

Lemma grows_existsSync P q : grows P (existsSync q).
Proof. intros w. split; [apply incl_refl | exists []; split; [reflexivity | constructor]]. Qed.

Lemma grows_mkdirSync P q : grows P (mkdirSync q).
Proof.
  intros w. split; [| exists []; split; [reflexivity | constructor]].
  cbn. destruct (bool_decide (q ∈ dirs w)); [apply incl_refl | apply incl_tl, incl_refl].
Qed.

Lemma grows_writeFileSafe (P : string -> Prop) dir f c :
  P (dir +:+ "/" +:+ f) -> grows P (writeFileSafe dir f c).
Proof.
  intros HP w. split.
  - cbn. destruct (bool_decide (dir ∈ dirs w)); [apply incl_refl | apply incl_tl, incl_refl].
  - exists [(dir +:+ "/" +:+ f, c)]. split; [reflexivity |].
    constructor; [exact HP | constructor].
Qed.



Lemma final_then_ret {A B} (m : M World A) (b : B) w :
  final ((m ;;; ret b) w) = final (m w).
Proof. unfold bind, ret. destruct (m w); reflexivity. Qed.

(** * Where the files of a record go *)

Lemma below_file dir f : plainSegment f = true -> below dir (dir +:+ "/" +:+ f).
Proof.
  intros Hf. exists [f]. split; [discriminate | split; [| reflexivity]].
  constructor; [exact Hf | constructor].
Qed.

Lemma below_child dir x p :
  plainSegment x = true -> below (dir +:+ "/" +:+ x) p -> below dir p.
Proof.
  intros Hx (segs & Hne & Hplain & ->). exists (x :: segs).
  split; [discriminate | split; [now constructor |]].
  destruct segs as [| seg segs]; [contradiction |].
  change (join "/" (x :: seg :: segs)) with (x +:+ "/" +:+ join "/" (seg :: segs)).
  now rewrite !append_assoc.
Qed.

Lemma grows_bind_lift {A B} P (r : exn + A) (k : A -> M World B) :
  (forall a, r = inr a -> grows P (k a)) -> grows P (bind (lift r) k).
Proof.
  intros Hk. destruct r as [e | a].
  - intros w. split; [apply incl_refl | exists []; split; [reflexivity | constructor]].
  - intros w. exact (Hk a eq_refl w).
Qed.

Lemma grows_forEachAcc {A B} P (l : list A) (f : A -> B -> M World B) :
  (forall x acc, In x l -> grows P (f x acc)) ->
  forall acc, grows P (forEachAcc l f acc).
Proof.
  induction l as [| x l IH]; intros Hf acc; cbn [forEachAcc].
  - apply grows_ret.
  - apply grows_bind; [apply Hf; now left |].
    intros acc'. apply IH. intros y a Hy. apply Hf. now right.
Qed.

Lemma grows_forEach {A} P (l : list A) (f : A -> M World unit) :
  (forall x, In x l -> grows P (f x)) -> grows P (forEach l f).
Proof.
  induction l as [| x l IH]; intros Hf; cbn [forEach].
  - apply grows_ret.
  - apply grows_bind; [apply Hf; now left |].
    intros _. apply IH. intros y Hy. apply Hf. now right.
Qed.

Lemma grows_console_log P msg : grows P (console_log msg).
Proof. intros w. split; [apply incl_refl | exists []; split; [reflexivity | constructor]]. Qed.

Section RecordDirectory.
Context `{UiUtils} `{Json}.

Lemma below_saveElement el :
  plainTree el -> forall path, grows (below path) (saveElement el path).
Proof.
  induction el as [script styles template children IH] using UiElement_nested_ind.
  intros Hplain path.
  inversion Hplain as [el0 Hname Hchildren]; subst el0.
  cbn [el_children] in Hchildren.
  cbn [saveElement el_script el_styles el_template el_children].
  apply grows_bind_lift. intros s Hs.
  destruct (negb (truthy (JStr s))); [apply grows_ret |].
  apply grows_bind_lift. intros md Hmd.
  assert (Hdir : plainSegment (to_string (md_name md)) = true)
    by (apply (Hname s md); [exact Hs | exact Hmd]).
  set (elDir := path +:+ "/" +:+ to_string (md_name md)).
  assert (Hfile : forall f, plainSegment f = true -> below path (elDir +:+ "/" +:+ f)).
  { intros f Hf. apply (below_child path (to_string (md_name md))); [exact Hdir |].
    now apply below_file. }
  apply grows_bind; [apply grows_existsSync |]. intros present.
  apply grows_bind; [destruct (negb present); [apply grows_mkdirSync | apply grows_ret] |].
  intros _.
  apply grows_bind; [apply grows_writeFileSafe; now apply Hfile |]. intros _.
  apply grows_bind.
  { destruct (truthy (opt_val styles)); [| apply grows_ret].
    apply grows_bind; [apply grows_lift |].
    intros c; apply grows_writeFileSafe; now apply Hfile. }
  intros _. apply grows_bind.
  { destruct (truthy (opt_val template)); [| apply grows_ret].
    apply grows_bind; [apply grows_lift |].
    intros c; apply grows_writeFileSafe; now apply Hfile. }
  intros _. apply grows_bind; [| intros _; apply grows_ret].
  apply (grows_weaken (below elDir)).
  { intros p. now apply below_child. }
  clear Hplain Hname. induction IH as [| c cs Hc _ IHcs].
  - apply grows_ret.
  - apply Forall_cons in Hchildren as [Hpc Hpcs].
    apply grows_bind; [now apply Hc | intros _; now apply IHcs].
Qed.

Lemma below_saveUiDefinition ui path :
  Forall plainTree (default [] (ui_children ui)) ->
  grows (below path) (saveUiDefinition ui path).
Proof.
  intros Hplain. unfold saveUiDefinition.
  destruct (ui_children ui) as [children |]; [| apply grows_throw].
  change (default [] (Some children)) with children in Hplain.
  apply grows_bind.
  - apply grows_forEachAcc. intros child acc Hin.
    apply grows_bind; [| intros ?; apply grows_ret].
    apply below_saveElement. rewrite List.Forall_forall in Hplain. now apply Hplain.
  - intros names. apply grows_writeFileSafe. now apply below_file.
Qed.

Lemma below_blobStep field urlField ext contentOf section dir sectionMeta :
  plainSegment (to_string (get section "label")) = true ->
  free_of "/" ext = true -> ext <> "" ->
  grows (below dir) (blobStep field urlField ext contentOf section dir sectionMeta).
Proof.
  intros Hlabel Hext Hne. unfold blobStep.
  destruct (truthy (get section field)); [| apply grows_ret].
  apply grows_bind; [apply grows_lift |]. intros content.
  apply grows_bind; [| intros _; apply grows_ret].
  apply grows_writeFileSafe. apply below_file. now apply plainSegment_ext.
Qed.

Lemma below_saveLegacySectionFiles section dir metadata :
  plainSegment (to_string (get section "label")) = true ->
  grows (below dir) (saveLegacySectionFiles section dir metadata).
Proof.
  intros Hlabel w. rewrite saveLegacySectionFiles_steps. revert w.
  change (grows (below dir)
            (m1 <- blobStep "script" "scriptUrl" ".js" fromBase64 section dir section ;;
             m2 <- blobStep "styles" "scriptUrl" ".css" fromBase64 section dir m1 ;;
             m3 <- blobStep "template" "templateUrl" ".html" fromBase64 section dir m2 ;;
             m4 <- blobStep "properties" "propertiesUrl" ".json"
                     (fun v => inr (stringify_value v)) section dir m3 ;;
             match ui_sections metadata with
             | Some sections => ret (with_sections metadata (sections ++ [m4]))
             | None => throw (TypeError "Cannot read properties of undefined (reading 'push')")
             end)).
  repeat (apply grows_bind;
          [apply below_blobStep; [exact Hlabel | reflexivity | discriminate] | intros ?]).
  destruct (ui_sections metadata); [apply grows_ret | apply grows_throw].
Qed.

Lemma below_saveLegacySections fuel sections :
  Forall (fun section => plainSegment (to_string (get section "label")) = true) sections ->
  forall path metadata parentId,
    grows (below path) (saveLegacySections fuel sections path metadata parentId).
Proof.
  intros Hplain. rewrite List.Forall_forall in Hplain.
  induction fuel as [| fuel IH]; intros path metadata parentId; cbn [saveLegacySections].
  - apply grows_throw.
  - apply grows_forEachAcc. intros c acc Hc. apply filter_In in Hc as [Hc _].
    apply (grows_weaken (below (path +:+ "/" +:+ to_string (get c "label")))).
    { intros p. apply below_child. now apply Hplain. }
    apply grows_bind; [apply below_saveLegacySectionFiles; now apply Hplain |].
    intros metadata1. apply IH.
Qed.

Lemma below_saveLegacyUiDefinition fuel ui path arr :
  Forall (fun tab => plainSegment (to_string (get tab "name")) = true)
         (default [] (ui_tabs ui)) ->
  Forall (fun section => plainSegment (to_string (get section "label")) = true)
         (default [] (ui_sections ui)) ->
  grows (below path) (saveLegacyUiDefinition fuel ui path arr).
Proof.
  intros Htabs Hsections. unfold saveLegacyUiDefinition.
  destruct (ui_tabs ui) as [tabs |]; [| apply grows_throw].
  change (default [] (Some tabs)) with tabs in Htabs.
  rewrite List.Forall_forall in Htabs.
  apply grows_bind; [| intros ?; apply grows_ret].
  apply grows_forEachAcc. intros tab acc Htab.
  destruct (ui_sections ui) as [sections |]; [| apply grows_throw].
  change (default [] (Some sections)) with sections in Hsections.
  apply (grows_weaken (below (path +:+ "/" +:+ to_string (get tab "name")))).
  { intros p. apply below_child. now apply Htabs. }
  apply below_saveLegacySections.
  rewrite List.Forall_forall in Hsections |- *.
  intros c Hc. apply filter_In in Hc as [Hc _]. now apply Hsections.
Qed.

Lemma below_saveUi fuel path ui arr :
  plainDef ui -> grows (below path) (saveUi fuel path ui arr).
Proof.
  intros (Hname & Htabs & Hsections & Hchildren). unfold saveUi.
  apply (grows_weaken (below (path +:+ "/" +:+ to_string (get (ui_fields ui) "name")))).
  { intros p. now apply below_child. }
  apply grows_bind; [apply grows_lift |]. intros [|].
  - now apply below_saveLegacyUiDefinition.
  - apply grows_bind; [now apply below_saveUiDefinition | intros _; apply grows_ret].
Qed.

(** When the names a record's document brings into paths are plain
    segments, every file [pullUI] and the CLI command write for the
    record, whatever else the document holds and however the run ends,
    has a path made of [sourcepath/Name] and plain segments after it:
    the file is in the record's own directory, at any depth, and
    nowhere else. *)
Theorem record_written_under_its_directory (fuel : nat) (sourcepath : string)
    (dumpAll : bool) (namesMap : obj) (members : option string)
    (uiDefMembers : list (list string)) (entry : ProductModel * string)
    (acc : list string) :
  plainNames entry ->
  grows (below (sourcepath +:+ "/" +:+ Name (fst entry)))
        (pullRecord fuel sourcepath dumpAll namesMap entry acc)
  /\ grows (below (sourcepath +:+ "/" +:+ Name (fst entry)))
           (fetchRecord members fuel sourcepath uiDefMembers entry).
Proof.
  unfold plainNames, pullRecord, fetchRecord. intros Hplain.
  destruct (JSON_parse (snd entry)) as [e | [| uiDefs |]].
  - split.
    + apply grows_bind; [apply grows_console_log | intros _; apply grows_ret].
    + apply grows_console_log.
  - split.
    + apply grows_bind; [apply grows_ret |]. intros arr.
      apply grows_bind; [| intros _; apply grows_ret].
      destruct (negb _); [| apply grows_ret].
      apply grows_writeFileSafe. now apply below_file.
    + apply grows_bind; [apply grows_ret |]. intros arr.
      destruct (negb _); [| apply grows_ret].
      apply grows_writeFileSafe. now apply below_file.
  - rewrite List.Forall_forall in Hplain. split.
    + apply grows_bind.
      * apply grows_forEachAcc. intros ui arr Hui.
        destruct (negb _); [apply grows_ret |].
        apply below_saveUi. now apply Hplain.
      * intros arr. apply grows_bind; [| intros _; apply grows_ret].
        destruct (negb _); [| apply grows_ret].
        apply grows_writeFileSafe. now apply below_file.
    + apply grows_bind.
      * apply grows_forEachAcc. intros ui arr Hui.
        destruct (negb _); [apply grows_ret |].
        apply below_saveUi. now apply Hplain.
      * intros arr. destruct (negb _); [| apply grows_ret].
        apply grows_writeFileSafe. now apply below_file.
  - split.
    + apply grows_bind; [apply grows_throw | intros arr].
      apply grows_bind; [| intros _; apply grows_ret].
      destruct (negb _); [| apply grows_ret].
      apply grows_writeFileSafe. now apply below_file.
    + apply grows_bind; [apply grows_throw | intros arr].
      destruct (negb _); [| apply grows_ret].
      apply grows_writeFileSafe. now apply below_file.
Qed.

End RecordDirectory.

Lemma batch_elements_plain :
  Forall (@plainTree plainUtils) [panelElement; inputElement; buttonElement].
Proof.
  assert (Hbutton : @plainTree plainUtils buttonElement).
  { constructor; [| constructor].
    intros script md Hs Hmd. injection Hs as <-. injection Hmd as <-. reflexivity. }
  assert (Hinput : @plainTree plainUtils inputElement).
  { constructor; [| constructor].
    intros script md Hs Hmd. injection Hs as <-. injection Hmd as <-. reflexivity. }
  constructor; [| constructor; [exact Hinput | constructor; [exact Hbutton | constructor]]].
  constructor; [| constructor; [exact Hbutton | constructor]].
  intros script md Hs Hmd. injection Hs as <-. injection Hmd as <-. reflexivity.
Defined.

Lemma record_written_under_its_directory_witness :
  @plainNames plainUtils batchJson (recordM1, "[Tidy,Old]")
  /\ grows (below "src/M1")
           (@pullRecord plainUtils batchJson 8 "src" true ∅ (recordM1, "[Tidy,Old]") []).
Proof.
  assert (Hplain : @plainNames plainUtils batchJson (recordM1, "[Tidy,Old]")).
  { pose proof batch_elements_plain as Hel.
    apply Forall_cons in Hel as [Hpanel Hel]. apply Forall_cons in Hel as [Hinput _].
    change (Forall (@plainDef plainUtils) [tidyDef; oldDef]).
    constructor; [| constructor; [| constructor]].
    - split; [reflexivity | split; [constructor | split; [constructor |]]].
      change (Forall (@plainTree plainUtils) [panelElement; inputElement]).
      constructor; [exact Hpanel | constructor; [exact Hinput | constructor]].
    - split; [reflexivity | split; [| split; [| constructor]]].
      + change (Forall (fun tab => plainSegment (to_string (get tab "name")) = true)
                       [pageTab]).
        constructor; [vm_compute; reflexivity | constructor].
      + change (Forall (fun section =>
                          plainSegment (to_string (get section "label")) = true)
                       [subSection; mainSection]).
        constructor; [vm_compute; reflexivity |].
        constructor; [vm_compute; reflexivity | constructor]. }
  split; [exact Hplain |].
  exact (proj1 (@record_written_under_its_directory plainUtils batchJson 8 "src" true ∅
                  None [] (recordM1, "[Tidy,Old]") [] Hplain)).
Defined.

(** * A named element *)

Section NamedElements.
Context `{UiUtils} `{Json}.





End NamedElements.

